(** * rclcpp executors: TimerQueue, TimerManager and the TestWaitable contract

    A shallow embedding of
      - src/rclcpp/src/rclcpp/executors/detail/timer_manager.hpp
      - class TestWaitable of src/rclcpp/test/rclcpp/executors/test_executors.cpp
    The C++ member functions become functions in a small state-and-fault
    monad; the rcl timer library they call is an interface (a type class),
    instantiated further down by a simulation of rcl's timer semantics. *)

From stdpp Require Import base option numbers list sorting gmap.
From Stdlib Require Import ZArith Lia.

Local Open Scope Z_scope.

(** ** Plain data of the rcl C interface *)

Inductive rcl_clock_type_t :=
| RCL_CLOCK_UNINITIALIZED
| RCL_ROS_TIME
| RCL_SYSTEM_TIME
| RCL_STEADY_TIME.

#[global] Instance rcl_clock_type_eq_dec : EqDecision rcl_clock_type_t.
Proof. solve_decision. Defined.

Inductive rcl_ret_t :=
| RCL_RET_OK
| RCL_RET_ERROR
| RCL_RET_INVALID_ARGUMENT
| RCL_RET_TIMER_INVALID
| RCL_RET_TIMER_CANCELED.

#[global] Instance rcl_ret_eq_dec : EqDecision rcl_ret_t.
Proof. solve_decision. Defined.

(** A [std::shared_ptr<const rcl_timer_t>] is compared by the address it
    holds; a [std::function<void()>] is named by an identifier; a
    [TimerData *] is a heap address. *)
Abbreviation timer_handle := nat (only parsing).
Abbreviation callback_id := nat (only parsing).
Abbreviation data_ptr := nat (only parsing).

(** [struct TimerData] *)
Record TimerData := mkTimerData {
  rcl_ref : timer_handle;
  timer_ready_callback : callback_id
}.

(** The lambda handed to [set_on_reset_callback] captures [data_ptr] and
    [this]; the three queues of a manager have distinct tags, so the tag
    names [this]. *)
Record ResetHook := mkResetHook {
  hook_queue : rcl_clock_type_t;
  hook_data : data_ptr
}.

#[global] Instance ResetHook_eq_dec : EqDecision ResetHook.
Proof. solve_decision. Defined.

(** What a member function does to the outside, in program order. *)
Inductive Event :=
| EvLock                      (* std::scoped_lock l(mutex) *)
| EvUnlock                    (* end of the lock's scope *)
| EvNotifyAll                 (* thread_conditional.notify_all() *)
| EvNotifyOne                 (* thread_conditional.notify_one() *)
| EvWriteAllTimers            (* all_timers modified *)
| EvWriteRunningTimers        (* running_timers modified *)
| EvSetOnReset (h : timer_handle) (k : ResetHook)
| EvClearOnReset (h : timer_handle)
| EvCallback (q : rcl_clock_type_t) (key : Z) (p : data_ptr)
             (h : timer_handle) (cb : callback_id)
| EvSleepUntil (deadline : Z).

#[global] Instance Event_eq_dec : EqDecision Event.
Proof. solve_decision. Defined.

(** Ways a call can leave defined behaviour. *)
Inductive Fault :=
| AssertFailed        (* assert(false) *)
| InvalidErase        (* container.erase(container.end()) *)
| DanglingDeref       (* reading through a TimerData* whose object is gone *)
| UninitRead          (* reading an out-parameter that was never written *)
| OutOfFuel.          (* the modelled loop did not finish within its bound *)

Inductive Result (A : Type) :=
| Ok (a : A)
| Err (f : Fault).
Arguments Ok {A} a.
Arguments Err {A} f.

(** ** The state-and-fault monad *)

Definition M (S A : Type) : Type := S -> Result (A * S).

Definition ret {S A} (a : A) : M S A := fun s => Ok (a, s).
Definition throw {S A} (f : Fault) : M S A := fun _ => Err f.
Definition bind {S A B} (m : M S A) (k : A -> M S B) : M S B :=
  fun s => match m s with
           | Ok (a, s') => k a s'
           | Err f => Err f
           end.
Definition gets {S A} (f : S -> A) : M S A := fun s => Ok (f s, s).
Definition modify {S} (f : S -> S) : M S unit := fun s => Ok (tt, f s).

Notation "'let*' x ':=' m 'in' k" := (bind m (fun x => k))
  (at level 10, x name, m at level 100, k at level 200).
Notation "m ';;' k" := (bind m (fun _ => k))
  (at level 100, k at level 200, right associativity).

(** ** The rcl timer library, as the queue sees it

    [W] is the state of everything outside the queue: the rcl timers, their
    clocks, the reference counts of the shared handles and whatever the
    ready-callbacks touch. An out-parameter is the second component of the
    result and is written only when the call returns [RCL_RET_OK]. *)
Class RclTimerApi (W : Type) := {
  rcl_timer_clock : W -> timer_handle -> option rcl_clock_type_t;
  rcl_timer_call : timer_handle -> W -> rcl_ret_t * W;
  rcl_timer_get_next_call_time : W -> timer_handle -> rcl_ret_t * Z;
  rcl_timer_get_time_until_next_call : W -> timer_handle -> rcl_ret_t * Z;
  (* no shared_ptr to the timer is held outside the TimerData of the
     queue; the TimerData themselves are counted by [unique_in] *)
  rcl_ref_unique : W -> timer_handle -> bool;
  (* running a std::function<void()> *)
  invoke : callback_id -> W -> W;
  (* the resets rcl_timer_reset has counted while the timer had no
     on-reset callback, and setting that count back to zero *)
  rcl_reset_counter : W -> timer_handle -> nat;
  rcl_clear_reset_counter : timer_handle -> W -> W
}.

(** ** TimerQueue *)

Record TimerQueue := mkTimerQueue {
  timer_type : rcl_clock_type_t;
  running : bool;
  thread_terminated : bool;
  (* std::vector<std::unique_ptr<TimerData>>: each cell with its address *)
  all_timers : list (data_ptr * TimerData);
  (* std::multimap<std::chrono::nanoseconds, const TimerData *>, in key order *)
  running_timers : list (Z * data_ptr);
  (* next address std::make_unique hands out *)
  heap_next : data_ptr
}.

(** The part of the program state shared by all queues. *)
Record Sys (W : Type) := mkSys {
  world : W;
  on_reset : gmap timer_handle ResetHook;
  trace : list Event
}.
Arguments mkSys {W} _ _ _.
Arguments world {W} _.
Arguments on_reset {W} _.
Arguments trace {W} _.

Definition QState (W : Type) : Type := TimerQueue * Sys W.

(** [TimerQueue(rcl_clock_type_t timer_type)] *)
Definition new_TimerQueue (ty : rcl_clock_type_t) : TimerQueue :=
  {| timer_type := ty; running := true; thread_terminated := false;
     all_timers := []; running_timers := []; heap_next := 0%nat |}.

Definition new_Sys {W} (w : W) : Sys W :=
  {| world := w; on_reset := ∅; trace := [] |}.

(** std::chrono::hours(n) converted to std::chrono::nanoseconds *)
Definition hours (n : Z) : Z := n * 3600 * 1000000000.

(** std::chrono::nanoseconds::max() *)
Definition nanoseconds_max : Z := 2 ^ 63 - 1.

(** [multimap::emplace(k, v)] and [multimap::insert(node)]: the new element
    goes to the upper bound of its key. *)
Fixpoint multimap_insert (k : Z) (v : data_ptr) (m : list (Z * data_ptr))
  : list (Z * data_ptr) :=
  match m with
  | [] => [(k, v)]
  | (k', v') :: rest =>
      if k <? k' then (k, v) :: (k', v') :: rest
      else (k', v') :: multimap_insert k v rest
  end.

(** [rcl_ref.unique()] on the handle held by the [TimerData] [d] at
    address [p]: the handle has no other owner, neither outside the queue
    nor in another [TimerData] of [all]. *)
Definition unique_in {W} `{RclTimerApi W} (w : W)
           (all : list (data_ptr * TimerData)) (p : data_ptr) (d : TimerData)
  : bool :=
  rcl_ref_unique w (rcl_ref d)
  && bool_decide (Forall (fun e => e.1 = p \/ rcl_ref e.2 <> rcl_ref d) all).

Module Queue.
Section WithRcl.
Context {W : Type} `{RclTimerApi W}.

(** *** Field access *)

Definition emit (e : Event) : M (QState W) unit :=
  modify (fun s => (s.1, {| world := world s.2; on_reset := on_reset s.2;
                            trace := trace s.2 ++ [e] |})).

Definition get_queue : M (QState W) TimerQueue := gets fst.

Definition get_world : M (QState W) W := gets (fun s => world s.2).

Definition put_world (w : W) : M (QState W) unit :=
  modify (fun s => (s.1, {| world := w; on_reset := on_reset s.2;
                            trace := trace s.2 |})).

Definition set_all_timers (l : list (data_ptr * TimerData)) : M (QState W) unit :=
  modify (fun s => ({| timer_type := timer_type s.1; running := running s.1;
                       thread_terminated := thread_terminated s.1;
                       all_timers := l;
                       running_timers := running_timers s.1;
                       heap_next := heap_next s.1 |}, s.2)) ;;
  emit EvWriteAllTimers.

Definition set_running_timers (m : list (Z * data_ptr)) : M (QState W) unit :=
  modify (fun s => ({| timer_type := timer_type s.1; running := running s.1;
                       thread_terminated := thread_terminated s.1;
                       all_timers := all_timers s.1;
                       running_timers := m;
                       heap_next := heap_next s.1 |}, s.2)) ;;
  emit EvWriteRunningTimers.

Definition set_running (b : bool) : M (QState W) unit :=
  modify (fun s => ({| timer_type := timer_type s.1; running := b;
                       thread_terminated := thread_terminated s.1;
                       all_timers := all_timers s.1;
                       running_timers := running_timers s.1;
                       heap_next := heap_next s.1 |}, s.2)).

Definition set_thread_terminated (b : bool) : M (QState W) unit :=
  modify (fun s => ({| timer_type := timer_type s.1; running := running s.1;
                       thread_terminated := b;
                       all_timers := all_timers s.1;
                       running_timers := running_timers s.1;
                       heap_next := heap_next s.1 |}, s.2)).

(** Code outside the queue acting on the timers, their clocks or the
    handles: [timer->cancel()], a clock tick, the user dropping a timer. *)
Definition outside (f : W -> W) : M (QState W) unit :=
  let* w := get_world in
  put_world (f w).

(** [std::make_unique<TimerData>()]: a fresh address. *)
Definition make_unique : M (QState W) data_ptr :=
  fun s => Ok (heap_next s.1,
               ({| timer_type := timer_type s.1; running := running s.1;
                   thread_terminated := thread_terminated s.1;
                   all_timers := all_timers s.1;
                   running_timers := running_timers s.1;
                   heap_next := S (heap_next s.1) |}, s.2)).

(** Reading through a [TimerData *]: the object lives as long as its
    [unique_ptr] sits in [all_timers]. *)
Definition deref (p : data_ptr) : M (QState W) TimerData :=
  let* q := get_queue in
  match list_find (fun e => e.1 = p) (all_timers q) with
  | Some (_, (_, d)) => ret d
  | None => throw DanglingDeref
  end.

(** [timer->set_on_reset_callback(...)]; [k] names the callback and
    [callback] is what it runs. As in [rcl_timer_set_on_reset_callback],
    a timer that was reset while it had no on-reset callback has the new
    callback run at once, and the count of those resets is cleared. *)
Definition set_on_reset_callback (h : timer_handle) (k : ResetHook)
           (callback : M (QState W) unit) : M (QState W) unit :=
  modify (fun s => (s.1, {| world := world s.2;
                            on_reset := <[h := k]> (on_reset s.2);
                            trace := trace s.2 |})) ;;
  emit (EvSetOnReset h k) ;;
  let* w := get_world in
  if decide (rcl_reset_counter w h = 0%nat) then ret tt
  else
    callback ;;
    let* w' := get_world in
    put_world (rcl_clear_reset_counter h w').

(** [timer->clear_on_reset_callback()] *)
Definition clear_on_reset_callback (h : timer_handle) : M (QState W) unit :=
  modify (fun s => (s.1, {| world := world s.2;
                            on_reset := delete h (on_reset s.2);
                            trace := trace s.2 |})) ;;
  emit (EvClearOnReset h).

(** The "timer was deleted" branch shared by [add_timer_to_running_map]
    and the [readd_timer_to_running_map] lambda. *)
Definition forget_timer_data (p : data_ptr) : M (QState W) unit :=
  let* q := get_queue in
  match list_find (fun e => e.1 = p) (all_timers q) with
  | Some (i, _) => set_all_timers (delete i (all_timers q))
  | None => ret tt
  end.

(** [void add_timer_to_running_map(const TimerData *timer_data)];
    [d] is the object [p] points to. *)
Definition add_timer_to_running_map (p : data_ptr) (d : TimerData)
  : M (QState W) unit :=
  let* w := get_world in
  let* q := get_queue in
  if unique_in w (all_timers q) p d then
    forget_timer_data p
  else
    let '(r, w') := rcl_timer_call (rcl_ref d) w in
    put_world w' ;;
    if decide (r = RCL_RET_TIMER_CANCELED) then ret tt
    else
      let '(r2, next_call_time) := rcl_timer_get_next_call_time w' (rcl_ref d) in
      if decide (r2 = RCL_RET_OK) then
        let* q' := get_queue in
        set_running_timers (multimap_insert next_call_time p (running_timers q'))
      else ret tt.

(** The lambda installed by [add_timer] as the timer's on-reset callback. *)
Definition timer_reset_lambda (p : data_ptr) : M (QState W) unit :=
  let* d := deref p in
  add_timer_to_running_map p d.

(** [void add_timer(const TimerBase::SharedPtr &timer,
                    const std::function<void()> &timer_ready_callback)] *)
Definition add_timer (timer : timer_handle) (cb : callback_id)
  : M (QState W) unit :=
  let* w := get_world in
  match rcl_timer_clock w timer with
  | None => throw AssertFailed
  | Some clock_type_of_timer =>
      let* q := get_queue in
      if decide (clock_type_of_timer <> timer_type q) then
        (* timer is handled by another queue *)
        ret tt
      else
        let* p := make_unique in
        let data := {| rcl_ref := timer; timer_ready_callback := cb |} in
        (* the lambda reads through [data.get()], which add_timer still
           owns *)
        set_on_reset_callback timer
          {| hook_queue := timer_type q; hook_data := p |}
          (add_timer_to_running_map p data) ;;
        emit EvLock ;;
        add_timer_to_running_map p data ;;
        let* q' := get_queue in
        set_all_timers (all_timers q' ++ [(p, data)]) ;;
        emit EvUnlock ;;
        emit EvNotifyAll
  end.

(** [void remove_timer(const TimerBase::SharedPtr &timer)] *)
Definition remove_timer (timer : timer_handle) : M (QState W) unit :=
  clear_on_reset_callback timer ;;
  emit EvLock ;;
  let* q := get_queue in
  match list_find (fun e => rcl_ref e.2 = timer) (all_timers q) with
  | Some (it, (data_ptr, _)) =>
      match list_find (fun e => e.2 = data_ptr) (running_timers q) with
      | Some (it2, _) =>
          set_running_timers (delete it2 (running_timers q)) ;;
          set_all_timers (delete it (all_timers q))
      | None =>
          (* running_timers.erase(running_timers.end()) *)
          throw InvalidErase
      end
  | None => ret tt
  end ;;
  emit EvNotifyAll ;;
  (* the lock is released when the function returns *)
  emit EvUnlock.

(** [std::chrono::nanoseconds get_next_timer_ready_time() const] *)
Definition get_next_timer_ready_time (q : TimerQueue) : Z :=
  match running_timers q with
  | [] => hours 10000
  | (k, _) :: _ => k
  end.

(** The lambda [readd_timer_to_running_map] of
    [call_ready_timer_callbacks]; [e] is the extracted node. *)
Definition readd_timer_to_running_map (e : Z * data_ptr) : M (QState W) unit :=
  let* timer_data := deref e.2 in
  let* w := get_world in
  let* q := get_queue in
  if unique_in w (all_timers q) e.2 timer_data then
    forget_timer_data e.2
  else
    let '(r, next_call_time) :=
      rcl_timer_get_next_call_time w (rcl_ref timer_data) in
    if decide (r = RCL_RET_OK) then
      let* q' := get_queue in
      set_running_timers (multimap_insert next_call_time e.2 (running_timers q'))
    else ret tt.

(** [running_timers.erase(running_timers.begin())] and
    [running_timers.extract(running_timers.begin())] *)
Definition erase_begin : M (QState W) unit :=
  let* q := get_queue in
  set_running_timers (tail (running_timers q)).

(** One turn of the [while(!running_timers.empty())] loop of
    [call_ready_timer_callbacks]; [true] stands for [continue], [false]
    for leaving the loop. *)
Definition drain_step : M (QState W) bool :=
  let* q := get_queue in
  match running_timers q with
  | [] => ret false
  | (key, p) :: _ =>
      let* d := deref p in
      let* w := get_world in
      let '(r, time_until_call) :=
        rcl_timer_get_time_until_next_call w (rcl_ref d) in
      if decide (r = RCL_RET_TIMER_CANCELED) then
        erase_begin ;; ret true
      else if decide (r = RCL_RET_OK) then
        if time_until_call <=? 0 then
          (* advance next call time *)
          let '(r', w') := rcl_timer_call (rcl_ref d) w in
          put_world w' ;;
          if decide (r' = RCL_RET_TIMER_CANCELED) then
            erase_begin ;; ret true
          else
            emit (EvCallback (timer_type q) key p (rcl_ref d)
                             (timer_ready_callback d)) ;;
            put_world (invoke (timer_ready_callback d) w') ;;
            erase_begin ;;
            readd_timer_to_running_map (key, p) ;;
            ret true
        else ret false
      else
        (* time_until_call was never written *)
        throw UninitRead
  end.

(** [void call_ready_timer_callbacks()] *)
Fixpoint call_ready_timer_callbacks (fuel : nat) : M (QState W) unit :=
  match fuel with
  | O => throw OutOfFuel
  | S fuel' =>
      let* continue := drain_step in
      if continue : bool then call_ready_timer_callbacks fuel' else ret tt
  end.

(** What the worker meets in one turn of its loop: the value of
    [rclcpp::ok()] and whether [sleep_until] raised [std::runtime_error]. *)
Record LoopEnv := mkLoopEnv {
  env_ok : bool;
  env_sleep_throws : bool
}.

Inductive ThreadStatus :=
| ThreadTerminated     (* the loop was left, thread_terminated is set *)
| ThreadRunning.       (* the script ended with the loop still going *)

(** [void timer_thread()]. [running && rclcpp::ok()] short-circuits, so
    the script is consulted only while [running] holds. *)
Fixpoint timer_thread (drain_fuel : nat) (script : list LoopEnv)
  : M (QState W) ThreadStatus :=
  let* q := get_queue in
  if running q then
    match script with
    | [] => ret ThreadRunning
    | e :: rest =>
        if env_ok e then
          emit EvLock ;;
          call_ready_timer_callbacks drain_fuel ;;
          let* q' := get_queue in
          let next_wakeup_time := get_next_timer_ready_time q' in
          emit EvUnlock ;;
          emit (EvSleepUntil next_wakeup_time) ;;
          (if env_sleep_throws e then
             (* catch(const std::runtime_error &) *)
             set_running false
           else ret tt) ;;
          timer_thread drain_fuel rest
        else
          set_thread_terminated true ;; ret ThreadTerminated
    end
  else
    set_thread_terminated true ;; ret ThreadTerminated.

(** The [while(!thread_terminated.load())] loop of [stop()]. Each entry of
    [sched] says whether, during that [sleep_for(1ms)], the worker got as
    far as the test of its own loop. *)
Fixpoint stop_wait (sched : list bool) : M (QState W) unit :=
  let* q := get_queue in
  if thread_terminated q then ret tt
  else
    match sched with
    | [] => throw OutOfFuel
    | worker_ran :: rest =>
        emit EvNotifyOne ;;
        (if worker_ran : bool then
           let* _ := timer_thread 0 [] in ret tt
         else ret tt) ;;
        stop_wait rest
    end.

(** [void stop()] *)
Definition stop (sched : list bool) : M (QState W) unit :=
  set_running false ;;
  stop_wait sched.

End WithRcl.
End Queue.

(** ** TimerManager *)

Module Manager.
Section WithRcl.
Context {W : Type} `{RclTimerApi W}.

(** [std::array<TimerQueue, 3> timer_queues] *)
Record TimerManager := mkTimerManager {
  timer_queues : list TimerQueue
}.

Definition MState : Type := TimerManager * Sys W.

(** [TimerManager() : timer_queues{RCL_ROS_TIME, RCL_SYSTEM_TIME,
    RCL_STEADY_TIME}] *)
Definition new_TimerManager : TimerManager :=
  {| timer_queues :=
       new_TimerQueue <$> [RCL_ROS_TIME; RCL_SYSTEM_TIME; RCL_STEADY_TIME] |}.

(** [for(TimerQueue &q : timer_queues) { body(q); }], the [i]-th turn
    running [body i]. *)
Fixpoint for_each_from (i : nat) (body : nat -> M (QState W) unit)
         (qs : list TimerQueue) : M (Sys W) (list TimerQueue) :=
  match qs with
  | [] => ret []
  | q :: rest =>
      fun s =>
        match body i (q, s) with
        | Err f => Err f
        | Ok (_, (q', s')) =>
            match for_each_from (S i) body rest s' with
            | Err f => Err f
            | Ok (rest', s'') => Ok (q' :: rest', s'')
            end
        end
  end.

Definition for_each_queue (body : nat -> M (QState W) unit) : M MState unit :=
  fun m =>
    match for_each_from 0 body (timer_queues m.1) m.2 with
    | Err f => Err f
    | Ok (qs, s) => Ok (tt, ({| timer_queues := qs |}, s))
    end.

(** [void remove_timer(const rclcpp::TimerBase::SharedPtr &timer)] *)
Definition remove_timer (timer : timer_handle) : M MState unit :=
  for_each_queue (fun _ => Queue.remove_timer timer).

(** [void add_timer(const rclcpp::TimerBase::SharedPtr &timer,
                    const std::function<void()> &timer_ready_callback)] *)
Definition add_timer (timer : timer_handle) (cb : callback_id) : M MState unit :=
  for_each_queue (fun _ => Queue.add_timer timer cb).

(** [void stop()]; [sched i] is the schedule met by the [i]-th queue. *)
Definition stop (sched : nat -> list bool) : M MState unit :=
  for_each_queue (fun i => Queue.stop (sched i)).

End WithRcl.
End Manager.

(** ** TestWaitable (test_executors.cpp) *)

Module Waitable.

(** [std::atomic<uint>] arithmetic *)
Definition uint_modulus : Z := 2 ^ 32.
Definition uint_wrap (z : Z) : Z := z mod uint_modulus.

(** The members that [trigger], [is_ready] and [take_data] read or write.
    [gc_] is the address of the guard condition;
    [gc_triggers] counts the calls of [gc_.trigger()]. *)
Record TestWaitable := mkTestWaitable {
  is_ready_called_before_take_data : bool;
  retrigger_guard_condition : bool;
  num_unprocessed_triggers : Z;
  gc_ : nat;
  gc_triggers : nat
}.

(** [TestWaitable() = default] with the member initialisers. *)
Definition new_TestWaitable (gc : nat) : TestWaitable :=
  {| is_ready_called_before_take_data := false;
     retrigger_guard_condition := true;
     num_unprocessed_triggers := 0;
     gc_ := gc;
     gc_triggers := 0%nat |}.

(** [rcl_wait_set_t::guard_conditions]: after a wait, the entries that
    did not fire are null. *)
Definition rcl_wait_set_t := list (option nat).

(** The outcome of a call that may throw [std::runtime_error]. *)
Inductive Outcome (A : Type) :=
| Returned (a : A)
| Thrown_runtime_error.
Arguments Returned {A} a.
Arguments Thrown_runtime_error {A}.

(** [void trigger()] *)
Definition trigger (t : TestWaitable) : TestWaitable :=
  {| is_ready_called_before_take_data := is_ready_called_before_take_data t;
     retrigger_guard_condition := retrigger_guard_condition t;
     num_unprocessed_triggers := uint_wrap (num_unprocessed_triggers t + 1);
     gc_ := gc_ t;
     gc_triggers := S (gc_triggers t) |}.

(** [bool is_ready(rcl_wait_set_t * wait_set)] *)
Definition is_ready (wait_set : rcl_wait_set_t) (t : TestWaitable)
  : bool * TestWaitable :=
  (bool_decide (Some (gc_ t) ∈ wait_set),
   {| is_ready_called_before_take_data := true;
      retrigger_guard_condition := retrigger_guard_condition t;
      num_unprocessed_triggers := num_unprocessed_triggers t;
      gc_ := gc_ t;
      gc_triggers := gc_triggers t |}).

(** [std::shared_ptr<void> take_data()]; the returned pointer is null. *)
Definition take_data (t : TestWaitable) : Outcome TestWaitable :=
  if negb (is_ready_called_before_take_data t) then Thrown_runtime_error
  else
    Returned
      {| is_ready_called_before_take_data := false;
         retrigger_guard_condition := retrigger_guard_condition t;
         num_unprocessed_triggers := uint_wrap (num_unprocessed_triggers t - 1);
         gc_ := gc_ t;
         gc_triggers := gc_triggers t |}.

End Waitable.

(** ** TestWaitable: the members around [execute] *)

Module WaitableFull.

(** [size_t] arithmetic *)
Definition size_modulus : Z := 2 ^ 64.
Definition size_wrap (z : Z) : Z := z mod size_modulus.

(** [std::promise<void>]: whether the shared state holds its value. *)
Inductive promise_state :=
| promise_pending
| promise_satisfied.

(** [std::promise<void>::set_value()]; [None] stands for
    [std::future_error] with code [promise_already_satisfied]. *)
Definition set_value (p : promise_state) : option promise_state :=
  match p with
  | promise_pending => Some promise_satisfied
  | promise_satisfied => None
  end.

(** The whole object: the members above, and [hold_execute], [count_] and
    [execute_promise_]. *)
Record TestWaitableObject := mkTestWaitableObject {
  members : Waitable.TestWaitable;
  hold_execute : bool;
  count_ : Z;
  execute_promise_ : promise_state
}.

(** [TestWaitable() = default] with the member initialisers. *)
Definition new_TestWaitableObject (gc : nat) : TestWaitableObject :=
  {| members := Waitable.new_TestWaitable gc;
     hold_execute := false;
     count_ := 0;
     execute_promise_ := promise_pending |}.

Definition set_members (t : Waitable.TestWaitable) (o : TestWaitableObject)
  : TestWaitableObject :=
  {| members := t; hold_execute := hold_execute o; count_ := count_ o;
     execute_promise_ := execute_promise_ o |}.

(** [gc_.trigger()] *)
Definition gc_trigger (t : Waitable.TestWaitable) : Waitable.TestWaitable :=
  {| Waitable.is_ready_called_before_take_data :=
       Waitable.is_ready_called_before_take_data t;
     Waitable.retrigger_guard_condition := Waitable.retrigger_guard_condition t;
     Waitable.num_unprocessed_triggers := Waitable.num_unprocessed_triggers t;
     Waitable.gc_ := Waitable.gc_ t;
     Waitable.gc_triggers := S (Waitable.gc_triggers t) |}.

(** [void add_to_wait_set(rcl_wait_set_t * wait_set)], as far as the
    object goes; putting [gc_] into the wait set is left to
    [rclcpp::detail::add_guard_condition_to_rcl_wait_set]. *)
Definition add_to_wait_set (o : TestWaitableObject) : TestWaitableObject :=
  if Waitable.retrigger_guard_condition (members o)
     && (0 <? Waitable.num_unprocessed_triggers (members o))
  then set_members (gc_trigger (members o)) o
  else o.

(** [void trigger()] *)
Definition trigger (o : TestWaitableObject) : TestWaitableObject :=
  set_members (Waitable.trigger (members o)) o.

(** [void trigger_and_hold_execute()] *)
Definition trigger_and_hold_execute (o : TestWaitableObject) : TestWaitableObject :=
  trigger {| members := members o; hold_execute := true; count_ := count_ o;
             execute_promise_ := execute_promise_ o |}.

(** [void release_execute()]; [cv.notify_one()] wakes an [execute] that
    waits. *)
Definition release_execute (o : TestWaitableObject) : TestWaitableObject :=
  {| members := members o; hold_execute := false; count_ := count_ o;
     execute_promise_ := execute_promise_ o |}.

(** [bool is_ready(rcl_wait_set_t * wait_set)] *)
Definition is_ready (wait_set : Waitable.rcl_wait_set_t) (o : TestWaitableObject)
  : bool * TestWaitableObject :=
  let '(ready, t) := Waitable.is_ready wait_set (members o) in
  (ready, set_members t o).

(** [std::shared_ptr<void> take_data()] *)
Definition take_data (o : TestWaitableObject) : Waitable.Outcome TestWaitableObject :=
  match Waitable.take_data (members o) with
  | Waitable.Returned t => Waitable.Returned (set_members t o)
  | Waitable.Thrown_runtime_error => Waitable.Thrown_runtime_error
  end.

(** [std::shared_ptr<void> take_data_by_entity_id(size_t id)] *)
Definition take_data_by_entity_id (id : Z) (o : TestWaitableObject)
  : Waitable.Outcome TestWaitableObject :=
  take_data o.

(** [void execute(std::shared_ptr<void> & data)]. The
    [promise_already_satisfied] error is caught and dropped. The second
    component says whether the call is left waiting on [cv]. *)
Definition execute (o : TestWaitableObject) : TestWaitableObject * bool :=
  let count := size_wrap (count_ o + 1) in
  let promise :=
    match set_value (execute_promise_ o) with
    | Some p => p
    | None => execute_promise_ o
    end in
  ({| members := members o; hold_execute := hold_execute o; count_ := count;
      execute_promise_ := promise |},
   hold_execute o).

(** [size_t get_number_of_ready_guard_conditions()] *)
Definition get_number_of_ready_guard_conditions (o : TestWaitableObject) : Z := 1.

(** [size_t get_count()] *)
Definition get_count (o : TestWaitableObject) : Z := count_ o.

(** [std::future<void> reset_execute_promise_and_get_future()] *)
Definition reset_execute_promise_and_get_future (o : TestWaitableObject)
  : TestWaitableObject :=
  {| members := members o; hold_execute := hold_execute o; count_ := count_ o;
     execute_promise_ := promise_pending |}.

(** [void enable_retriggering(bool enabled)] *)
Definition enable_retriggering (enabled : bool) (o : TestWaitableObject)
  : TestWaitableObject :=
  set_members
    {| Waitable.is_ready_called_before_take_data :=
         Waitable.is_ready_called_before_take_data (members o);
       Waitable.retrigger_guard_condition := enabled;
       Waitable.num_unprocessed_triggers :=
         Waitable.num_unprocessed_triggers (members o);
       Waitable.gc_ := Waitable.gc_ (members o);
       Waitable.gc_triggers := Waitable.gc_triggers (members o) |} o.

End WaitableFull.

(** ** A simulation of the rcl timer library

    One instance of the interface, after rcl's [timer.c]: a timer has a
    clock, a cancelled flag, a stored next call time, a period that is not
    negative and a count of the resets it saw while it had no on-reset
    callback; [rcl_timer_call] moves the next call time forward by one
    period and, if that is still behind the clock, by as many whole periods
    as it takes to reach the clock, or to the clock itself if the period is
    zero. *)

Module Sim.

Record SimTimer := mkSimTimer {
  sim_clock : rcl_clock_type_t;
  sim_canceled : bool;
  sim_next_call_time : Z;
  (* rcl_timer_init refuses a negative period and takes zero *)
  sim_period : N;
  (* owners of the shared handle other than the queue's TimerData *)
  sim_owners : nat;
  (* callback_data.reset_counter *)
  sim_reset_counter : nat
}.

(** A handle is an index into [sim_timers]. *)
Record SimWorld := mkSimWorld {
  sim_now : Z;
  sim_timers : list SimTimer;
  sim_fired : list callback_id
}.

Definition sim_advance (now : Z) (t : SimTimer) : SimTimer :=
  let period := Z.of_N (sim_period t) in
  let next := sim_next_call_time t + period in
  let next' :=
    if next <? now then
      if period =? 0 then now
      else next + (1 + (now - next - 1) / period) * period
    else next in
  {| sim_clock := sim_clock t; sim_canceled := sim_canceled t;
     sim_next_call_time := next'; sim_period := sim_period t;
     sim_owners := sim_owners t; sim_reset_counter := sim_reset_counter t |}.

Definition sim_call (h : timer_handle) (w : SimWorld) : rcl_ret_t * SimWorld :=
  match sim_timers w !! h with
  | None => (RCL_RET_INVALID_ARGUMENT, w)
  | Some t =>
      if sim_canceled t then (RCL_RET_TIMER_CANCELED, w)
      else (RCL_RET_OK,
            {| sim_now := sim_now w;
               sim_timers := <[h := sim_advance (sim_now w) t]> (sim_timers w);
               sim_fired := sim_fired w |})
  end.

Definition sim_next (w : SimWorld) (h : timer_handle) : rcl_ret_t * Z :=
  match sim_timers w !! h with
  | None => (RCL_RET_INVALID_ARGUMENT, 0)
  | Some t =>
      if sim_canceled t then (RCL_RET_TIMER_CANCELED, 0)
      else (RCL_RET_OK, sim_next_call_time t)
  end.

Definition sim_until (w : SimWorld) (h : timer_handle) : rcl_ret_t * Z :=
  match sim_timers w !! h with
  | None => (RCL_RET_INVALID_ARGUMENT, 0)
  | Some t =>
      if sim_canceled t then (RCL_RET_TIMER_CANCELED, 0)
      else (RCL_RET_OK, sim_next_call_time t - sim_now w)
  end.

Definition sim_unique (w : SimWorld) (h : timer_handle) : bool :=
  match sim_timers w !! h with
  | None => false
  | Some t => bool_decide (sim_owners t = 0%nat)
  end.

Definition sim_invoke (cb : callback_id) (w : SimWorld) : SimWorld :=
  {| sim_now := sim_now w; sim_timers := sim_timers w;
     sim_fired := sim_fired w ++ [cb] |}.

Definition sim_counter (w : SimWorld) (h : timer_handle) : nat :=
  match sim_timers w !! h with
  | None => 0%nat
  | Some t => sim_reset_counter t
  end.

Definition sim_clear_counter (h : timer_handle) (w : SimWorld) : SimWorld :=
  {| sim_now := sim_now w;
     sim_timers :=
       alter (fun t => {| sim_clock := sim_clock t;
                          sim_canceled := sim_canceled t;
                          sim_next_call_time := sim_next_call_time t;
                          sim_period := sim_period t;
                          sim_owners := sim_owners t;
                          sim_reset_counter := 0 |}) h (sim_timers w);
     sim_fired := sim_fired w |}.

#[global] Instance sim_api : RclTimerApi SimWorld := {
  rcl_timer_clock w h := sim_clock <$> sim_timers w !! h;
  rcl_timer_call := sim_call;
  rcl_timer_get_next_call_time := sim_next;
  rcl_timer_get_time_until_next_call := sim_until;
  rcl_ref_unique := sim_unique;
  invoke := sim_invoke;
  rcl_reset_counter := sim_counter;
  rcl_clear_reset_counter := sim_clear_counter
}.

(** [rcl_timer_cancel] *)
Definition sim_cancel (h : timer_handle) (w : SimWorld) : SimWorld :=
  {| sim_now := sim_now w;
     sim_timers :=
       alter (fun t => {| sim_clock := sim_clock t; sim_canceled := true;
                          sim_next_call_time := sim_next_call_time t;
                          sim_period := sim_period t;
                          sim_owners := sim_owners t;
                          sim_reset_counter := sim_reset_counter t |})
             h (sim_timers w);
     sim_fired := sim_fired w |}.

(** [rcl_timer_reset] on a timer that has an on-reset callback, up to
    that callback, which it then runs *)
Definition sim_reset (h : timer_handle) (w : SimWorld) : SimWorld :=
  {| sim_now := sim_now w;
     sim_timers :=
       alter (fun t => {| sim_clock := sim_clock t; sim_canceled := false;
                          sim_next_call_time := sim_now w + Z.of_N (sim_period t);
                          sim_period := sim_period t;
                          sim_owners := sim_owners t;
                          sim_reset_counter := sim_reset_counter t |})
             h (sim_timers w);
     sim_fired := sim_fired w |}.

(** [rcl_timer_reset] on a timer that has no on-reset callback: the reset
    is counted *)
Definition sim_reset_counted (h : timer_handle) (w : SimWorld) : SimWorld :=
  {| sim_now := sim_now w;
     sim_timers :=
       alter (fun t => {| sim_clock := sim_clock t; sim_canceled := false;
                          sim_next_call_time := sim_now w + Z.of_N (sim_period t);
                          sim_period := sim_period t;
                          sim_owners := sim_owners t;
                          sim_reset_counter := S (sim_reset_counter t) |})
             h (sim_timers w);
     sim_fired := sim_fired w |}.

(** The clock moves on to [now]. *)
Definition sim_tick (now : Z) (w : SimWorld) : SimWorld :=
  {| sim_now := now; sim_timers := sim_timers w; sim_fired := sim_fired w |}.

(** A live timer held by user code. *)
Definition live (c : rcl_clock_type_t) (next : Z) (period : N) : SimTimer :=
  {| sim_clock := c; sim_canceled := false; sim_next_call_time := next;
     sim_period := period; sim_owners := 1; sim_reset_counter := 0 |}.

(** The same, after [timer->cancel()]. *)
Definition canceled (c : rcl_clock_type_t) (next : Z) (period : N)
  : SimTimer :=
  {| sim_clock := c; sim_canceled := true; sim_next_call_time := next;
     sim_period := period; sim_owners := 1; sim_reset_counter := 0 |}.

(** Four timers at time 100: a live steady-clock timer, a cancelled
    steady-clock timer, a live ROS-time timer and a second live
    steady-clock timer. *)
Definition w0 : SimWorld :=
  {| sim_now := 100;
     sim_timers := [live RCL_STEADY_TIME 50 20;
                    canceled RCL_STEADY_TIME 60 10;
                    live RCL_ROS_TIME 10 5;
                    live RCL_STEADY_TIME 90 30];
     sim_fired := [] |}.

(** A fresh steady-clock queue in that world. *)
Definition q0 : QState SimWorld := (new_TimerQueue RCL_STEADY_TIME, new_Sys w0).

(** The state a run ends in ([q0] if it faults). *)
Definition state_after {A} (r : Result (A * QState SimWorld)) : QState SimWorld :=
  match r with
  | Ok (_, s) => s
  | Err _ => q0
  end.

(** The queue after the live steady-clock timer was registered. *)
Definition q1 : QState SimWorld := state_after (Queue.add_timer 0%nat 7%nat q0).

End Sim.

(** * Specification vocabulary *)

(** [running_timers] is a [std::multimap]: its keys never decrease along
    the iteration order. *)
Definition index_sorted (m : list (Z * data_ptr)) : Prop :=
  StronglySorted (fun a b => a.1 <= b.1) m.

(** Every key of [m] is at least [lo]. *)
Definition keys_from (lo : Z) (m : list (Z * data_ptr)) : Prop :=
  Forall (fun e => lo <= e.1) m.

(** Every write to [all_timers] or [running_timers] in [tr] happens
    between an [EvLock] and the next [EvUnlock]; [held] says whether the
    mutex is held where [tr] starts. *)
Fixpoint writes_locked (held : bool) (tr : list Event) : bool :=
  match tr with
  | [] => true
  | EvLock :: tr' => writes_locked true tr'
  | EvUnlock :: tr' => writes_locked false tr'
  | EvWriteAllTimers :: tr' => held && writes_locked held tr'
  | EvWriteRunningTimers :: tr' => held && writes_locked held tr'
  | _ :: tr' => writes_locked held tr'
  end.

(** [tr] wakes the worker. *)
Definition signals_wake (tr : list Event) : bool :=
  bool_decide (EvNotifyAll ∈ tr \/ EvNotifyOne ∈ tr).

(** [tr] writes one of the two containers. *)
Definition writes_containers (tr : list Event) : bool :=
  bool_decide (EvWriteAllTimers ∈ tr \/ EvWriteRunningTimers ∈ tr).

(** Everything that can happen to one queue. *)
Inductive QueueCall (W : Type) :=
| CallAddTimer (t : timer_handle) (cb : callback_id)
| CallRemoveTimer (t : timer_handle)
| CallResetHook (p : data_ptr)
| CallDrain (fuel : nat)
| CallWorker (fuel : nat) (script : list Queue.LoopEnv)
| CallStop (sched : list bool)
| CallOutside (f : W -> W).
Arguments CallAddTimer {W} t cb.
Arguments CallRemoveTimer {W} t.
Arguments CallResetHook {W} p.
Arguments CallDrain {W} fuel.
Arguments CallWorker {W} fuel script.
Arguments CallStop {W} sched.
Arguments CallOutside {W} f.

(** [e] records an on-reset callback being set. *)
Definition is_set_on_reset (e : Event) : bool :=
  match e with EvSetOnReset _ _ => true | _ => false end.

(** A ready-callback that was run: the key of the entry it was run for,
    the timer and the callback. *)
Definition fired_of (e : Event) : option (Z * nat * nat) :=
  match e with
  | EvCallback _ k _ h cb => Some (k, h, cb)
  | _ => None
  end.

(** The ready-callbacks run in [tr], in order. *)
Definition fired (tr : list Event) : list (Z * nat * nat) := omap fired_of tr.

Section Vocabulary.
Context {W : Type} `{RclTimerApi W}.

(** What each of them runs. *)
Definition run_call (c : QueueCall W) : M (QState W) unit :=
  match c with
  | CallAddTimer t cb => Queue.add_timer t cb
  | CallRemoveTimer t => Queue.remove_timer t
  | CallResetHook p => Queue.timer_reset_lambda p
  | CallDrain fuel => Queue.call_ready_timer_callbacks fuel
  | CallWorker fuel script => let* _ := Queue.timer_thread fuel script in ret tt
  | CallStop sched => Queue.stop sched
  | CallOutside f => Queue.outside f
  end.

(** A timer that has a clock in [w] has the same clock in [w']. *)
Definition clock_kept (w w' : W) : Prop :=
  forall h c, rcl_timer_clock w h = Some c -> rcl_timer_clock w' h = Some c.

(** rcl fixes a timer's clock when the timer is initialised: neither
    calling a timer nor running a ready-callback nor clearing its count of
    resets changes it. *)
Class ClockLaws : Prop := {
  call_keeps_clock h w : clock_kept w (rcl_timer_call h w).2;
  invoke_keeps_clock cb w : clock_kept w (invoke cb w);
  clear_keeps_clock h w : clock_kept w (rcl_clear_reset_counter h w)
}.

(** Code outside the queue may do anything but change the clock of a
    timer. *)
Definition call_allowed (c : QueueCall W) (s : QState W) : Prop :=
  match c with
  | CallOutside f => clock_kept (world s.2) (f (world s.2))
  | _ => True
  end.

(** The states a queue of type [ty] can be in. *)
Inductive reachable (ty : rcl_clock_type_t) : QState W -> Prop :=
| reach_new w : reachable ty (new_TimerQueue ty, new_Sys w)
| reach_call s c s' :
    reachable ty s -> call_allowed c s -> run_call c s = Ok (tt, s') ->
    reachable ty s'.

(** What a queue of type [ty] keeps true: it holds only timers of its own
    clock, and it has run ready-callbacks of such timers only. *)
Record domain_inv (ty : rcl_clock_type_t) (s : QState W) : Prop := {
  inv_type : timer_type s.1 = ty;
  inv_held : forall p d, (p, d) ∈ all_timers s.1 ->
                         rcl_timer_clock (world s.2) (rcl_ref d) = Some ty;
  inv_fired : forall q k p h cb, EvCallback q k p h cb ∈ trace s.2 ->
                                 q = ty /\ rcl_timer_clock (world s.2) h = Some ty
}.

(** [e] records a ready-callback being run. *)
Definition is_callback (e : Event) : bool :=
  match e with EvCallback _ _ _ _ _ => true | _ => false end.

(** What the containers of a queue keep true: the index is in key order,
    the addresses in use were all handed out by [make_unique], and no
    address is held twice. *)
Record store_inv (s : QState W) : Prop := {
  inv_sorted : index_sorted (running_timers s.1);
  inv_fresh_all : Forall (fun x => (x.1 < heap_next s.1)%nat) (all_timers s.1);
  inv_fresh_index :
    Forall (fun e => (e.2 < heap_next s.1)%nat) (running_timers s.1);
  inv_nodup : NoDup (all_timers s.1).*1
}.

(** The range-for of the manager, in words: the call is made on the first
    queue, then on the next one in the state the first call left, and so
    on to the last queue. *)
Inductive broadcast (body : nat -> M (QState W) unit)
  : nat -> list TimerQueue -> Sys W -> list TimerQueue -> Sys W -> Prop :=
| broadcast_done i s : broadcast body i [] s [] s
| broadcast_next i q qs s q' s' qs' s'' :
    body i (q, s) = Ok (tt, (q', s')) ->
    broadcast body (S i) qs s' qs' s'' ->
    broadcast body i (q :: qs) s (q' :: qs') s''.

(** The queues of [qs] that serve clock [c]. *)
Definition serving (c : rcl_clock_type_t) (qs : list TimerQueue) : list TimerQueue :=
  filter (fun q => timer_type q = c) qs.

(** What a drain pass reads and writes. *)
Record DrainView := mkView {
  dv_all : list (nat * TimerData);
  dv_index : list (Z * nat);
  dv_world : W;
  dv_fired : list (Z * nat * nat)
}.

(** The view of a state. *)
Definition view (s : QState W) : DrainView :=
  mkView (all_timers s.1) (running_timers s.1) (world s.2) (fired (trace s.2)).


(** From [w] to [w'] no next call time has moved backwards, and no timer
    without a next call time has got one. *)
Definition next_kept (w w' : W) : Prop :=
  forall h n',
    rcl_timer_get_next_call_time w' h = (RCL_RET_OK, n') ->
    exists n, rcl_timer_get_next_call_time w h = (RCL_RET_OK, n) /\ n <= n'.

(** Neither calling a timer nor running a ready-callback nor clearing a
    count of resets moves the next call time of any timer backwards. *)
Class RearmLaws : Prop := {
  call_next_monotone h w : next_kept w (rcl_timer_call h w).2;
  invoke_next_monotone cb w : next_kept w (invoke cb w);
  clear_next_monotone h w : next_kept w (rcl_clear_reset_counter h w)
}.






(** Each timer has an urgency, a number of calls it can still take before
    it stops being due. A timer that has a clock answers the question for
    the time until its next call with OK or with cancelled. No call and no
    ready-callback raises the urgency of any timer. In the worlds that are
    [progressing], calling a due timer lowers its urgency; calls and
    ready-callbacks lead from such a world to such a world. rcl treats a
    timer of period zero as always ready: its worlds are progressing as
    long as no timer has period zero. *)
Class ProgressLaws := {
  progressing : W -> Prop;
  urgency : W -> nat -> nat;
  call_progressing h w : progressing w -> progressing (rcl_timer_call h w).2;
  invoke_progressing cb w : progressing w -> progressing (invoke cb w);
  until_known h w :
    is_Some (rcl_timer_clock w h) ->
    (rcl_timer_get_time_until_next_call w h).1 = RCL_RET_OK \/
    (rcl_timer_get_time_until_next_call w h).1 = RCL_RET_TIMER_CANCELED;
  call_calms h w t :
    progressing w ->
    rcl_timer_get_time_until_next_call w h = (RCL_RET_OK, t) -> t <= 0 ->
    (rcl_timer_call h w).1 <> RCL_RET_TIMER_CANCELED ->
    (urgency (rcl_timer_call h w).2 h < urgency w h)%nat;
  call_urgency h w h' : (urgency (rcl_timer_call h w).2 h' <= urgency w h')%nat;
  invoke_urgency cb w h' : (urgency (invoke cb w) h' <= urgency w h')%nat
}.

Context `{!ProgressLaws}.

(** The urgency of the timers stored at address [p]. *)
Definition entry_urgency (w : W) (all : list (nat * TimerData)) (p : nat) : nat :=
  sum_list_with (fun e => urgency w (rcl_ref e.2)) (filter (fun e => e.1 = p) all).

(** What bounds the number of turns of the loop. *)
Definition drain_measure (v : DrainView) : nat :=
  length (dv_index v)
  + sum_list_with (fun e => entry_urgency (dv_world v) (dv_all v) e.2) (dv_index v).

(** The index points to live objects, each at most once, and every timer
    held has a clock. *)
Record drain_ready (v : DrainView) : Prop := {
  ready_live : forall k p, (k, p) ∈ dv_index v -> exists d, (p, d) ∈ dv_all v;
  ready_nodup : NoDup (dv_index v).*2;
  ready_known : forall p d, (p, d) ∈ dv_all v ->
                            is_Some (rcl_timer_clock (dv_world v) (rcl_ref d))
}.

End Vocabulary.

(** ** Concrete states of the simulation *)

(** The urgency of a simulated timer: two calls bring a timer that is
    behind the clock ahead of it, one call a timer that is at the clock. *)
Definition sim_urgency (w : Sim.SimWorld) (h : nat) : nat :=
  match Sim.sim_timers w !! h with
  | None => 0%nat
  | Some t =>
      if Sim.sim_canceled t then 0%nat
      else if Sim.sim_next_call_time t <? Sim.sim_now w then 2%nat
      else if Sim.sim_next_call_time t =? Sim.sim_now w then 1%nat
      else 0%nat
  end.

(** No timer of the world has period zero. *)
Definition sim_progressing (w : Sim.SimWorld) : Prop :=
  Forall (fun t => Sim.sim_period t <> 0%N) (Sim.sim_timers w).

(** The registered timer comes due at time 120 and one drain pass runs its
    ready-callback. *)
Definition q1_drained : QState Sim.SimWorld :=
  Sim.state_after
    ((Queue.outside (Sim.sim_tick 120) ;;
      Queue.call_ready_timer_callbacks 3) Sim.q1).

(** Both live steady-clock timers are registered at time 100 and the clock
    moves on to 125, past both of their keys. *)
Definition q2 : QState Sim.SimWorld :=
  Sim.state_after
    ((Queue.add_timer 0%nat 7%nat ;;
      Queue.add_timer 3%nat 9%nat ;;
      Queue.outside (Sim.sim_tick 125)) Sim.q0).

(** ** The mutex of a queue, along a trace

    What the events of a trace ask of the mutex: it is taken while free and
    released while held; the two containers are written, and the
    ready-callbacks are run, from inside a locked scope; the worker goes to
    sleep with the mutex free. [mutex_protocol held tr] is the state of the
    mutex after [tr] if [tr] keeps to that, starting with the mutex held
    or not as [held] says. *)
Definition mutex_step (held : bool) (e : Event) : option bool :=
  match e with
  | EvLock => if held then None else Some true
  | EvUnlock => if held then Some false else None
  | EvWriteAllTimers | EvWriteRunningTimers | EvCallback _ _ _ _ _ =>
      if held then Some true else None
  | EvSleepUntil _ => if held then None else Some false
  | _ => Some held
  end.

Fixpoint mutex_protocol (held : bool) (tr : list Event) : option bool :=
  match tr with
  | [] => Some held
  | e :: tr' =>
      match mutex_step held e with
      | Some held' => mutex_protocol held' tr'
      | None => None
      end
  end.

(** The events of a drain pass: writes to the containers and
    ready-callbacks. *)
Definition under_lock_event (e : Event) : bool :=
  match e with
  | EvWriteAllTimers | EvWriteRunningTimers | EvCallback _ _ _ _ _ => true
  | _ => false
  end.

(** [e] records the worker going to sleep. *)
Definition is_sleep (e : Event) : bool :=
  match e with EvSleepUntil _ => true | _ => false end.

Section Frames.
Context {W : Type} `{RclTimerApi W}.

(** What a drain pass leaves alone: the type of the queue, its two flags,
    the allocator and the on-reset callbacks. *)
Record flags_kept (s s' : QState W) : Prop := {
  kept_type : timer_type s'.1 = timer_type s.1;
  kept_running : running s'.1 = running s.1;
  kept_terminated : thread_terminated s'.1 = thread_terminated s.1;
  kept_heap : heap_next s'.1 = heap_next s.1;
  kept_hooks : on_reset s'.2 = on_reset s.2
}.

(** What [stop] leaves alone: the containers, the allocator, the
    on-reset callbacks and everything outside the queue. *)
Record store_kept (s s' : QState W) : Prop := {
  kept_all_timers : all_timers s'.1 = all_timers s.1;
  kept_running_timers : running_timers s'.1 = running_timers s.1;
  kept_queue_type : timer_type s'.1 = timer_type s.1;
  kept_heap_next : heap_next s'.1 = heap_next s.1;
  kept_on_reset : on_reset s'.2 = on_reset s.2;
  kept_world : world s'.2 = world s.2
}.

(** [call_ready_timer_callbacks] is private to the worker: every call but
    a drain pass made from outside [timer_thread]. *)
Definition through_worker (c : QueueCall W) : Prop :=
  match c with
  | CallDrain _ => False
  | _ => True
  end.

End Frames.

(** No reset of the timer that [add_timer] is called for was counted, as
    resets are while the timer has no on-reset callback. *)
Definition no_reset_pending {W} `{RclTimerApi W}
           (c : QueueCall W) (s : QState W) : Prop :=
  match c with
  | CallAddTimer t _ => rcl_reset_counter (world s.2) t = 0%nat
  | _ => True
  end.

(** The state of the mutex in which a call is entered: the member
    functions of the interface and the worker take the mutex themselves;
    the drain pass is entered by the worker with the mutex held. The
    on-reset lambda is entered from [timer->reset()], outside the queue. *)
Definition mutex_at_entry {W} (c : QueueCall W) : option bool :=
  match c with
  | CallResetHook _ => None
  | CallDrain _ => Some true
  | _ => Some false
  end.

(** ** More concrete states of the simulation *)

(** One turn of the worker on [q2]: both timers are served and the worker
    goes to sleep. *)
Definition q2_served : QState Sim.SimWorld :=
  Sim.state_after (Queue.timer_thread 10 [Queue.mkLoopEnv true false] q2).

(** [q2] after [stop()], the worker answering in the second millisecond. *)
Definition q2_stopped : QState Sim.SimWorld :=
  Sim.state_after (Queue.stop [false; true] q2).

(** ** Calls on a TestWaitable *)

(** The members an executor and a test call on a [TestWaitable]. *)
Inductive WaitableCall :=
| DoAddToWaitSet
| DoTrigger
| DoTriggerAndHoldExecute
| DoReleaseExecute
| DoIsReady (wait_set : Waitable.rcl_wait_set_t)
| DoTakeData
| DoTakeDataByEntityId (id : Z)
| DoExecute
| DoResetExecutePromise
| DoEnableRetriggering (enabled : bool).

(** A [TestWaitable] in use: the object, and the number of calls of
    [execute] that are waiting on [cv]. *)
Record WaitableRun := mkWaitableRun {
  run_object :> WaitableFull.TestWaitableObject;
  run_waiting : nat
}.

(** A [TestWaitable] that was just constructed. *)
Definition new_WaitableRun (gc : nat) : WaitableRun :=
  {| run_object := WaitableFull.new_TestWaitableObject gc; run_waiting := 0 |}.

(** A member that leaves the waiting calls alone. *)
Definition on_object
           (f : WaitableFull.TestWaitableObject -> WaitableFull.TestWaitableObject)
           (r : WaitableRun) : WaitableRun :=
  {| run_object := f r; run_waiting := run_waiting r |}.

(** What each of them runs. The calls may come from any number of
    threads: a call of [execute] that is left waiting on [cv] has done
    all it does to the object and counts as waiting from then on;
    [cv.notify_one()] in [release_execute] wakes one waiting call, if
    there is one. Wake-ups that nobody asked for are left out. *)
Definition run_waitable_call (c : WaitableCall) (r : WaitableRun)
  : Waitable.Outcome WaitableRun :=
  match c with
  | DoAddToWaitSet => Waitable.Returned (on_object WaitableFull.add_to_wait_set r)
  | DoTrigger => Waitable.Returned (on_object WaitableFull.trigger r)
  | DoTriggerAndHoldExecute =>
      Waitable.Returned (on_object WaitableFull.trigger_and_hold_execute r)
  | DoReleaseExecute =>
      Waitable.Returned {| run_object := WaitableFull.release_execute r;
                           run_waiting := Nat.pred (run_waiting r) |}
  | DoIsReady ws =>
      Waitable.Returned (on_object (fun o => (WaitableFull.is_ready ws o).2) r)
  | DoTakeData =>
      match WaitableFull.take_data r with
      | Waitable.Returned o =>
          Waitable.Returned {| run_object := o; run_waiting := run_waiting r |}
      | Waitable.Thrown_runtime_error => Waitable.Thrown_runtime_error
      end
  | DoTakeDataByEntityId id =>
      match WaitableFull.take_data_by_entity_id id r with
      | Waitable.Returned o =>
          Waitable.Returned {| run_object := o; run_waiting := run_waiting r |}
      | Waitable.Thrown_runtime_error => Waitable.Thrown_runtime_error
      end
  | DoExecute =>
      let '(o, left_waiting) := WaitableFull.execute r in
      Waitable.Returned
        {| run_object := o;
           run_waiting := if left_waiting : bool then S (run_waiting r)
                          else run_waiting r |}
  | DoResetExecutePromise =>
      Waitable.Returned
        (on_object WaitableFull.reset_execute_promise_and_get_future r)
  | DoEnableRetriggering b =>
      Waitable.Returned (on_object (WaitableFull.enable_retriggering b) r)
  end.

(** The calls of [cs] one after the other, up to the first that throws. *)
Fixpoint run_waitable_calls (cs : list WaitableCall) (r : WaitableRun)
  : Waitable.Outcome WaitableRun :=
  match cs with
  | [] => Waitable.Returned r
  | c :: cs' =>
      match run_waitable_call c r with
      | Waitable.Returned r' => run_waitable_calls cs' r'
      | Waitable.Thrown_runtime_error => Waitable.Thrown_runtime_error
      end
  end.

(** In the words of the description of [take_data]: whether, at the end of
    the calls [cs], listed oldest first, an [is_ready] call has been made
    since the last [take_data]; [before] says so for the time before
    [cs]. *)
Fixpoint is_ready_since_last_take (before : bool) (cs : list WaitableCall) : bool :=
  match cs with
  | [] => before
  | c :: cs' =>
      is_ready_since_last_take
        match c with
        | DoIsReady _ => true
        | DoTakeData | DoTakeDataByEntityId _ => false
        | _ => before
        end cs'
  end.

(** The calls that count a trigger in, take one out, and run [execute]. *)
Definition counts_trigger (c : WaitableCall) : bool :=
  match c with DoTrigger | DoTriggerAndHoldExecute => true | _ => false end.

Definition counts_take (c : WaitableCall) : bool :=
  match c with DoTakeData | DoTakeDataByEntityId _ => true | _ => false end.

Definition counts_execute (c : WaitableCall) : bool :=
  match c with DoExecute => true | _ => false end.

Definition counts_add (c : WaitableCall) : bool :=
  match c with DoAddToWaitSet => true | _ => false end.

(** How many calls of [cs] satisfy [f]. *)
Definition count_calls (f : WaitableCall -> bool) (cs : list WaitableCall) : nat :=
  length (filter (fun c => f c = true) cs).

(** What an executor does with a waitable that is ready: it asks it into
    the wait set, asks whether it is ready, takes its data and executes
    it. *)
Definition dispatch (wait_set : Waitable.rcl_wait_set_t) : list WaitableCall :=
  [DoAddToWaitSet; DoIsReady wait_set; DoTakeData; DoExecute].

(** One such round per wait set of [wss]. *)
Definition dispatches (wss : list Waitable.rcl_wait_set_t) : list WaitableCall :=
  wss ≫= dispatch.

(** The first timer of [q2] removed again. *)
Definition q2_removed : QState Sim.SimWorld :=
  Sim.state_after (Queue.remove_timer 0%nat q2).

(** One drain pass on [q2]. *)
Definition q2_drained : QState Sim.SimWorld :=
  Sim.state_after (Queue.call_ready_timer_callbacks 10 q2).

(** Two turns of the worker on [q2]. *)
Definition q2_two_turns : QState Sim.SimWorld :=
  Sim.state_after
    (Queue.timer_thread 10 [Queue.mkLoopEnv true false; Queue.mkLoopEnv true false]
                        q2).

(** The worker started once more on the stopped queue. *)
Definition q2_stopped_worker : QState Sim.SimWorld :=
  Sim.state_after (Queue.timer_thread 10 [Queue.mkLoopEnv true false] q2_stopped).

(** The cancelled steady-clock timer, and the second live one, registered
    on [q1]. *)
Definition q1_with_cancelled : QState Sim.SimWorld :=
  Sim.state_after (Queue.add_timer 1%nat 8%nat Sim.q1).

Definition q1_with_second : QState Sim.SimWorld :=
  Sim.state_after (Queue.add_timer 3%nat 9%nat Sim.q1).

(** A manager in the world of the simulation, and the same after the live
    steady-clock timer was handed to it. *)
Definition m0 : Manager.MState (W := Sim.SimWorld) :=
  (Manager.new_TimerManager, new_Sys Sim.w0).

Definition m1 : Manager.MState (W := Sim.SimWorld) :=
  match Manager.add_timer 0%nat 7%nat m0 with
  | Ok (_, ms) => ms
  | Err _ => m0
  end.

(** A waitable that was triggered three times. *)
Definition waitable3 : WaitableRun :=
  on_object WaitableFull.trigger
    (on_object WaitableFull.trigger
       (on_object WaitableFull.trigger (new_WaitableRun 5))).

Section HookFree.
Context {W : Type} `{RclTimerApi W}.

(** A call that does not run the on-reset lambda: any call but the
    lambda itself and an [add_timer] for a timer with a counted reset,
    for which [set_on_reset_callback] runs the lambda at once. *)
Definition not_reset_hook (c : QueueCall W) (s : QState W) : Prop :=
  match c with
  | CallResetHook _ => False
  | _ => no_reset_pending c s
  end.

(** The states a queue of type [ty] can be in as long as no timer it holds
    is reset, and no timer is handed to it that was reset before. *)
Inductive reachable_unhooked (ty : rcl_clock_type_t) : QState W -> Prop :=
| unhooked_new w : reachable_unhooked ty (new_TimerQueue ty, new_Sys w)
| unhooked_call s c s' :
    reachable_unhooked ty s -> call_allowed c s -> not_reset_hook c s ->
    run_call c s = Ok (tt, s') ->
    reachable_unhooked ty s'.

End HookFree.

(** The first timer of [q2] is reset by its owner. *)
Definition q2_reset : QState Sim.SimWorld :=
  Sim.state_after (Queue.outside (Sim.sim_reset 0%nat) q2).

(** The first timer of [q2] is reset and then removed. *)
Definition q2_reset_removed : QState Sim.SimWorld :=
  Sim.state_after
    ((Queue.outside (Sim.sim_reset 0%nat) ;;
      Queue.timer_reset_lambda 0%nat ;;
      Queue.remove_timer 0%nat) q2).

(** ** States in which the assumptions made above fail *)

(** The live steady-clock timer is reset by its owner before it is handed
    to the queue: rcl counts the reset. *)
Definition q0_reset_counted : QState Sim.SimWorld :=
  Sim.state_after (Queue.outside (Sim.sim_reset_counted 0%nat) Sim.q0).

(** It is then registered, and removed again. *)
Definition q0_reset_added : QState Sim.SimWorld :=
  Sim.state_after (Queue.add_timer 0%nat 7%nat q0_reset_counted).

Definition q0_reset_added_removed : QState Sim.SimWorld :=
  Sim.state_after (Queue.remove_timer 0%nat q0_reset_added).

(** The queue holds one timer, live, due, still owned by user code and of
    period zero, and the index has one entry, for that timer. *)
Definition zero_period_due (s : QState Sim.SimWorld) : Prop :=
  exists k d t,
    running_timers s.1 = [(k, 0%nat)] /\
    all_timers s.1 = [(0%nat, d)] /\ rcl_ref d = 0%nat /\
    Sim.sim_timers (world s.2) !! 0%nat = Some t /\
    Sim.sim_canceled t = false /\ Sim.sim_period t = 0%N /\
    Sim.sim_owners t <> 0%nat /\
    Sim.sim_next_call_time t <= Sim.sim_now (world s.2).

(** A world with one steady-clock timer, of period zero, and a queue that
    has registered it. *)
Definition wz : Sim.SimWorld :=
  {| Sim.sim_now := 100;
     Sim.sim_timers := [Sim.live RCL_STEADY_TIME 50 0];
     Sim.sim_fired := [] |}.

Definition qz : QState Sim.SimWorld :=
  Sim.state_after
    (Queue.add_timer 0%nat 7%nat (new_TimerQueue RCL_STEADY_TIME, new_Sys wz)).

(** * Properties *)

(** ** The ordered index *)

Lemma elem_of_multimap_insert k v m e :
  e ∈ multimap_insert k v m <-> e = (k, v) \/ e ∈ m.
Proof.
  induction m as [|[k' v'] m IH]; simpl.
  - rewrite list_elem_of_singleton, elem_of_nil. tauto.
  - destruct (k <? k'); rewrite !elem_of_cons; [tauto|].
    rewrite IH. tauto.
Qed.

Lemma multimap_insert_Forall (P : Z * data_ptr -> Prop) k v m :
  P (k, v) -> Forall P m -> Forall P (multimap_insert k v m).
Proof.
  intros Hk Hm. apply Forall_forall. intros e He.
  apply elem_of_multimap_insert in He as [->|He]; [done|].
  rewrite Forall_forall in Hm. auto.
Qed.

Lemma multimap_insert_sorted k v m :
  index_sorted m -> index_sorted (multimap_insert k v m).
Proof.
  unfold index_sorted. induction 1 as [|[k' v'] m Hs IH Hall]; simpl.
  - repeat constructor.
  - destruct (Z.ltb_spec k k').
    + constructor; [by constructor|].
      constructor; simpl; [lia|].
      eapply Forall_impl; [exact Hall|]. simpl. intros; lia.
    + constructor; [done|].
      apply multimap_insert_Forall; simpl; [lia|done].
Qed.


Lemma index_sorted_delete i m : index_sorted m -> index_sorted (delete i m).
Proof.
  unfold index_sorted. intros Hs. revert i.
  induction Hs as [|e m Hs IH Hall]; intros [|i]; simpl;
    try constructor; auto.
  apply Forall_forall. intros x Hx.
  rewrite Forall_forall in Hall. apply Hall.
  by eapply list_elem_of_delete_inv.
Qed.

Lemma index_sorted_head_least k p rest :
  index_sorted ((k, p) :: rest) -> keys_from k ((k, p) :: rest).
Proof.
  intros Hs. apply StronglySorted_inv in Hs as [_ Hall].
  constructor; simpl; [lia|]. done.
Qed.

(** ** The next wake-up time *)

(** C7. [get_next_timer_ready_time] returns the least key of the ordered
    index when the index is not empty. On an empty index it returns
    [std::chrono::hours(10000)], that is 36 * 10^15 ns, which lies strictly
    below [std::chrono::nanoseconds::max()]; adding it to any current time
    between 0 and [nanoseconds::max() - hours(10000)] stays representable. *)
Theorem get_next_timer_ready_time_spec (q : TimerQueue) :
  index_sorted (running_timers q) ->
  (running_timers q <> [] ->
     (exists p, (Queue.get_next_timer_ready_time q, p) ∈ running_timers q) /\
     (forall k p, (k, p) ∈ running_timers q ->
                  Queue.get_next_timer_ready_time q <= k)) /\
  (running_timers q = [] ->
     Queue.get_next_timer_ready_time q = hours 10000 /\
     hours 10000 = 36000000000000000 /\
     Queue.get_next_timer_ready_time q < nanoseconds_max /\
     (forall now, 0 <= now <= nanoseconds_max - hours 10000 ->
        now + Queue.get_next_timer_ready_time q <= nanoseconds_max)).
Proof.
  intros Hs. unfold Queue.get_next_timer_ready_time. split.
  - destruct (running_timers q) as [|[k p] rest] eqn:E; [done|]. intros _.
    split; [exists p; left|].
    intros k' p' Hin. apply index_sorted_head_least in Hs.
    unfold keys_from in Hs. rewrite Forall_forall in Hs.
    apply (Hs (k', p') Hin).
  - intros ->. unfold hours, nanoseconds_max. repeat split; lia.
Qed.

Lemma get_next_timer_ready_time_spec_witness :
  let q := {| timer_type := RCL_STEADY_TIME; running := true;
              thread_terminated := false;
              all_timers := [(0%nat, mkTimerData 0%nat 7%nat);
                             (1%nat, mkTimerData 1%nat 8%nat)];
              running_timers := [(110, 0%nat); (130, 1%nat)];
              heap_next := 2%nat |} in
  Queue.get_next_timer_ready_time q = 110 /\
  (forall k p, (k, p) ∈ running_timers q -> 110 <= k).
Proof.
  intros q.
  assert (Hs : index_sorted (running_timers q)).
  { unfold index_sorted; simpl. repeat constructor; simpl; lia. }
  destruct (get_next_timer_ready_time_spec q Hs) as [Hne _].
  split; [reflexivity|].
  apply Hne. simpl. discriminate.
Defined.

(** ** TestWaitable *)

(** What one call does to [is_ready_called_before_take_data]: [is_ready]
    sets it, a [take_data] that returns clears it, and no other member
    touches it. *)
Lemma run_waitable_call_flag c (r r1 : WaitableRun) :
  run_waitable_call c r = Waitable.Returned r1 ->
  Waitable.is_ready_called_before_take_data (WaitableFull.members r1)
  = match c with
    | DoIsReady _ => true
    | DoTakeData | DoTakeDataByEntityId _ => false
    | _ => Waitable.is_ready_called_before_take_data (WaitableFull.members r)
    end.
Proof.
  destruct c; simpl;
    unfold on_object, WaitableFull.add_to_wait_set,
      WaitableFull.take_data_by_entity_id, WaitableFull.take_data,
      Waitable.take_data;
    simpl; intros Hrun; repeat case_match; by simplify_eq/=.
Qed.

(** C6, as the code has it. Take any calls [cs] of members of a
    [TestWaitable], from any threads, none of which throws. Then
    [is_ready_called_before_take_data] says whether an [is_ready] call
    has been made since the last [take_data], or since where the calls
    began: [trigger], [add_to_wait_set], [execute] and the other members
    leave it alone. [take_data] throws exactly when no such [is_ready]
    call was made, whatever that call returned, and
    [take_data_by_entity_id] does what [take_data] does. An object that
    was just constructed throws. After an [is_ready] call, one
    [take_data] returns, lowers the unprocessed-trigger count by one as an
    unsigned 32-bit number, and uses up the permission: a second
    [take_data] in a row throws. *)
Theorem take_data_spec (t : Waitable.TestWaitable) (ws : Waitable.rcl_wait_set_t)
        (cs : list WaitableCall) (r r' : WaitableRun) :
  run_waitable_calls cs r = Waitable.Returned r' ->
  (Waitable.take_data t = Waitable.Thrown_runtime_error <->
   Waitable.is_ready_called_before_take_data t = false) /\
  Waitable.take_data (Waitable.new_TestWaitable (Waitable.gc_ t))
    = Waitable.Thrown_runtime_error /\
  (exists t',
     Waitable.take_data (Waitable.is_ready ws t).2 = Waitable.Returned t' /\
     Waitable.num_unprocessed_triggers t'
       = Waitable.uint_wrap (Waitable.num_unprocessed_triggers t - 1) /\
     Waitable.take_data t' = Waitable.Thrown_runtime_error) /\
  Waitable.is_ready_called_before_take_data (WaitableFull.members r')
  = is_ready_since_last_take
      (Waitable.is_ready_called_before_take_data (WaitableFull.members r)) cs /\
  (run_waitable_call DoTakeData r' = Waitable.Thrown_runtime_error <->
   is_ready_since_last_take
     (Waitable.is_ready_called_before_take_data (WaitableFull.members r)) cs
   = false) /\
  (forall id,
     run_waitable_call (DoTakeDataByEntityId id) r'
     = run_waitable_call DoTakeData r').
Proof.
  intros Hrun.
  assert (Waitable.is_ready_called_before_take_data (WaitableFull.members r')
          = is_ready_since_last_take
              (Waitable.is_ready_called_before_take_data (WaitableFull.members r))
              cs) as Hflag.
  { revert r Hrun. induction cs as [|c cs IH]; intros r Hrun; simpl in *.
    - by simplify_eq.
    - destruct (run_waitable_call c r) as [r1|] eqn:Hstep; [|done].
      apply run_waitable_call_flag in Hstep. rewrite (IH _ Hrun), Hstep.
      by destruct c. }
  split; [|split; [|split; [|split; [exact Hflag|split]]]].
  - unfold Waitable.take_data.
    destruct (Waitable.is_ready_called_before_take_data t); simpl; split; congruence.
  - reflexivity.
  - unfold Waitable.take_data, Waitable.is_ready; simpl.
    eexists. split; [reflexivity|]. simpl. split; reflexivity.
  - rewrite <- Hflag. simpl. unfold WaitableFull.take_data, Waitable.take_data.
    destruct (Waitable.is_ready_called_before_take_data (WaitableFull.members r'));
      simpl; split; congruence.
  - reflexivity.
Qed.

Lemma take_data_spec_witness :
  let cs := [DoTrigger; DoIsReady []; DoTrigger; DoAddToWaitSet; DoExecute] in
  exists r',
    run_waitable_calls cs (new_WaitableRun 5) = Waitable.Returned r' /\
    is_ready_since_last_take false cs = true /\
    Waitable.is_ready_called_before_take_data (WaitableFull.members r') = true /\
    run_waitable_call DoTakeData r' <> Waitable.Thrown_runtime_error.
Proof.
  intros cs. eexists. split; [reflexivity|]. split; [reflexivity|].
  match goal with
  | |- Waitable.is_ready_called_before_take_data (WaitableFull.members ?r') = _ /\ _ =>
      destruct (take_data_spec (Waitable.new_TestWaitable 5) [] cs
                  (new_WaitableRun 5) r' eq_refl)
        as (_ & _ & _ & Hflag & Hthrows & _)
  end.
  split; [exact Hflag|].
  intros Hthrown. apply Hthrows in Hthrown. discriminate Hthrown.
Defined.

(** C6, as stated, fails: an [is_ready] call that returns false (the guard
    condition is not in the wait set) still lets the next [take_data]
    through, and the count of an idle waitable wraps around. *)
Lemma take_data_after_unready_is_ready :
  let t := Waitable.new_TestWaitable 5%nat in
  (Waitable.is_ready [] t).1 = false /\
  Waitable.take_data (Waitable.is_ready [] t).2 <> Waitable.Thrown_runtime_error /\
  (forall t', Waitable.take_data (Waitable.is_ready [] t).2 = Waitable.Returned t' ->
              Waitable.num_unprocessed_triggers t' = 4294967295).
Proof.
  simpl. split; [reflexivity|]. split.
  - unfold Waitable.take_data; simpl. discriminate.
  - unfold Waitable.take_data; simpl. intros t' [= <-]. reflexivity.
Qed.

(** ** Reasoning about the monad *)

Lemma bind_Ok {S A B} (m : M S A) (k : A -> M S B) s b s'' :
  bind m k s = Ok (b, s'') <->
  exists a s', m s = Ok (a, s') /\ k a s' = Ok (b, s'').
Proof.
  unfold bind. destruct (m s) as [[a s']|f]; split.
  - eauto.
  - intros (? & ? & [= <- <-] & ?). done.
  - done.
  - intros (? & ? & [=] & _).
Qed.

(** Unfold the primitives of the monad and of the queue. *)
Ltac mprim :=
  unfold Queue.set_all_timers, Queue.set_running_timers, Queue.set_running,
    Queue.set_thread_terminated, Queue.set_on_reset_callback,
    Queue.clear_on_reset_callback, Queue.erase_begin, Queue.outside,
    Queue.put_world, Queue.get_world, Queue.get_queue, Queue.emit,
    Queue.make_unique, bind, ret, throw, gets, modify in *;
  simpl in *.

(** Split on every [match] the goal or a hypothesis is stuck on. *)
Ltac mcases := repeat (case_match; simplify_eq/=; try done).

(** ** Lock discipline of a trace *)

Section QueueFacts.
Context {W : Type} `{RclTimerApi W}.

(** The events of [add_timer_to_running_map]: at most one write, nothing
    else. *)
Lemma add_timer_to_running_map_trace p d (s s' : QState W) :
  Queue.add_timer_to_running_map p d s = Ok (tt, s') ->
  exists tr, trace s'.2 = trace s.2 ++ tr /\
             (tr = [] \/ tr = [EvWriteAllTimers] \/ tr = [EvWriteRunningTimers]).
Proof.
  unfold Queue.add_timer_to_running_map, Queue.forget_timer_data. mprim.
  intros Hrun. mcases;
    first [ by exists []; rewrite app_nil_r; auto
          | by exists [EvWriteAllTimers]; auto
          | by exists [EvWriteRunningTimers]; auto ].
Qed.

(** [add_timer_to_running_map] leaves the type of the queue, its flags,
    the allocator and the on-reset callbacks alone. *)
Lemma add_timer_to_running_map_frame p d (s s' : QState W) :
  Queue.add_timer_to_running_map p d s = Ok (tt, s') -> flags_kept s s'.
Proof.
  unfold Queue.add_timer_to_running_map, Queue.forget_timer_data. mprim.
  intros Hrun. mcases; by split.
Qed.

(** [add_timer], step by step: nothing at all on a queue of another clock;
    on the queue of the timer's clock an address is handed out and the
    on-reset callback is set, which runs the lambda at once if resets were
    counted; then, under the lock, the timer is filed and its object joins
    [all_timers]; the worker is notified. *)
Lemma add_timer_Ok t cb (s s' : QState W) :
  Queue.add_timer t cb s = Ok (tt, s') ->
  exists c, rcl_timer_clock (world s.2) t = Some c /\
    ((c <> timer_type s.1 /\ s' = s) \/
     (c = timer_type s.1 /\
      exists s1 s2 s3 : QState W,
        s1 = ({| timer_type := timer_type s.1; running := running s.1;
                 thread_terminated := thread_terminated s.1;
                 all_timers := all_timers s.1;
                 running_timers := running_timers s.1;
                 heap_next := S (heap_next s.1) |},
              {| world := world s.2;
                 on_reset := <[t := {| hook_queue := timer_type s.1;
                                       hook_data := heap_next s.1 |}]>
                               (on_reset s.2);
                 trace := trace s.2
                          ++ [EvSetOnReset t {| hook_queue := timer_type s.1;
                                                hook_data := heap_next s.1 |}] |}) /\
        ((rcl_reset_counter (world s.2) t = 0%nat /\ s2 = s1) \/
         (rcl_reset_counter (world s.2) t <> 0%nat /\
          exists sr,
            Queue.add_timer_to_running_map (heap_next s.1) (mkTimerData t cb) s1
              = Ok (tt, sr) /\
            s2 = (sr.1, {| world := rcl_clear_reset_counter t (world sr.2);
                           on_reset := on_reset sr.2;
                           trace := trace sr.2 |}))) /\
        Queue.add_timer_to_running_map (heap_next s.1) (mkTimerData t cb)
          (s2.1, {| world := world s2.2; on_reset := on_reset s2.2;
                    trace := trace s2.2 ++ [EvLock] |}) = Ok (tt, s3) /\
        s' = ({| timer_type := timer_type s3.1; running := running s3.1;
                 thread_terminated := thread_terminated s3.1;
                 all_timers := all_timers s3.1
                               ++ [(heap_next s.1, mkTimerData t cb)];
                 running_timers := running_timers s3.1;
                 heap_next := heap_next s3.1 |},
              {| world := world s3.2; on_reset := on_reset s3.2;
                 trace := trace s3.2
                          ++ [EvWriteAllTimers; EvUnlock; EvNotifyAll] |}))).
Proof.
  unfold Queue.add_timer. intros Hrun.
  apply bind_Ok in Hrun as (w & s0 & Hw & Hrun).
  unfold Queue.get_world, gets in Hw. simplify_eq/=.
  destruct (rcl_timer_clock _ _) as [c|]; [|done]. exists c. split; [done|].
  apply bind_Ok in Hrun as (q & s0' & Hq & Hrun).
  unfold Queue.get_queue, gets in Hq. simplify_eq/=.
  destruct (decide (c <> timer_type s0'.1)) as [Hne|Heq].
  { unfold ret in Hrun. simplify_eq/=. by left. }
  right. split; [by destruct (decide (c = timer_type s0'.1))|].
  apply bind_Ok in Hrun as (p & sa & Hp & Hrun).
  unfold Queue.make_unique in Hp. simplify_eq/=.
  apply bind_Ok in Hrun as ([] & sb & Hhook & Hrun).
  apply bind_Ok in Hrun as ([] & sc & Hlock & Hrun).
  apply bind_Ok in Hrun as ([] & sd & Hmap & Hrun).
  unfold Queue.set_on_reset_callback in Hhook.
  apply bind_Ok in Hhook as ([] & sa1 & Hstore & Hhook).
  apply bind_Ok in Hhook as ([] & sa2 & Hevent & Hhook).
  apply bind_Ok in Hhook as (w & sa3 & Hw & Hhook).
  unfold Queue.emit, Queue.get_world in Hstore, Hevent, Hw, Hlock.
  unfold modify, gets in Hstore, Hevent, Hw, Hlock.
  simplify_eq/=.
  eexists _, sb, sd. split; [reflexivity|].
  split; [|split; [exact Hmap|]].
  - destruct (decide (rcl_reset_counter (world s0'.2) t = 0%nat)) as [Hzero|Hpending].
    + unfold ret in Hhook. simplify_eq/=. by left.
    + right. split; [done|].
      apply bind_Ok in Hhook as ([] & sr & Hreplay & Hhook).
      exists sr. split; [exact Hreplay|]. mprim. by simplify_eq/=.
  - mprim. simplify_eq/=. by rewrite <- !app_assoc.
Qed.

(** The sibling paths keep the discipline: as long as no reset was counted
    for the timer, whatever [add_timer] writes, it writes under the mutex,
    and it ends by waking the worker. *)
Lemma add_timer_trace t cb (s s' : QState W) :
  rcl_reset_counter (world s.2) t = 0%nat ->
  Queue.add_timer t cb s = Ok (tt, s') ->
  exists tr, trace s'.2 = trace s.2 ++ tr /\
             writes_locked false tr = true /\
             (writes_containers tr = true -> signals_wake tr = true).
Proof.
  intros Hzero Hrun.
  apply add_timer_Ok in Hrun as (c & Hclock & [[Hne ->]|(-> & s1 & s2 & s3 & -> &
    Hreplay & Hmap & ->)]).
  { exists []. by rewrite app_nil_r. }
  destruct Hreplay as [[_ ->]|[Hpending _]]; [|done].
  apply add_timer_to_running_map_trace in Hmap as (tr & Htr & Hcase).
  simpl in *. rewrite Htr.
  eexists (_ :: _ :: tr ++ [_; _; _]).
  split; [by rewrite <- !app_assoc|].
  destruct Hcase as [->|[->| ->]]; done.
Qed.

Lemma remove_timer_trace t (s s' : QState W) :
  Queue.remove_timer t s = Ok (tt, s') ->
  exists tr, trace s'.2 = trace s.2 ++ tr /\
             writes_locked false tr = true /\
             signals_wake tr = true.
Proof.
  unfold Queue.remove_timer. mprim. intros Hrun.
  mcases; eexists; (split; [by rewrite <- !app_assoc|]); done.
Qed.

(** The on-reset lambda takes no lock and wakes nobody. *)
Lemma timer_reset_lambda_trace p (s s' : QState W) :
  Queue.timer_reset_lambda p s = Ok (tt, s') ->
  exists tr, trace s'.2 = trace s.2 ++ tr /\
             (EvLock ∉ tr) /\ signals_wake tr = false.
Proof.
  unfold Queue.timer_reset_lambda, Queue.deref. intros Hrun.
  apply bind_Ok in Hrun as (d & s1 & Hd & Hrun).
  apply add_timer_to_running_map_trace in Hrun as (tr & Htr & Hcase).
  assert (s1 = s) as -> by (mprim; mcases).
  exists tr. split; [done|].
  destruct Hcase as [->|[->| ->]]; split; try done;
    by apply (bool_decide_unpack _).
Qed.

End QueueFacts.

(** ** The on-reset hook and the mutex *)

(** C2, at a concrete reset. A live steady-clock timer is registered; user
    code then calls [timer->reset()], which re-arms the rcl timer and runs
    the lambda installed by [add_timer]. The lambda inserts into
    [running_timers] without holding the mutex and without notifying the
    condition variable, although the insertion moves the next wake-up time
    (from 110 to 140, the stale entry being left behind). [add_timer]
    itself, on the same queue, writes under the lock and notifies. *)
Theorem reset_hook_writes_unlocked_and_silent :
  exists s1 s2 tr_add tr_reset,
    Queue.add_timer 0%nat 7%nat Sim.q0 = Ok (tt, s1) /\
    trace s1.2 = tr_add /\
    writes_locked false tr_add = true /\ signals_wake tr_add = true /\
    (Queue.outside (Sim.sim_reset 0%nat) ;; Queue.timer_reset_lambda 0%nat) s1
      = Ok (tt, s2) /\
    trace s2.2 = tr_add ++ tr_reset /\
    tr_reset = [EvWriteRunningTimers] /\
    writes_locked false tr_reset = false /\
    signals_wake tr_reset = false /\
    running_timers s1.1 = [(110, 0%nat)] /\
    running_timers s2.1 = [(110, 0%nat); (140, 0%nat)].
Proof.
  do 4 eexists. split; [vm_compute; reflexivity|].
  split; [reflexivity|]. split; [reflexivity|]. split; [reflexivity|].
  split; [vm_compute; reflexivity|].
  repeat split; reflexivity.
Qed.

(** ** Removing a timer *)

(** C3, at a concrete removal. A live timer is registered, user code
    cancels it, and the next drain pass drops its entry from
    [running_timers] while [all_timers] keeps it. [remove_timer] then finds
    the timer in [all_timers], finds no entry in [running_timers] and
    erases the end iterator. *)
Theorem remove_timer_after_cancel_erases_end :
  exists s,
    (Queue.add_timer 0%nat 7%nat ;;
     Queue.outside (Sim.sim_cancel 0%nat) ;;
     Queue.call_ready_timer_callbacks 2) Sim.q0 = Ok (tt, s) /\
    all_timers s.1 = [(0%nat, mkTimerData 0%nat 7%nat)] /\
    running_timers s.1 = [] /\
    Queue.remove_timer 0%nat s = Err InvalidErase.
Proof.
  eexists. split; [vm_compute; reflexivity|].
  repeat split; vm_compute; reflexivity.
Qed.

(** After a reset the timer has two entries in [running_timers];
    [remove_timer] erases the first one only, and the entry left behind
    points to a [TimerData] that is gone: the next drain pass reads through
    it. *)
Lemma remove_timer_leaves_stale_entry :
  exists s,
    (Queue.add_timer 0%nat 7%nat ;;
     Queue.outside (Sim.sim_reset 0%nat) ;;
     Queue.timer_reset_lambda 0%nat ;;
     Queue.remove_timer 0%nat) Sim.q0 = Ok (tt, s) /\
    all_timers s.1 = [] /\
    running_timers s.1 = [(140, 0%nat)] /\
    Queue.call_ready_timer_callbacks 1 s = Err DanglingDeref.
Proof.
  eexists. split; [vm_compute; reflexivity|].
  repeat split; vm_compute; reflexivity.
Qed.

(** ** Registering and removing at once *)

(** C5, at a concrete timer. The queue is empty and the timer, cancelled
    before it is registered, matches the queue's clock. [add_timer] stores
    it in [all_timers] without an entry in [running_timers], and the
    [remove_timer] that follows erases the end iterator: there is no state
    left to ask for the next wake-up time. *)
Theorem add_then_remove_cancelled_timer_faults :
  (exists s,
     Queue.add_timer 1%nat 7%nat Sim.q0 = Ok (tt, s) /\
     all_timers s.1 = [(0%nat, mkTimerData 1%nat 7%nat)] /\
     running_timers s.1 = []) /\
  (Queue.add_timer 1%nat 7%nat ;; Queue.remove_timer 1%nat) Sim.q0
    = Err InvalidErase.
Proof.
  split; [eexists; split; [vm_compute; reflexivity|]|];
    repeat split; vm_compute; reflexivity.
Qed.

(** *** Where removal is well defined *)




Section RemovalFacts.
Context {W : Type} `{RclTimerApi W}.

(** [remove_timer] on a timer that has an entry in both containers: both
    are erased, the hook is gone. *)
Lemma remove_timer_registered t (s : QState W) i p d j e :
  list_find (fun x => rcl_ref x.2 = t) (all_timers s.1) = Some (i, (p, d)) ->
  list_find (fun x => x.2 = p) (running_timers s.1) = Some (j, e) ->
  exists s', Queue.remove_timer t s = Ok (tt, s') /\
             all_timers s'.1 = delete i (all_timers s.1) /\
             running_timers s'.1 = delete j (running_timers s.1) /\
             on_reset s'.2 !! t = None /\
             world s'.2 = world s.2.
Proof.
  intros Hall Hrun. unfold Queue.remove_timer. mprim.
  rewrite Hall, Hrun. eexists. split; [reflexivity|]. simpl.
  repeat split; try done. apply lookup_delete_eq.
Qed.

(** [remove_timer] on a timer that [all_timers] holds without an entry in
    [running_timers] is undefined, in every such state. *)
Lemma remove_timer_without_entry t (s : QState W) i p d :
  list_find (fun x => rcl_ref x.2 = t) (all_timers s.1) = Some (i, (p, d)) ->
  list_find (fun x => x.2 = p) (running_timers s.1) = None ->
  Queue.remove_timer t s = Err InvalidErase.
Proof.
  intros Hall Hrun. unfold Queue.remove_timer. mprim. by rewrite Hall, Hrun.
Qed.

(** [remove_timer] on a timer the queue does not hold changes neither
    container. *)
Lemma remove_timer_unregistered t (s : QState W) :
  list_find (fun x => rcl_ref x.2 = t) (all_timers s.1) = None ->
  exists s', Queue.remove_timer t s = Ok (tt, s') /\ s'.1 = s.1 /\
             world s'.2 = world s.2.
Proof.
  intros Hall. unfold Queue.remove_timer. mprim. rewrite Hall.
  eexists. split; [reflexivity|]. by destruct s as [[] ?].
Qed.


End RemovalFacts.

(** ** The worker thread *)

Section WorkerFacts.
Context {W : Type} `{RclTimerApi W}.

Lemma timer_thread_nil fuel (s : QState W) st s' :
  Queue.timer_thread fuel [] s = Ok (st, s') ->
  (st = Queue.ThreadRunning /\ s' = s /\ running s.1 = true) \/
  (st = Queue.ThreadTerminated /\ running s.1 = false /\
   thread_terminated s'.1 = true /\ running s'.1 = false).
Proof.
  simpl. mprim. destruct (running s.1) eqn:Hr; intros [= <- <-]; simpl;
    [by left|right; by rewrite ?Hr].
Qed.

(** A worker that is still in its loop after the turns of [pre] goes on
    with the rest of the script from the state it has reached. *)
Lemma timer_thread_app fuel pre l (s s1 : QState W) :
  Queue.timer_thread fuel pre s = Ok (Queue.ThreadRunning, s1) ->
  Queue.timer_thread fuel (pre ++ l) s = Queue.timer_thread fuel l s1.
Proof.
  revert s. induction pre as [|e pre IH]; intros s Hpre.
  - apply timer_thread_nil in Hpre as [(_ & -> & _)|(? & _)]; done.
  - simpl in *. unfold bind at 1 in Hpre. unfold bind at 1.
    unfold Queue.get_queue, gets in *. simpl in *.
    destruct (running s.1); [|by mprim].
    destruct (Queue.env_ok e); [|by mprim].
    unfold bind at 1 in Hpre. unfold bind at 1.
    destruct (Queue.emit EvLock s) as [[[] sa]|]; [|done].
    unfold bind at 1 in Hpre. unfold bind at 1.
    destruct (Queue.call_ready_timer_callbacks fuel sa) as [[[] sb]|]; [|done].
    unfold bind at 1 in Hpre. unfold bind at 1. simpl in *.
    unfold bind at 1 in Hpre. unfold bind at 1.
    destruct (Queue.emit EvUnlock sb) as [[[] sc]|]; [|done].
    unfold bind at 1 in Hpre. unfold bind at 1.
    destruct (Queue.emit _ sc) as [[[] sd]|]; [|done].
    unfold bind at 1 in Hpre. unfold bind at 1.
    destruct (Queue.env_sleep_throws e); mprim; by apply IH.
Qed.

(** C8. The worker has come round its loop some number of times and is
    still running. In the next turn [rclcpp::ok()] holds, the drain pass
    comes back and [sleep_until] raises [std::runtime_error]. Then, whatever
    the script holds after that turn, the worker returns normally right
    there: no fault leaves the thread, [running] is false and
    [thread_terminated] is true; the containers are as the drain pass left
    them. *)
Theorem timer_thread_sleep_throws fuel pre e rest (s s1 s2 : QState W) :
  Queue.timer_thread fuel pre s = Ok (Queue.ThreadRunning, s1) ->
  Queue.env_ok e = true ->
  Queue.env_sleep_throws e = true ->
  (Queue.emit EvLock ;; Queue.call_ready_timer_callbacks fuel) s1 = Ok (tt, s2) ->
  exists s',
    Queue.timer_thread fuel (pre ++ e :: rest) s = Ok (Queue.ThreadTerminated, s') /\
    running s'.1 = false /\
    thread_terminated s'.1 = true /\
    all_timers s'.1 = all_timers s2.1 /\
    running_timers s'.1 = running_timers s2.1 /\
    world s'.2 = world s2.2 /\
    trace s'.2 = trace s2.2
                 ++ [EvUnlock; EvSleepUntil (Queue.get_next_timer_ready_time s2.1)].
Proof.
  intros Hpre Hok Hthrow Hdrain.
  rewrite (timer_thread_app _ _ _ _ _ Hpre).
  assert (running s1.1 = true) as Hrun.
  { clear -Hpre. revert s Hpre. induction pre as [|e' pre IH]; intros s Hpre.
    - apply timer_thread_nil in Hpre as [(_ & -> & ?)|(? & _)]; done.
    - simpl in Hpre. unfold bind at 1 in Hpre.
      unfold Queue.get_queue, gets in Hpre. simpl in Hpre.
      destruct (running s.1); [|by mprim].
      destruct (Queue.env_ok e'); [|by mprim].
      repeat (apply bind_Ok in Hpre as (? & ? & _ & Hpre)).
      by eapply IH. }
  apply bind_Ok in Hdrain as ([] & sa & Hlock & Hdrain).
  simpl. unfold bind at 1. unfold Queue.get_queue, gets. simpl.
  rewrite Hrun, Hok. unfold bind at 1. rewrite Hlock.
  unfold bind at 1. rewrite Hdrain. rewrite Hthrow.
  destruct rest; simpl; mprim; eexists; (split; [reflexivity|]); simpl;
    by rewrite <- ?app_assoc.
Qed.

End WorkerFacts.

Lemma timer_thread_sleep_throws_witness :
  exists s',
    Queue.timer_thread 3
      ([Queue.mkLoopEnv true false; Queue.mkLoopEnv true true;
        Queue.mkLoopEnv true false]) Sim.q1
    = Ok (Queue.ThreadTerminated, s') /\
    running s'.1 = false /\ thread_terminated s'.1 = true.
Proof.
  destruct (timer_thread_sleep_throws (W:=Sim.SimWorld) 3
              [Queue.mkLoopEnv true false] (Queue.mkLoopEnv true true)
              [Queue.mkLoopEnv true false]
              Sim.q1
              (Sim.state_after
                 (Queue.timer_thread 3 [Queue.mkLoopEnv true false] Sim.q1))
              (Sim.state_after
                 ((Queue.timer_thread 3 [Queue.mkLoopEnv true false] ;;
                   Queue.emit EvLock ;;
                   Queue.call_ready_timer_callbacks 3) Sim.q1)))
    as (s' & Hrun & Hr & Ht & _);
    [vm_compute; reflexivity|reflexivity|reflexivity|vm_compute; reflexivity|].
  exists s'. split; [exact Hrun|]. by split.
Defined.

(** ** Clock domains *)

Section Domains.
Context {W : Type} `{RclTimerApi W}.

(** A step that keeps the type and the clocks, adds no timer and runs no
    callback keeps the invariant. *)
Lemma domain_inv_step ty (s s' : QState W) :
  domain_inv ty s ->
  timer_type s'.1 = timer_type s.1 ->
  clock_kept (world s.2) (world s'.2) ->
  (forall x, x ∈ all_timers s'.1 -> x ∈ all_timers s.1) ->
  (forall e, e ∈ trace s'.2 -> e ∈ trace s.2 \/ is_callback e = false) ->
  domain_inv ty s'.
Proof.
  intros [Hty Hheld Hfired] Hty' Hclock Hsub Htr. split.
  - congruence.
  - intros p d Hin. apply Hclock. eauto.
  - intros q k p h cb Hin. apply Htr in Hin as [Hin|Hin]; [|done].
    destruct (Hfired _ _ _ _ _ Hin) as [-> Hc]. split; [done|]. by apply Hclock.
Qed.

Lemma clock_kept_refl w : clock_kept w w.
Proof. by intros h c. Qed.

Lemma clock_kept_trans w1 w2 w3 :
  clock_kept w1 w2 -> clock_kept w2 w3 -> clock_kept w1 w3.
Proof. intros H12 H23 h c Hc. by apply H23, H12. Qed.

Lemma elem_of_snoc_trace (e e' : Event) (tr : list Event) :
  e ∈ tr ++ [e'] -> is_callback e' = false -> e ∈ tr \/ is_callback e = false.
Proof.
  intros [Hin|Hin%list_elem_of_singleton]%elem_of_app Hcb; [by left|].
  right. by subst.
Qed.

(** Discharge the side conditions of [domain_inv_step] on an explicit
    state. *)
Ltac inv_step Hinv :=
  apply (domain_inv_step _ _ _ Hinv); simpl;
  [ done
  | first [ apply clock_kept_refl | done | eauto using clock_kept_trans ]
  | first [ done | intros x Hx; by eapply list_elem_of_delete_inv | eauto ]
  | intros e0 He0;
    first [ by left
          | by eapply elem_of_snoc_trace
          | repeat (apply elem_of_snoc_trace in He0 as [He0|He0];
                    [|by right|done]); by left ] ].

Context `{!ClockLaws}.

Lemma call_clock_kept h w r w' :
  rcl_timer_call h w = (r, w') -> clock_kept w w'.
Proof. intros Hc. pose proof (call_keeps_clock h w) as Hk. by rewrite Hc in Hk. Qed.

Lemma add_timer_to_running_map_inv ty p d (s s' : QState W) :
  Queue.add_timer_to_running_map p d s = Ok (tt, s') ->
  domain_inv ty s -> domain_inv ty s'.
Proof.
  unfold Queue.add_timer_to_running_map, Queue.forget_timer_data. mprim.
  intros Hrun Hinv.
  mcases; try (by destruct s as [? []]);
    match goal with Hc : rcl_timer_call _ _ = _ |- _ =>
      apply call_clock_kept in Hc | _ => idtac end;
    inv_step Hinv.
Qed.

Lemma add_timer_to_running_map_clock p d (s s' : QState W) :
  Queue.add_timer_to_running_map p d s = Ok (tt, s') ->
  clock_kept (world s.2) (world s'.2).
Proof.
  unfold Queue.add_timer_to_running_map, Queue.forget_timer_data. mprim.
  intros Hrun.
  mcases; try apply clock_kept_refl; by eapply call_clock_kept.
Qed.

Lemma clear_clock_kept h w : clock_kept w (rcl_clear_reset_counter h w).
Proof. apply clear_keeps_clock. Qed.

Lemma add_timer_clock_kept t cb (s s' : QState W) :
  Queue.add_timer t cb s = Ok (tt, s') ->
  clock_kept (world s.2) (world s'.2).
Proof.
  intros Hrun.
  apply add_timer_Ok in Hrun as (c & Hclock & [[Hne ->]|(-> & s1 & s2 & s3 & -> &
    Hreplay & Hmap & ->)]); [apply clock_kept_refl|].
  apply add_timer_to_running_map_clock in Hmap. simpl in *.
  eapply clock_kept_trans; [|exact Hmap].
  destruct Hreplay as [[_ ->]|(_ & sr & Hr & ->)]; [apply clock_kept_refl|].
  apply add_timer_to_running_map_clock in Hr. simpl in *.
  eapply clock_kept_trans; [exact Hr|apply clear_clock_kept].
Qed.

Lemma add_timer_inv ty t cb (s s' : QState W) :
  Queue.add_timer t cb s = Ok (tt, s') ->
  domain_inv ty s -> domain_inv ty s'.
Proof.
  intros Hrun Hinv. pose proof (add_timer_clock_kept _ _ _ _ Hrun) as Hkept.
  apply add_timer_Ok in Hrun as (c & Hclock & [[Hne ->]|(-> & s1 & s2 & s3 & -> &
    Hreplay & Hmap & ->)]); [done|].
  assert (domain_inv ty s2) as Hinv2.
  { destruct Hreplay as [[_ ->]|(_ & sr & Hr & ->)]; [inv_step Hinv|].
    eapply add_timer_to_running_map_inv in Hr;
      [|instantiate (1 := ty); inv_step Hinv].
    apply (domain_inv_step _ _ _ Hr); simpl;
      [done|apply clear_clock_kept|done|by left]. }
  eapply add_timer_to_running_map_inv in Hmap;
    [|instantiate (1 := ty); inv_step Hinv2].
  destruct Hmap as [Hty Hheld Hfired]. simpl in *.
  split; simpl.
  - done.
  - intros p d [Hin|[= -> ->]%list_elem_of_singleton]%elem_of_app; [eauto|].
    simpl. apply Hkept. rewrite Hclock. f_equal. apply Hinv.
  - intros q k p h cb' Hin. apply (Hfired q k p h cb').
    apply elem_of_app in Hin as [Hin|Hin]; [done|].
    repeat (apply elem_of_cons in Hin as [Hin|Hin]; [done|]).
    by apply elem_of_nil in Hin.
Qed.

Lemma remove_timer_inv ty t (s s' : QState W) :
  Queue.remove_timer t s = Ok (tt, s') ->
  domain_inv ty s -> domain_inv ty s'.
Proof.
  unfold Queue.remove_timer. mprim. intros Hrun Hinv.
  mcases; inv_step Hinv.
Qed.

Lemma deref_Ok p (s s' : QState W) d :
  Queue.deref p s = Ok (d, s') -> s' = s /\ (p, d) ∈ all_timers s.1.
Proof.
  unfold Queue.deref. mprim. intros Hrun.
  destruct (list_find _ _) as [[i [p' d']]|] eqn:Hfind; [|done].
  simplify_eq/=. split; [done|].
  apply list_find_Some in Hfind as (Hi & Hp & _). simpl in Hp. subst p'.
  by eapply list_elem_of_lookup_2.
Qed.

Lemma erase_begin_Ok (s s' : QState W) :
  Queue.erase_begin s = Ok (tt, s') ->
  s' = ({| timer_type := timer_type s.1; running := running s.1;
           thread_terminated := thread_terminated s.1;
           all_timers := all_timers s.1;
           running_timers := tail (running_timers s.1);
           heap_next := heap_next s.1 |},
        {| world := world s.2; on_reset := on_reset s.2;
           trace := trace s.2 ++ [EvWriteRunningTimers] |}).
Proof. mprim. by intros [= <-]. Qed.

Lemma timer_reset_lambda_inv ty p (s s' : QState W) :
  Queue.timer_reset_lambda p s = Ok (tt, s') ->
  domain_inv ty s -> domain_inv ty s'.
Proof.
  unfold Queue.timer_reset_lambda. intros Hrun Hinv.
  apply bind_Ok in Hrun as (d & s1 & [-> _]%deref_Ok & Hrun).
  by eapply add_timer_to_running_map_inv.
Qed.

Lemma readd_timer_to_running_map_inv ty e (s s' : QState W) :
  Queue.readd_timer_to_running_map e s = Ok (tt, s') ->
  domain_inv ty s -> domain_inv ty s'.
Proof.
  unfold Queue.readd_timer_to_running_map. intros Hrun Hinv.
  apply bind_Ok in Hrun as (d & s1 & [-> _]%deref_Ok & Hrun).
  unfold Queue.forget_timer_data in Hrun. mprim.
  mcases; try (by destruct s as [? []]); inv_step Hinv.
Qed.

Lemma drain_step_inv ty b (s s' : QState W) :
  Queue.drain_step s = Ok (b, s') ->
  domain_inv ty s -> domain_inv ty s'.
Proof.
  unfold Queue.drain_step. intros Hrun Hinv.
  apply bind_Ok in Hrun as (q & s0 & Hq & Hrun).
  unfold Queue.get_queue, gets in Hq. simplify_eq/=.
  destruct (running_timers s0.1) as [|[key p] rest] eqn:Hidx.
  { unfold ret in Hrun. by simplify_eq/=. }
  apply bind_Ok in Hrun as (d & s1 & [-> Hd]%deref_Ok & Hrun).
  apply bind_Ok in Hrun as (w & s1 & Hw & Hrun).
  unfold Queue.get_world, gets in Hw. simplify_eq/=.
  destruct (rcl_timer_get_time_until_next_call _ _) as [r until].
  destruct (decide (r = RCL_RET_TIMER_CANCELED)).
  { mprim. simplify_eq/=. inv_step Hinv. }
  destruct (decide (r = RCL_RET_OK)); [|done].
  destruct (until <=? 0); [|unfold ret in Hrun; by simplify_eq/=].
  destruct (rcl_timer_call _ _) as [r' w'] eqn:Hcall.
  apply call_clock_kept in Hcall.
  destruct (decide (r' = RCL_RET_TIMER_CANCELED)).
  { mprim. simplify_eq/=. inv_step Hinv. }
  do 3 (apply bind_Ok in Hrun as ([] & ? & Hstep & Hrun);
        unfold Queue.put_world, Queue.emit, modify in Hstep; simplify_eq/=).
  apply bind_Ok in Hrun as ([] & ? & ->%erase_begin_Ok & Hrun).
  apply bind_Ok in Hrun as ([] & s2 & Hreadd & Hrun).
  unfold ret in Hrun. simplify_eq/=.
  eapply readd_timer_to_running_map_inv; [exact Hreadd|].
  pose proof (invoke_keeps_clock (timer_ready_callback d) w') as Hinvoke.
  destruct Hinv as [Hty Hheld Hfired]. split; simpl.
  - done.
  - intros p' d' Hin. by apply Hinvoke, Hcall, Hheld with p'.
  - intros q' k' p' h' cb' [Hin|Hin%list_elem_of_singleton]%elem_of_app;
      [|done].
    apply elem_of_app in Hin as [Hin|Hin%list_elem_of_singleton].
    + destruct (Hfired _ _ _ _ _ Hin) as [-> Hc].
      split; [done|]. by apply Hinvoke, Hcall.
    + simplify_eq/=. split; [done|]. by eapply Hinvoke, Hcall, Hheld.
Qed.

Lemma call_ready_timer_callbacks_inv ty fuel (s s' : QState W) :
  Queue.call_ready_timer_callbacks fuel s = Ok (tt, s') ->
  domain_inv ty s -> domain_inv ty s'.
Proof.
  revert s. induction fuel as [|fuel IH]; intros s Hrun Hinv; [done|].
  simpl in Hrun. apply bind_Ok in Hrun as (b & s1 & Hstep & Hrun).
  apply drain_step_inv with (ty := ty) in Hstep; [|done].
  destruct b; [by eapply IH|]. unfold ret in Hrun. by simplify_eq/=.
Qed.

Lemma timer_thread_inv ty fuel script st (s s' : QState W) :
  Queue.timer_thread fuel script s = Ok (st, s') ->
  domain_inv ty s -> domain_inv ty s'.
Proof.
  revert s. induction script as [|e script IH]; intros s Hrun Hinv.
  - simpl in Hrun. mprim. mcases; inv_step Hinv.
  - simpl in Hrun. apply bind_Ok in Hrun as (q & s0 & Hq & Hrun).
    unfold Queue.get_queue, gets in Hq. simplify_eq/=.
    destruct (running s0.1); [|mprim; simplify_eq/=; inv_step Hinv].
    destruct (Queue.env_ok e); [|mprim; simplify_eq/=; inv_step Hinv].
    apply bind_Ok in Hrun as ([] & s1 & Hlock & Hrun).
    apply bind_Ok in Hrun as ([] & s2 & Hdrain & Hrun).
    apply call_ready_timer_callbacks_inv with (ty := ty) in Hdrain.
    2:{ mprim. simplify_eq/=. inv_step Hinv. }
    apply bind_Ok in Hrun as (q' & s3 & Hq' & Hrun).
    unfold Queue.get_queue, gets in Hq'. simplify_eq/=.
    apply bind_Ok in Hrun as ([] & s4 & Hunlock & Hrun).
    apply bind_Ok in Hrun as ([] & s5 & Hsleep & Hrun).
    apply bind_Ok in Hrun as ([] & s6 & Hcatch & Hrun).
    eapply IH; [exact Hrun|].
    destruct (Queue.env_sleep_throws e); mprim; simplify_eq/=; inv_step Hdrain.
Qed.

Lemma stop_wait_inv ty sched (s s' : QState W) :
  Queue.stop_wait sched s = Ok (tt, s') ->
  domain_inv ty s -> domain_inv ty s'.
Proof.
  revert s. induction sched as [|b sched IH]; intros s Hrun Hinv.
  - simpl in Hrun. mprim. by mcases.
  - simpl in Hrun. apply bind_Ok in Hrun as (q & s0 & Hq & Hrun).
    unfold Queue.get_queue, gets in Hq. simplify_eq/=.
    destruct (thread_terminated s0.1); [unfold ret in Hrun; by simplify_eq/=|].
    apply bind_Ok in Hrun as ([] & s1 & Hnote & Hrun).
    apply bind_Ok in Hrun as ([] & s2 & Hworker & Hrun).
    eapply IH; [exact Hrun|].
    destruct b.
    + apply bind_Ok in Hworker as (st & s3 & Hthread & Hret).
      unfold ret in Hret. simplify_eq/=.
      eapply (timer_thread_inv ty 0 [] st); [exact Hthread|].
      mprim. simplify_eq/=. inv_step Hinv.
    + mprim. simplify_eq/=. inv_step Hinv.
Qed.

Lemma run_call_inv ty c (s s' : QState W) :
  call_allowed c s ->
  run_call c s = Ok (tt, s') ->
  domain_inv ty s -> domain_inv ty s'.
Proof.
  destruct c; simpl; intros Hallowed Hrun Hinv.
  - by eapply add_timer_inv.
  - by eapply remove_timer_inv.
  - by eapply timer_reset_lambda_inv.
  - by eapply call_ready_timer_callbacks_inv.
  - apply bind_Ok in Hrun as (st & s1 & Hthread & Hret).
    unfold ret in Hret. simplify_eq/=. by eapply timer_thread_inv.
  - unfold Queue.stop in Hrun.
    apply bind_Ok in Hrun as ([] & s1 & Hset & Hrun).
    eapply stop_wait_inv; [exact Hrun|].
    mprim. simplify_eq/=. inv_step Hinv.
  - mprim. simplify_eq/=. inv_step Hinv.
Qed.

Lemma reachable_domain_inv ty (s : QState W) :
  reachable ty s -> domain_inv ty s.
Proof.
  induction 1 as [w|s c s' _ IH Hallowed Hrun].
  - split; simpl; [done| |]; intros *; by rewrite elem_of_nil.
  - by eapply run_call_inv.
Qed.

(** C4. A queue leaves a timer of another clock alone: [add_timer] returns
    with the whole state as it was, so neither container changes and no
    on-reset callback is set. And in every state a queue of type [ty] can
    reach, each ready-callback it has run belongs to a timer whose clock is
    [ty]: no queue ever runs the ready-callback of a timer of another
    clock. *)
Theorem foreign_timer_never_served ty (s : QState W) :
  reachable ty s ->
  (forall t cb c,
     rcl_timer_clock (world s.2) t = Some c -> c <> ty ->
     Queue.add_timer t cb s = Ok (tt, s)) /\
  (forall q k p h cb,
     EvCallback q k p h cb ∈ trace s.2 ->
     q = ty /\ rcl_timer_clock (world s.2) h = Some ty).
Proof.
  intros Hreach. apply reachable_domain_inv in Hreach as [Hty _ Hfired].
  split; [|exact Hfired].
  intros t cb c Hclock Hne. unfold Queue.add_timer. mprim.
  rewrite Hclock. rewrite decide_True by congruence. done.
Qed.

End Domains.

(** *** The simulation keeps the clocks *)

Lemma sim_call_timers h w h' :
  Sim.sim_clock <$> Sim.sim_timers (Sim.sim_call h w).2 !! h'
  = Sim.sim_clock <$> Sim.sim_timers w !! h'.
Proof.
  unfold Sim.sim_call.
  destruct (Sim.sim_timers w !! h) as [t|] eqn:Ht; [|done].
  destruct (Sim.sim_canceled t); [done|]. simpl.
  destruct (decide (h = h')) as [<-|Hne].
  - rewrite list_lookup_insert_eq by (by eapply lookup_lt_Some).
    by rewrite Ht.
  - by rewrite list_lookup_insert_ne.
Qed.

#[global] Instance sim_clock_laws : ClockLaws (W := Sim.SimWorld).
Proof.
  split.
  - intros h w h' c. simpl. by rewrite sim_call_timers.
  - intros cb w h' c. done.
  - intros h w h' c. simpl.
    destruct (decide (h = h')) as [<-|Hne].
    + rewrite list_lookup_alter_eq. by destruct (Sim.sim_timers w !! h).
    + by rewrite list_lookup_alter_ne.
Qed.

Lemma q1_drained_reachable : reachable RCL_STEADY_TIME q1_drained.
Proof.
  apply reach_call with
    (s := Sim.state_after (Queue.outside (Sim.sim_tick 120) Sim.q1))
    (c := CallDrain 3); [|done|vm_compute; reflexivity].
  apply reach_call with (s := Sim.q1) (c := CallOutside (Sim.sim_tick 120));
    [|by intros h c|vm_compute; reflexivity].
  apply reach_call with (s := Sim.q0) (c := CallAddTimer 0%nat 7%nat);
    [|done|vm_compute; reflexivity].
  apply reach_new.
Qed.

Lemma foreign_timer_never_served_witness :
  EvCallback RCL_STEADY_TIME 110 0%nat 0%nat 7%nat ∈ trace q1_drained.2 /\
  Queue.add_timer 2%nat 9%nat q1_drained = Ok (tt, q1_drained) /\
  (forall q k p h cb,
     EvCallback q k p h cb ∈ trace q1_drained.2 ->
     q = RCL_STEADY_TIME /\
     rcl_timer_clock (world q1_drained.2) h = Some RCL_STEADY_TIME).
Proof.
  destruct (foreign_timer_never_served RCL_STEADY_TIME q1_drained
              q1_drained_reachable) as [Hadd Hfired].
  split; [|split].
  - apply (bool_decide_unpack _). vm_compute. reflexivity.
  - apply (Hadd 2%nat 9%nat RCL_ROS_TIME); [reflexivity|discriminate].
  - exact Hfired.
Defined.

(** ** TimerManager: the broadcast *)

Section ManagerFacts.
Context {W : Type} `{RclTimerApi W}.

(** What one [add_timer] call does, by the clock of the timer: nothing at
    all on a queue of another type; on the matching queue one on-reset
    callback is set, which may file the timer at once if resets were
    counted; the timer enters [all_timers] under the lock and the worker is
    notified. *)
Lemma add_timer_cases t cb c (s s' : QState W) :
  rcl_timer_clock (world s.2) t = Some c ->
  Queue.add_timer t cb s = Ok (tt, s') ->
  (c <> timer_type s.1 /\ s' = s) \/
  (c = timer_type s.1 /\
   timer_type s'.1 = timer_type s.1 /\
   on_reset s'.2 !! t
     = Some {| hook_queue := timer_type s.1; hook_data := heap_next s.1 |} /\
   (heap_next s.1, mkTimerData t cb) ∈ all_timers s'.1 /\
   exists replay mid,
     trace s'.2 = trace s.2
       ++ [EvSetOnReset t {| hook_queue := timer_type s.1;
                             hook_data := heap_next s.1 |}]
       ++ replay ++ [EvLock]
       ++ mid ++ [EvWriteAllTimers; EvUnlock; EvNotifyAll] /\
     (replay = [] \/ replay = [EvWriteAllTimers]
      \/ replay = [EvWriteRunningTimers]) /\
     (rcl_reset_counter (world s.2) t = 0%nat -> replay = []) /\
     (mid = [] \/ mid = [EvWriteAllTimers] \/ mid = [EvWriteRunningTimers])).
Proof.
  intros Hclock Hrun.
  apply add_timer_Ok in Hrun as (c' & Hclock' & Hcase).
  assert (c' = c) as -> by congruence.
  destruct Hcase as [[Hne ->]|(-> & s1 & s2 & s3 & -> & Hreplay & Hmap & ->)];
    [by left|].
  right. split; [done|].
  pose proof (add_timer_to_running_map_frame _ _ _ _ Hmap) as [Hty _ _ _ Hhook].
  apply add_timer_to_running_map_trace in Hmap as (mid & Hmid & Hmidcase).
  simpl in *.
  assert (timer_type s2.1 = timer_type s.1 /\
          on_reset s2.2
          = <[t := {| hook_queue := timer_type s.1; hook_data := heap_next s.1 |}]>
              (on_reset s.2) /\
          exists replay,
            trace s2.2
            = (trace s.2 ++ [EvSetOnReset t {| hook_queue := timer_type s.1;
                                               hook_data := heap_next s.1 |}])
              ++ replay /\
            (replay = [] \/ replay = [EvWriteAllTimers]
             \/ replay = [EvWriteRunningTimers]) /\
            (rcl_reset_counter (world s.2) t = 0%nat -> replay = []))
    as (Hty2 & Hhook2 & replay & Hrep & Hrepcase & Hzero).
  { destruct Hreplay as [[Hz ->]|(Hnz & sr & Hr & ->)].
    - simpl. do 2 (split; [done|]). exists []. rewrite app_nil_r. auto.
    - pose proof (add_timer_to_running_map_frame _ _ _ _ Hr) as [Htyr _ _ _ Hhookr].
      apply add_timer_to_running_map_trace in Hr as (replay & Hrep & Hrepcase).
      simpl in *. do 2 (split; [done|]). exists replay.
      split; [done|]. split; [done|]. intros Hz. by rewrite Hz in Hnz. }
  split; [congruence|].
  split; [rewrite Hhook, Hhook2; apply lookup_insert_eq|].
  split; [apply elem_of_app; right; by left|].
  exists replay, mid. rewrite Hmid, Hrep.
  split; [by rewrite <- !app_assoc|]. done.
Qed.

Lemma for_each_from_broadcast body i qs (s : Sys W) qs' s' :
  Manager.for_each_from i body qs s = Ok (qs', s') <->
  broadcast body i qs s qs' s'.
Proof.
  split.
  - revert i s qs' s'. induction qs as [|q qs IH]; intros i s qs' s' Hrun.
    + unfold Manager.for_each_from, ret in Hrun. simplify_eq/=. constructor.
    + simpl in Hrun.
      destruct (body i (q, s)) as [[[] [q1 s1]]|] eqn:Hbody; [|done].
      destruct (Manager.for_each_from (S i) body qs s1) as [[qs1 s2]|] eqn:Hrest;
        [|done].
      simplify_eq/=. econstructor; eauto.
  - induction 1 as [|i q qs s q' s1 qs' s2 Hbody _ IH]; [done|].
    simpl. by rewrite Hbody, IH.
Qed.

Lemma for_each_queue_broadcast body (m m' : Manager.TimerManager) (s : Sys W) s' :
  Manager.for_each_queue body (m, s) = Ok (tt, (m', s')) <->
  broadcast body 0 (Manager.timer_queues m) s (Manager.timer_queues m') s'.
Proof.
  unfold Manager.for_each_queue. simpl. rewrite <- for_each_from_broadcast.
  destruct (Manager.for_each_from _ _ _ _) as [[qs1 s1]|]; [|done].
  destruct m' as [qs']. simpl. split; intros; by simplify_eq/=.
Qed.

(** *** Stopping one queue *)









End ManagerFacts.

(** ** TimerManager: one queue per timer *)

Section OneQueue.
Context {W : Type} `{RclTimerApi W} `{!ClockLaws}.

Lemma broadcast_add_timer t cb c i qs (s : Sys W) qs' s' :
  broadcast (fun _ => Queue.add_timer t cb) i qs s qs' s' ->
  rcl_timer_clock (world s) t = Some c ->
  timer_type <$> qs' = timer_type <$> qs /\
  rcl_timer_clock (world s') t = Some c /\
  Forall2 (fun q q' => timer_type q <> c -> q' = q) qs qs' /\
  exists tr, trace s' = trace s ++ tr /\
             (length (filter (fun e => is_set_on_reset e = true) tr)
              <= length (serving c qs))%nat.
Proof.
  induction 1 as [|i q qs s q' s1 qs' s2 Hbody _ IH]; intros Hclock.
  - split; [done|]. split; [done|]. split; [constructor|].
    exists []. by rewrite app_nil_r.
  - pose proof (add_timer_clock_kept t cb (q, s) (q', s1) Hbody _ _ Hclock)
      as Hclock1.
    destruct (add_timer_cases t cb c (q, s) (q', s1) Hclock Hbody)
      as [[Hne [= -> ->]]|(-> & Hty & _ & _ & replay & mid & Htr & Hreplay & _
                           & Hmid)];
      simpl in *.
    + destruct (IH Hclock) as (Htys & Hclock' & Hall & tr & Htr & Hcount).
      split; [by f_equal|]. split; [done|].
      split; [by constructor|].
      exists tr. split; [done|].
      unfold serving. rewrite filter_cons_False by done. done.
    + destruct (IH Hclock1) as (Htys & Hclock' & Hall & tr & Htr' & Hcount).
      split; [by f_equal|]. split; [done|].
      split; [by constructor|].
      eexists. split; [by rewrite Htr', Htr, <- !app_assoc|].
      unfold serving in *. rewrite filter_cons_True by done. simpl.
      destruct Hreplay as [->|[->| ->]]; destruct Hmid as [->|[->| ->]]; simpl;
        repeat (rewrite filter_cons_False by done); lia.
Qed.

Lemma add_timer_reads_clock t cb (s s' : QState W) :
  Queue.add_timer t cb s = Ok (tt, s') ->
  exists c, rcl_timer_clock (world s.2) t = Some c.
Proof.
  unfold Queue.add_timer. mprim.
  destruct (rcl_timer_clock _ _); [eauto|done].
Qed.

(** C10. The three tags of the manager's queues are pairwise distinct.
    Hence one [TimerManager::add_timer] changes at most one of the queues
    and sets the timer's on-reset callback at most once. *)
Theorem add_timer_reaches_one_queue t cb m (s : Sys W) m' s' :
  timer_type <$> Manager.timer_queues m
    = [RCL_ROS_TIME; RCL_SYSTEM_TIME; RCL_STEADY_TIME] ->
  Manager.add_timer t cb (m, s) = Ok (tt, (m', s')) ->
  NoDup (timer_type <$> Manager.timer_queues m) /\
  timer_type <$> Manager.timer_queues m' = timer_type <$> Manager.timer_queues m /\
  (forall i j qi qj qi' qj',
     i <> j ->
     Manager.timer_queues m !! i = Some qi ->
     Manager.timer_queues m' !! i = Some qi' ->
     Manager.timer_queues m !! j = Some qj ->
     Manager.timer_queues m' !! j = Some qj' ->
     qi' = qi \/ qj' = qj) /\
  exists tr, trace s' = trace s ++ tr /\
             (length (filter (fun e => is_set_on_reset e = true) tr) <= 1)%nat.
Proof.
  intros Htags Hrun.
  assert (NoDup (timer_type <$> Manager.timer_queues m)) as Hnodup.
  { rewrite Htags. apply (bool_decide_unpack _). reflexivity. }
  split; [done|].
  apply for_each_queue_broadcast in Hrun.
  destruct m as [qs], m' as [qs']. simpl in *.
  assert (exists c, rcl_timer_clock (world s) t = Some c) as [c Hclock].
  { destruct qs as [|q1 qs]; [done|].
    inversion Hrun as [|? ? ? ? q1' s1 ? ? Hbody _]; subst.
    by destruct (add_timer_reads_clock _ _ _ _ Hbody) as [c Hclock]; exists c. }
  destruct (broadcast_add_timer _ _ c _ _ _ _ _ Hrun Hclock)
    as (Htys & _ & Hall & tr & Htr & Hcount).
  split; [done|]. split.
  - intros i j qi qj qi' qj' Hij Hi Hi' Hj Hj'.
    destruct (decide (timer_type qi = c)) as [Hic|Hic].
    2:{ left. by eapply (Forall2_lookup_lr _ _ _ i qi qi' Hall). }
    destruct (decide (timer_type qj = c)) as [Hjc|Hjc].
    2:{ right. by eapply (Forall2_lookup_lr _ _ _ j qj qj' Hall). }
    exfalso. apply Hij.
    eapply (NoDup_lookup _ i j c Hnodup);
      rewrite list_lookup_fmap; [rewrite Hi|rewrite Hj]; simpl; congruence.
  - exists tr. split; [done|].
    etrans; [exact Hcount|].
    destruct qs as [|q1 [|q2 [|q3 [|]]]]; simplify_eq/=.
    unfold serving.
    repeat (rewrite filter_cons; case_decide); simpl; try lia; congruence.
Qed.

End OneQueue.

Lemma add_timer_reaches_one_queue_witness :
  exists m' s',
    Manager.add_timer 0%nat 7%nat (Manager.new_TimerManager, new_Sys Sim.w0)
      = Ok (tt, (m', s')) /\
    (length <$> (all_timers <$> Manager.timer_queues m')) = [0; 0; 1]%nat /\
    (forall i j qi qj qi' qj',
       i <> j ->
       Manager.timer_queues Manager.new_TimerManager !! i = Some qi ->
       Manager.timer_queues m' !! i = Some qi' ->
       Manager.timer_queues Manager.new_TimerManager !! j = Some qj ->
       Manager.timer_queues m' !! j = Some qj' ->
       qi' = qi \/ qj' = qj).
Proof.
  destruct (Manager.add_timer 0%nat 7%nat
              (Manager.new_TimerManager, new_Sys Sim.w0))
    as [[[] [m' s']]|] eqn:Hrun; [|vm_compute in Hrun; discriminate].
  exists m', s'. split; [reflexivity|]. split.
  - vm_compute in Hrun. by simplify_eq.
  - by destruct (add_timer_reaches_one_queue (W := Sim.SimWorld) 0%nat 7%nat
                  Manager.new_TimerManager (new_Sys Sim.w0) m' s'
                  eq_refl Hrun) as (_ & _ & Hone & _).
Defined.

(** ** The drain pass *)

(** Distinct addresses hold one object each. *)
Lemma NoDup_fst_functional {A B} (l : list (A * B)) x y1 y2 :
  NoDup l.*1 -> (x, y1) ∈ l -> (x, y2) ∈ l -> y1 = y2.
Proof.
  induction l as [|[x' y'] l IH]; simpl; intros Hnd H1 H2.
  - by apply elem_of_nil in H1.
  - apply NoDup_cons in Hnd as [Hnotin Hnd].
    apply elem_of_cons in H1 as [H1|H1], H2 as [H2|H2]; simplify_eq.
    + done.
    + destruct Hnotin. apply list_elem_of_fmap. by exists (x', y2).
    + destruct Hnotin. apply list_elem_of_fmap. by exists (x', y1).
    + by apply IH.
Qed.

Lemma fired_app tr1 tr2 : fired (tr1 ++ tr2) = fired tr1 ++ fired tr2.
Proof. apply omap_app. Qed.

Section Drain.
Context {W : Type} `{RclTimerApi W}.

(** One turn of the loop, by cases. *)
Lemma deref_same_all p (s s2 : QState W) d s' :
  all_timers s2.1 = all_timers s.1 ->
  Queue.deref p s = Ok (d, s') -> Queue.deref p s2 = Ok (d, s2).
Proof.
  unfold Queue.deref. mprim. intros ->.
  destruct (list_find _ _) as [[i [p' d']]|]; [|done]. by intros [= -> _].
Qed.

Lemma deref_find p (s s' : QState W) d :
  Queue.deref p s = Ok (d, s') ->
  exists i, list_find (fun e => e.1 = p) (all_timers s.1) = Some (i, (p, d)).
Proof.
  unfold Queue.deref. mprim. intros Hrun.
  destruct (list_find _ _) as [[i [p' d']]|] eqn:Hfind; [|done].
  simplify_eq/=. exists i.
  apply list_find_Some in Hfind as (_ & Hp & _). simpl in Hp. by subst p'.
Qed.

Lemma drain_step_cases_unique (s s' : QState W) b :
  Queue.drain_step s = Ok (b, s') ->
  (b = false /\ s' = s /\
   (running_timers s.1 = [] \/
    exists k p rest d t,
      running_timers s.1 = (k, p) :: rest /\ (p, d) ∈ all_timers s.1 /\
      rcl_timer_get_time_until_next_call (world s.2) (rcl_ref d)
        = (RCL_RET_OK, t) /\ 0 < t)) \/
  (b = true /\
   exists k p rest d i,
     running_timers s.1 = (k, p) :: rest /\
     list_find (fun e => e.1 = p) (all_timers s.1) = Some (i, (p, d)) /\
     ((exists z,
         rcl_timer_get_time_until_next_call (world s.2) (rcl_ref d)
           = (RCL_RET_TIMER_CANCELED, z) /\
         view s' = mkView (all_timers s.1) rest (world s.2) (fired (trace s.2))) \/
      (exists t r w',
         rcl_timer_get_time_until_next_call (world s.2) (rcl_ref d)
           = (RCL_RET_OK, t) /\ t <= 0 /\
         rcl_timer_call (rcl_ref d) (world s.2) = (r, w') /\
         ((r = RCL_RET_TIMER_CANCELED /\
           view s' = mkView (all_timers s.1) rest w' (fired (trace s.2))) \/
          (r <> RCL_RET_TIMER_CANCELED /\
           exists all' index',
             view s' = mkView all' index'
                         (invoke (timer_ready_callback d) w')
                         (fired (trace s.2)
                          ++ [(k, rcl_ref d, timer_ready_callback d)]) /\
             ((unique_in (invoke (timer_ready_callback d) w')
                         (all_timers s.1) p d = false /\
               exists n,
                 rcl_timer_get_next_call_time
                   (invoke (timer_ready_callback d) w') (rcl_ref d)
                   = (RCL_RET_OK, n) /\
                 index' = multimap_insert n p rest /\
                 all' = all_timers s.1) \/
              (unique_in (invoke (timer_ready_callback d) w')
                         (all_timers s.1) p d = false /\
               (exists r2 z,
                  rcl_timer_get_next_call_time
                    (invoke (timer_ready_callback d) w') (rcl_ref d)
                    = (r2, z) /\ r2 <> RCL_RET_OK) /\
               index' = rest /\ all' = all_timers s.1) \/
              (unique_in (invoke (timer_ready_callback d) w')
                         (all_timers s.1) p d = true /\
               index' = rest /\
               all' = delete i (all_timers s.1)))))))).
Proof.
  unfold Queue.drain_step. intros Hrun.
  apply bind_Ok in Hrun as (q & s0 & Hq & Hrun).
  unfold Queue.get_queue, gets in Hq. simplify_eq/=.
  destruct (running_timers s0.1) as [|[key p] rest] eqn:Hidx.
  { unfold ret in Hrun. simplify_eq/=. left. auto. }
  apply bind_Ok in Hrun as (d & s1 & Hderef & Hrun).
  destruct (deref_Ok _ _ _ _ Hderef) as [-> Hd].
  destruct (deref_find _ _ _ _ Hderef) as [i Hfind].
  apply bind_Ok in Hrun as (w & s1 & Hw & Hrun).
  unfold Queue.get_world, gets in Hw. simplify_eq/=.
  destruct (rcl_timer_get_time_until_next_call _ _) as [r until] eqn:Huntil.
  destruct (decide (r = RCL_RET_TIMER_CANCELED)) as [->|Hr].
  { mprim. simplify_eq/=. right. split; [done|].
    exists key, p, rest, d, i. do 2 (split; [done|]). left.
    exists until. split; [done|]. unfold view. simpl.
    by rewrite ?Hidx, fired_app, app_nil_r. }
  destruct (decide (r = RCL_RET_OK)) as [->|]; [|done].
  destruct (Z.leb_spec until 0) as [Hdue|Hnot].
  2:{ unfold ret in Hrun. simplify_eq/=. left. do 2 (split; [done|]). right.
      by exists key, p, rest, d, until. }
  right.
  destruct (rcl_timer_call _ _) as [r' w'] eqn:Hcall.
  destruct (decide (r' = RCL_RET_TIMER_CANCELED)) as [->|Hr'].
  { mprim. simplify_eq/=. split; [done|].
    exists key, p, rest, d, i. do 2 (split; [done|]). right.
    exists until, RCL_RET_TIMER_CANCELED, w'. do 3 (split; [done|]). left.
    split; [done|]. unfold view. simpl.
    by rewrite ?Hidx, fired_app, app_nil_r. }
  do 3 (apply bind_Ok in Hrun as ([] & ? & Hstep & Hrun);
        unfold Queue.put_world, Queue.emit, modify in Hstep; simplify_eq/=).
  apply bind_Ok in Hrun as ([] & ? & ->%erase_begin_Ok & Hrun).
  apply bind_Ok in Hrun as ([] & s2 & Hreadd & Hrun).
  unfold ret in Hrun. simplify_eq/=. split; [done|].
  exists key, p, rest, d, i. do 2 (split; [done|]). right.
  exists until, r', w'. do 3 (split; [done|]). right. split; [done|].
  unfold Queue.readd_timer_to_running_map in Hreadd.
  apply bind_Ok in Hreadd as (d' & s3 & Hderef' & Hreadd).
  destruct (deref_Ok _ _ _ _ Hderef') as [-> _].
  simpl in Hderef'.
  match type of Hderef' with
  | Queue.deref _ ?s3 = _ =>
      rewrite (deref_same_all p s1 s3 d s1 eq_refl Hderef) in Hderef'
  end.
  simplify_eq/=.
  unfold Queue.forget_timer_data in Hreadd. mprim. rewrite Hidx in *.
  destruct (unique_in _ _ _ _) eqn:Huniq.
  - simpl in Hreadd. rewrite Hfind in Hreadd. simplify_eq/=.
    do 2 eexists. (split; [unfold view; simpl;
                           by rewrite ?Hidx, !fired_app, ?app_nil_r|]).
    right. right. done.
  - destruct (rcl_timer_get_next_call_time _ _) as [r2 n] eqn:Hnext.
    destruct (decide (r2 = RCL_RET_OK)) as [->|]; simplify_eq/=;
      do 2 eexists; (split; [unfold view; simpl;
                             by rewrite ?Hidx, !fired_app, ?app_nil_r|]).
    + left. split; [done|]. by exists n.
    + right. left. split; [done|]. split; [by exists r2, n|done].
Qed.

Lemma drain_step_cases (s s' : QState W) b :
  Queue.drain_step s = Ok (b, s') ->
  (b = false /\ s' = s /\
   (running_timers s.1 = [] \/
    exists k p rest d t,
      running_timers s.1 = (k, p) :: rest /\ (p, d) ∈ all_timers s.1 /\
      rcl_timer_get_time_until_next_call (world s.2) (rcl_ref d)
        = (RCL_RET_OK, t) /\ 0 < t)) \/
  (b = true /\
   exists k p rest d,
     running_timers s.1 = (k, p) :: rest /\ (p, d) ∈ all_timers s.1 /\
     ((exists z,
         rcl_timer_get_time_until_next_call (world s.2) (rcl_ref d)
           = (RCL_RET_TIMER_CANCELED, z) /\
         view s' = mkView (all_timers s.1) rest (world s.2) (fired (trace s.2))) \/
      (exists t r w',
         rcl_timer_get_time_until_next_call (world s.2) (rcl_ref d)
           = (RCL_RET_OK, t) /\ t <= 0 /\
         rcl_timer_call (rcl_ref d) (world s.2) = (r, w') /\
         ((r = RCL_RET_TIMER_CANCELED /\
           view s' = mkView (all_timers s.1) rest w' (fired (trace s.2))) \/
          (r <> RCL_RET_TIMER_CANCELED /\
           exists all' index',
             view s' = mkView all' index'
                         (invoke (timer_ready_callback d) w')
                         (fired (trace s.2)
                          ++ [(k, rcl_ref d, timer_ready_callback d)]) /\
             ((exists n,
                 rcl_timer_get_next_call_time
                   (invoke (timer_ready_callback d) w') (rcl_ref d)
                   = (RCL_RET_OK, n) /\
                 index' = multimap_insert n p rest /\
                 all' = all_timers s.1) \/
              (index' = rest /\
               (all' = all_timers s.1 \/
                exists i x,
                  list_find (fun e => e.1 = p) (all_timers s.1) = Some (i, x) /\
                  all' = delete i (all_timers s.1))))))))).
Proof.
  intros Hstep.
  apply drain_step_cases_unique in Hstep
    as [?|(-> & k & p & rest & d & i & Hidx & Hfind & Hcase)]; [by left|].
  right. split; [done|]. exists k, p, rest, d. split; [done|].
  split.
  { apply list_find_Some in Hfind as (Hi & _). by eapply list_elem_of_lookup_2. }
  destruct Hcase as [?|(t & r & w' & Huntil & Ht & Hcall & Hcase)]; [by left|].
  right. exists t, r, w'. do 3 (split; [done|]).
  destruct Hcase as [?|(Hr & all' & index' & Hview & Hcase)]; [by left|].
  right. split; [done|]. exists all', index'. split; [done|].
  destruct Hcase as [(_ & n & ? & ? & ?)|[(_ & _ & ? & ?)|(_ & ? & ?)]].
  - left. by exists n.
  - right. split; [done|by left].
  - right. split; [done|]. right. by exists i, (p, d).
Qed.


(** *** The description leaves nothing open *)



(** *** The order of the callbacks *)




End Drain.

(** *** The pass comes to an end *)

Lemma sum_list_with_le {A} (f g : A -> nat) (l : list A) :
  (forall x, x ∈ l -> (f x <= g x)%nat) ->
  (sum_list_with f l <= sum_list_with g l)%nat.
Proof.
  induction l as [|a l IH]; simpl; intros Hle; [done|].
  pose proof (Hle a (list_elem_of_here _ _)).
  assert (sum_list_with f l <= sum_list_with g l)%nat; [|lia].
  apply IH. intros x Hx. apply Hle. by right.
Qed.

Lemma sum_list_with_lt {A} (f g : A -> nat) (l : list A) x0 :
  (forall x, x ∈ l -> (f x <= g x)%nat) ->
  x0 ∈ l -> (f x0 < g x0)%nat ->
  (sum_list_with f l < sum_list_with g l)%nat.
Proof.
  induction l as [|a l IH]; simpl; intros Hle Hin Hlt.
  - by apply elem_of_nil in Hin.
  - pose proof (Hle a (list_elem_of_here _ _)).
    assert (forall x, x ∈ l -> (f x <= g x)%nat) as Hle'
      by (intros x Hx; apply Hle; by right).
    apply elem_of_cons in Hin as [->|Hin].
    + pose proof (sum_list_with_le f g l Hle'). lia.
    + pose proof (IH Hle' Hin Hlt). lia.
Qed.

Lemma sum_list_with_sublist {A} (f : A -> nat) (l' l : list A) :
  l' `sublist_of` l -> (sum_list_with f l' <= sum_list_with f l)%nat.
Proof. induction 1; simpl; lia. Qed.

Lemma filter_sublist_mono {A} (P : A -> Prop) `{forall x, Decision (P x)}
      (l' l : list A) :
  l' `sublist_of` l -> filter P l' `sublist_of` filter P l.
Proof.
  induction 1 as [|x l1 l2 _ IH|x l1 l2 _ IH]; [constructor| |].
  - rewrite !filter_cons. destruct (decide (P x)); [by constructor|done].
  - rewrite filter_cons. destruct (decide (P x)); [by constructor|done].
Qed.

Lemma multimap_insert_Permutation k v m : multimap_insert k v m ≡ₚ (k, v) :: m.
Proof.
  induction m as [|[k' v'] m IH]; simpl; [done|].
  destruct (k <? k'); [done|]. rewrite IH. apply Permutation_swap.
Qed.

Lemma sum_list_with_multimap_insert (f : Z * nat -> nat) k v m :
  sum_list_with f (multimap_insert k v m) = (f (k, v) + sum_list_with f m)%nat.
Proof.
  induction m as [|[k' v'] m IH]; simpl; [done|].
  destruct (k <? k'); simpl; [done|]. rewrite IH. lia.
Qed.

Lemma length_multimap_insert k v m :
  length (multimap_insert k v m) = S (length m).
Proof. by rewrite multimap_insert_Permutation. Qed.

Lemma bind_Err {S A B} (m : M S A) (k : A -> M S B) s f :
  bind m k s = Err f <->
  m s = Err f \/ exists a s', m s = Ok (a, s') /\ k a s' = Err f.
Proof.
  unfold bind. destruct (m s) as [[a s']|f']; split.
  - right. eauto.
  - intros [?|(? & ? & [= <- <-] & ?)]; done.
  - intros [= <-]. by left.
  - intros [[= <-]|(? & ? & [=] & _)]. done.
Qed.

Section Termination.
Context {W : Type} `{RclTimerApi W}.

Context `{!ClockLaws} `{!ProgressLaws}.

Lemma entry_urgency_le w w' all all' p :
  (forall h, (urgency w' h <= urgency w h)%nat) ->
  all' `sublist_of` all ->
  (entry_urgency w' all' p <= entry_urgency w all p)%nat.
Proof.
  intros Hw Hsub. unfold entry_urgency.
  etrans; [apply sum_list_with_le; intros x _; apply Hw|].
  by apply sum_list_with_sublist, filter_sublist_mono.
Qed.

Lemma entry_urgency_lt w w' all p d :
  (forall h, (urgency w' h <= urgency w h)%nat) ->
  (p, d) ∈ all ->
  (urgency w' (rcl_ref d) < urgency w (rcl_ref d))%nat ->
  (entry_urgency w' all p < entry_urgency w all p)%nat.
Proof.
  intros Hw Hd Hlt. unfold entry_urgency.
  apply sum_list_with_lt with (x0 := (p, d)); [by intros x _| |done].
  by apply list_elem_of_filter.
Qed.

Lemma deref_live p d (s : QState W) :
  (p, d) ∈ all_timers s.1 -> exists d', Queue.deref p s = Ok (d', s).
Proof.
  intros Hd. unfold Queue.deref. mprim.
  destruct (list_find_elem_of (fun e => e.1 = p) _ _ Hd eq_refl)
    as [[i [p' d']] ->].
  by exists d'.
Qed.

(** On such a state a turn of the loop cannot go wrong. *)
Lemma drain_step_total (s : QState W) :
  drain_ready (view s) -> exists b s1, Queue.drain_step s = Ok (b, s1).
Proof.
  intros [Hlive _ Hknown]. simpl in *.
  destruct (Queue.drain_step s) as [[b s1]|f] eqn:Hrun; [by eauto|exfalso].
  unfold Queue.drain_step in Hrun.
  apply bind_Err in Hrun as [Hrun|(q & s0 & Hq & Hrun)]; [done|].
  unfold Queue.get_queue, gets in Hq. simplify_eq/=.
  destruct (running_timers s0.1) as [|[key p] rest] eqn:Hidx; [done|].
  destruct (Hlive key p) as [d0 Hd0]; [by left|].
  destruct (deref_live _ _ _ Hd0) as [d Hderef].
  apply bind_Err in Hrun as [Hrun|(d' & s1 & Hd' & Hrun)]; [congruence|].
  rewrite Hderef in Hd'. simplify_eq/=.
  destruct (deref_Ok _ _ _ _ Hderef) as [_ Hd].
  apply bind_Err in Hrun as [Hrun|(w & s2 & Hw & Hrun)]; [done|].
  unfold Queue.get_world, gets in Hw. simplify_eq/=.
  pose proof (until_known (rcl_ref d') (world s2.2) (Hknown _ _ Hd)) as Huntil.
  destruct (rcl_timer_get_time_until_next_call _ _) as [r until].
  destruct (decide (r = RCL_RET_TIMER_CANCELED)); [by mprim|].
  destruct (decide (r = RCL_RET_OK)); [|by destruct Huntil].
  destruct (until <=? 0); [|done].
  destruct (rcl_timer_call _ _) as [r' w'].
  destruct (decide (r' = RCL_RET_TIMER_CANCELED)); [by mprim|].
  do 3 (apply bind_Err in Hrun as [Hrun|([] & ? & Hstep & Hrun)]; [done|];
        unfold Queue.put_world, Queue.emit, modify in Hstep; simplify_eq/=).
  apply bind_Err in Hrun as [Hrun|([] & ? & ->%erase_begin_Ok & Hrun)];
    [by mprim|].
  apply bind_Err in Hrun as [Hrun|([] & ? & _ & Hrun)]; [|done].
  unfold Queue.readd_timer_to_running_map in Hrun.
  apply bind_Err in Hrun as [Hrun|(d2 & s3 & Hd2 & Hrun)].
  { simpl in Hrun.
    match type of Hrun with
    | Queue.deref _ ?s3 = _ =>
        rewrite (deref_same_all p s2 s3 d' s2 eq_refl Hderef) in Hrun
    end. done. }
  apply deref_Ok in Hd2 as [-> _].
  unfold Queue.forget_timer_data in Hrun. mprim. by mcases.
Qed.

Lemma view_eq (s : QState W) all index w fd :
  view s = mkView all index w fd ->
  all_timers s.1 = all /\ running_timers s.1 = index /\ world s.2 = w.
Proof. unfold view. by intros [= -> -> -> _]. Qed.

(** A turn that asks for another turn keeps the state fit and, in a
    progressing world, lowers the measure. *)
Lemma drain_step_fit (s s1 : QState W) :
  drain_ready (view s) ->
  Queue.drain_step s = Ok (true, s1) ->
  drain_ready (view s1) /\
  (progressing (world s.2) ->
   (drain_measure (view s1) < drain_measure (view s))%nat).
Proof.
  intros [Hlive Hnodup Hknown] Hstep. simpl in *.
  apply drain_step_cases in Hstep
    as [(? & _)|(_ & k & p & rest & d & Hidx & Hd & Hcase)]; [done|].
  rewrite Hidx in Hlive, Hnodup. simpl in Hnodup.
  apply NoDup_cons in Hnodup as [Hfresh Hnodup].
  assert (forall k1 p1, (k1, p1) ∈ rest -> exists d1, (p1, d1) ∈ all_timers s.1)
    as Hlive_rest by (intros k1 p1 Hin; apply (Hlive k1 p1); by right).
  assert (forall w', clock_kept (world s.2) w' ->
            forall all', all' `sublist_of` all_timers s.1 ->
            forall p1 d1, (p1, d1) ∈ all' -> is_Some (rcl_timer_clock w' (rcl_ref d1)))
    as Hknown'.
  { intros w' Hkept all' Hsub p1 d1 Hin.
    destruct (Hknown p1 d1) as [c Hc]; [by eapply elem_of_sublist|].
    exists c. by apply Hkept. }
  unfold drain_measure.
  destruct Hcase as [(z & Huntil & Hview)
                    |(t & r & w' & Huntil & Ht & Hcall &
                      [(-> & Hview)|(Hr & all' & index' & Hview & Hcase)])];
    rewrite Hview; unfold view; simpl; rewrite Hidx; simpl.
  - split; [|intros _; lia].
    split; simpl; [done|done|].
    apply (Hknown' _ (clock_kept_refl _) _ (reflexivity _)).
  - pose proof (call_urgency (rcl_ref d) (world s.2)) as Hcalm.
    pose proof (call_keeps_clock (rcl_ref d) (world s.2)) as Hkept.
    rewrite Hcall in Hcalm, Hkept. simpl in *.
    split.
    + split; simpl; [done|done|].
      apply (Hknown' _ Hkept _ (reflexivity _)).
    + intros _.
      assert (sum_list_with (fun e => entry_urgency w' (all_timers s.1) e.2) rest
              <= sum_list_with
                   (fun e => entry_urgency (world s.2) (all_timers s.1) e.2) rest)%nat;
        [|lia].
      apply sum_list_with_le. intros x _. by apply entry_urgency_le.
  - pose proof (call_urgency (rcl_ref d) (world s.2)) as Hcalm.
    pose proof (call_keeps_clock (rcl_ref d) (world s.2)) as Hkept.
    pose proof (fun Hprog => call_calms (rcl_ref d) (world s.2) t Hprog Huntil Ht)
      as Hstrict.
    rewrite Hcall in Hcalm, Hkept, Hstrict. simpl in *.
    set (w2 := invoke (timer_ready_callback d) w') in *.
    assert (forall h, (urgency w2 h <= urgency (world s.2) h)%nat) as Hle.
    { intros h. etrans; [apply invoke_urgency|apply Hcalm]. }
    assert (clock_kept (world s.2) w2) as Hkept2.
    { eapply clock_kept_trans; [exact Hkept|apply invoke_keeps_clock]. }
    assert (forall all2, all2 `sublist_of` all_timers s.1 ->
              sum_list_with (fun e => entry_urgency w2 all2 e.2) rest
              <= sum_list_with
                   (fun e => entry_urgency (world s.2) (all_timers s.1) e.2) rest)%nat
      as Hsum.
    { intros all2 Hsub. apply sum_list_with_le. intros x _.
      by apply entry_urgency_le. }
    destruct Hcase as [(n & Hn & -> & ->)|[-> Hall']].
    + split.
      * split; simpl.
        -- intros k1 p1 [[= -> ->]|Hin]%elem_of_multimap_insert; eauto.
        -- rewrite multimap_insert_Permutation. simpl. by constructor.
        -- apply (Hknown' _ Hkept2 _ (reflexivity _)).
      * intros Hprog. specialize (Hstrict Hprog Hr).
        rewrite length_multimap_insert, sum_list_with_multimap_insert. simpl.
        pose proof (Hsum _ (reflexivity _)).
        assert (entry_urgency w2 (all_timers s.1) p
                < entry_urgency (world s.2) (all_timers s.1) p)%nat; [|lia].
        apply entry_urgency_lt with (d := d); [done|done|].
        eapply Nat.le_lt_trans; [apply invoke_urgency|done].
    + assert (all' `sublist_of` all_timers s.1) as Hsub.
      { destruct Hall' as [->|(i & x & _ & ->)]; [done|apply sublist_delete]. }
      split; [|intros _; pose proof (Hsum _ Hsub); lia].
      split; simpl; [|done|apply (Hknown' _ Hkept2 _ Hsub)].
      intros k1 p1 Hin. destruct (Hlive_rest _ _ Hin) as [d1 Hd1].
      exists d1. destruct Hall' as [->|(i & x & Hfind & ->)]; [done|].
      apply list_find_Some in Hfind as (Hi & Hx & _). simpl in Hx.
      apply list_elem_of_lookup in Hd1 as [j Hj].
      destruct (decide (i = j)) as [->|Hij].
      { rewrite Hi in Hj. simplify_eq/=. destruct Hfresh.
        apply list_elem_of_fmap. by exists (k1, p1). }
      apply list_elem_of_lookup.
      destruct (decide (j < i)%nat).
      * exists j. by rewrite list_lookup_delete_lt.
      * exists (pred j). rewrite list_lookup_delete_ge by lia.
        by replace (S (pred j)) with j by lia.
Qed.

(** A turn of the loop keeps the state fit. *)
Lemma drain_step_ready (s s1 : QState W) b :
  drain_ready (view s) ->
  Queue.drain_step s = Ok (b, s1) ->
  drain_ready (view s1).
Proof.
  intros Hready Hstep. destruct b.
  - by apply drain_step_fit in Hstep as [? _].
  - by apply drain_step_cases in Hstep as [(_ & -> & _)|(? & _)].
Qed.

Lemma drain_step_progress (s s1 : QState W) :
  drain_ready (view s) ->
  progressing (world s.2) ->
  Queue.drain_step s = Ok (true, s1) ->
  drain_ready (view s1) /\ (drain_measure (view s1) < drain_measure (view s))%nat.
Proof.
  intros Hready Hprog Hstep.
  apply drain_step_fit in Hstep as [Hready1 Hlt]; auto.
Qed.

(** A turn of the loop leads from a progressing world to a progressing
    world. *)
Lemma drain_step_progressing (s s1 : QState W) b :
  progressing (world s.2) ->
  Queue.drain_step s = Ok (b, s1) ->
  progressing (world s1.2).
Proof.
  intros Hprog Hstep.
  apply drain_step_cases in Hstep
    as [(_ & -> & _)|(_ & k & p & rest & d & Hidx & Hd & Hcase)]; [done|].
  destruct Hcase as [(z & Huntil & Hview)
                    |(t & r & w' & Huntil & Ht & Hcall &
                      [(-> & Hview)|(Hr & all' & index' & Hview & Hcase)])];
    apply view_eq in Hview as (_ & _ & ->); [done| |].
  - pose proof (call_progressing (rcl_ref d) _ Hprog) as Hp.
    by rewrite Hcall in Hp.
  - apply invoke_progressing.
    pose proof (call_progressing (rcl_ref d) _ Hprog) as Hp.
    by rewrite Hcall in Hp.
Qed.

(** With fuel beyond the measure the pass returns. *)
Lemma call_ready_timer_callbacks_terminates fuel (s : QState W) :
  drain_ready (view s) ->
  progressing (world s.2) ->
  (drain_measure (view s) < fuel)%nat ->
  exists s', Queue.call_ready_timer_callbacks fuel s = Ok (tt, s').
Proof.
  revert s. induction fuel as [|fuel IH]; intros s Hready Hprog Hfuel; [lia|].
  destruct (drain_step_total s Hready) as (b & s1 & Hstep).
  simpl. unfold bind. rewrite Hstep. destruct b; [|by eexists].
  destruct (drain_step_progress _ _ Hready Hprog Hstep) as [Hready1 Hlt].
  apply IH; [done|by eapply drain_step_progressing|lia].
Qed.

End Termination.

(** *** The simulation obeys the laws *)

Lemma sim_advance_spec now t :
  let n := Sim.sim_next_call_time t in
  let n' := Sim.sim_next_call_time (Sim.sim_advance now t) in
  n <= n' /\ now <= n' /\
  Sim.sim_canceled (Sim.sim_advance now t) = Sim.sim_canceled t /\
  Sim.sim_period (Sim.sim_advance now t) = Sim.sim_period t /\
  (Sim.sim_period t <> 0%N ->
   n < n' /\ (n < now -> n' = now \/ now < n') /\
   (n = now -> now < n') /\ (now < n -> now < n')).
Proof.
  unfold Sim.sim_advance. simpl.
  set (p := Z.of_N (Sim.sim_period t)). assert (0 <= p) as Hp by (unfold p; lia).
  set (n := Sim.sim_next_call_time t).
  assert (Sim.sim_period t <> 0%N -> 0 < p) as Hpos by (unfold p; lia).
  destruct (Z.ltb_spec (n + p) now) as [Hlt|Hge].
  - destruct (Z.eqb_spec p 0) as [Hz|Hnz].
    { do 4 (split; [lia || done|]). intros ?%Hpos. lia. }
    assert (0 < p) as Hp' by lia.
    pose proof (Z.div_mod (now - (n + p) - 1) p ltac:(lia)) as Hdm.
    pose proof (Z.mod_pos_bound (now - (n + p) - 1) p Hp') as Hmod.
    assert (0 <= (now - (n + p) - 1) / p) by (apply Z.div_pos; lia).
    assert (now <= n + p + (1 + (now - (n + p) - 1) / p) * p) by nia.
    split; [nia|]. do 3 (split; [lia || done|]). intros _.
    repeat split; intros; try nia; lia.
  - do 4 (split; [lia || done|]). intros ?%Hpos.
    repeat split; intros; lia.
Qed.

(** The timers of the world after [sim_call h]. *)
Lemma sim_call_lookup h w h' :
  Sim.sim_timers (Sim.sim_call h w).2 !! h' =
  match Sim.sim_timers w !! h' with
  | Some t =>
      if decide (h = h') then
        if Sim.sim_canceled t then Some t
        else Some (Sim.sim_advance (Sim.sim_now w) t)
      else Some t
  | None => None
  end.
Proof.
  unfold Sim.sim_call.
  destruct (decide (h = h')) as [<-|Hne].
  - destruct (Sim.sim_timers w !! h) as [t|] eqn:Ht; simpl; [|by rewrite Ht].
    destruct (Sim.sim_canceled t); simpl; [by rewrite Ht|].
    apply list_lookup_insert_eq. by eapply lookup_lt_Some.
  - destruct (Sim.sim_timers w !! h) as [t|] eqn:Ht; simpl.
    + destruct (Sim.sim_canceled t); simpl.
      * by destruct (Sim.sim_timers w !! h').
      * rewrite list_lookup_insert_ne by done.
        by destruct (Sim.sim_timers w !! h').
    + by destruct (Sim.sim_timers w !! h').
Qed.

Lemma sim_call_now h w : Sim.sim_now (Sim.sim_call h w).2 = Sim.sim_now w.
Proof.
  unfold Sim.sim_call. destruct (Sim.sim_timers w !! h) as [t|]; [|done].
  by destruct (Sim.sim_canceled t).
Qed.

Lemma sim_clear_lookup h w h' :
  Sim.sim_timers (Sim.sim_clear_counter h w) !! h' =
  (fun t => if decide (h = h') then
              {| Sim.sim_clock := Sim.sim_clock t;
                 Sim.sim_canceled := Sim.sim_canceled t;
                 Sim.sim_next_call_time := Sim.sim_next_call_time t;
                 Sim.sim_period := Sim.sim_period t;
                 Sim.sim_owners := Sim.sim_owners t;
                 Sim.sim_reset_counter := 0 |}
            else t) <$> Sim.sim_timers w !! h'.
Proof.
  unfold Sim.sim_clear_counter. simpl.
  destruct (decide (h = h')) as [<-|Hne].
  - by rewrite list_lookup_alter_eq.
  - rewrite list_lookup_alter_ne by done.
    by destruct (Sim.sim_timers w !! h').
Qed.

#[global] Instance sim_rearm_laws : RearmLaws (W := Sim.SimWorld).
Proof.
  split.
  - intros h w h' n'. simpl. unfold Sim.sim_next.
    rewrite sim_call_lookup.
    destruct (Sim.sim_timers w !! h') as [t|]; [|done].
    destruct (decide (h = h')) as [_|_].
    + destruct (Sim.sim_canceled t) eqn:Hc; [by rewrite Hc|].
      destruct (sim_advance_spec (Sim.sim_now w) t) as (Hle & _ & Hc' & _).
      rewrite Hc', Hc. intros [= <-]. eexists. split; [done|]. simpl in Hle. lia.
    + destruct (Sim.sim_canceled t); [done|]. intros [= <-]. by eexists.
  - intros cb w h' n'. simpl. unfold Sim.sim_next. simpl. intros Hn. by exists n'.
  - intros h w h' n'. simpl. unfold Sim.sim_next.
    rewrite sim_clear_lookup.
    destruct (Sim.sim_timers w !! h') as [t|]; [|done]. simpl.
    destruct (decide (h = h')); simpl; intros Hn; by exists n'.
Qed.

#[global] Instance sim_progress_laws : ProgressLaws (W := Sim.SimWorld).
Proof.
  refine {| progressing := sim_progressing; urgency := sim_urgency |}.
  - intros h w Hprog. unfold sim_progressing in *. simpl.
    unfold Sim.sim_call.
    destruct (Sim.sim_timers w !! h) as [t|] eqn:Ht; [|done].
    destruct (Sim.sim_canceled t); [done|]. simpl.
    apply Forall_insert; [done|].
    destruct (sim_advance_spec (Sim.sim_now w) t) as (_ & _ & _ & -> & _).
    by eapply Forall_lookup_1 in Hprog.
  - intros cb w Hprog. done.
  - intros h w [c Hc]. simpl in *. unfold Sim.sim_until.
    destruct (Sim.sim_timers w !! h) as [t|]; [|done].
    destruct (Sim.sim_canceled t); auto.
  - intros h w t0 Hprog. simpl. unfold Sim.sim_until, sim_urgency.
    rewrite sim_call_lookup, sim_call_now.
    unfold Sim.sim_call.
    destruct (Sim.sim_timers w !! h) as [t|] eqn:Ht; [|done].
    destruct (Sim.sim_canceled t) eqn:Hc; [done|]. intros [= <-] Hdue _.
    rewrite decide_True by done.
    assert (Sim.sim_period t <> 0%N) as Hperiod
      by (by eapply Forall_lookup_1 in Hprog).
    destruct (sim_advance_spec (Sim.sim_now w) t)
      as (_ & Hge & Hc' & _ & Hpos).
    destruct (Hpos Hperiod) as (_ & Hlt & Heq & _).
    rewrite Hc', Hc. simpl in *.
    repeat case_match; try lia;
      repeat match goal with
             | Hx : (_ <? _) = true |- _ => apply Z.ltb_lt in Hx
             | Hx : (_ <? _) = false |- _ => apply Z.ltb_ge in Hx
             | Hx : (_ =? _) = true |- _ => apply Z.eqb_eq in Hx
             | Hx : (_ =? _) = false |- _ => apply Z.eqb_neq in Hx
             end; lia.
  - intros h w h'. simpl. unfold sim_urgency.
    rewrite sim_call_lookup, sim_call_now.
    destruct (Sim.sim_timers w !! h') as [t|] eqn:Ht; [|done].
    destruct (decide (h = h')) as [_|_]; [|done].
    destruct (Sim.sim_canceled t) eqn:Hc; [by rewrite Hc|].
    destruct (sim_advance_spec (Sim.sim_now w) t) as (Hle & Hge & Hc' & _).
    rewrite Hc', Hc. simpl in *.
    repeat case_match; try lia;
      repeat match goal with
             | Hx : (_ <? _) = true |- _ => apply Z.ltb_lt in Hx
             | Hx : (_ <? _) = false |- _ => apply Z.ltb_ge in Hx
             | Hx : (_ =? _) = true |- _ => apply Z.eqb_eq in Hx
             | Hx : (_ =? _) = false |- _ => apply Z.eqb_neq in Hx
             end; lia.
  - intros cb w h'. done.
Defined.

(** *** Fuel and the end of a pass *)

Section DrainPass.
Context {W : Type} `{RclTimerApi W}.

Lemma call_ready_timer_callbacks_fuel fuel fuel' (s : QState W) r :
  Queue.call_ready_timer_callbacks fuel s = Ok r ->
  (fuel <= fuel')%nat ->
  Queue.call_ready_timer_callbacks fuel' s = Ok r.
Proof.
  revert fuel' s. induction fuel as [|fuel IH]; intros fuel' s Hrun Hle; [done|].
  destruct fuel' as [|fuel']; [lia|]. simpl in *. unfold bind in *.
  destruct (Queue.drain_step s) as [[[] s1]|]; [|done|done].
  apply IH; [done|lia].
Qed.


End DrainPass.

(** ** The containers in every reachable state *)

Lemma Forall_sublist {A} (P : A -> Prop) (l' l : list A) :
  l' `sublist_of` l -> Forall P l -> Forall P l'.
Proof.
  rewrite !Forall_forall. intros Hsub Hl x Hx. apply Hl.
  by eapply elem_of_sublist.
Qed.

Lemma index_sorted_sublist m' m :
  m' `sublist_of` m -> index_sorted m -> index_sorted m'.
Proof.
  unfold index_sorted. induction 1 as [|x l1 l2 Hsub IH|x l1 l2 Hsub IH];
    intros Hs; [done| |].
  - apply StronglySorted_inv in Hs as [Hs Hall].
    constructor; [by apply IH|by eapply Forall_sublist].
  - apply StronglySorted_inv in Hs as [Hs _]. by apply IH.
Qed.

Lemma sublist_tail {A} (l : list A) : tail l `sublist_of` l.
Proof. destruct l; [done|]. by apply sublist_cons. Qed.

Section Store.
Context {W : Type} `{RclTimerApi W}.

(** A step that hands out no address twice, drops objects or keeps them,
    and drops index entries or inserts one for an address in use, keeps
    [store_inv]. *)
Lemma store_inv_step (s s' : QState W) :
  store_inv s ->
  (heap_next s.1 <= heap_next s'.1)%nat ->
  all_timers s'.1 `sublist_of` all_timers s.1 ->
  (running_timers s'.1 `sublist_of` running_timers s.1 \/
   exists n p, (p < heap_next s'.1)%nat /\
               running_timers s'.1 = multimap_insert n p (running_timers s.1)) ->
  store_inv s'.
Proof.
  intros [Hsorted Hall Hidx Hnodup] Hheap Hsub Hindex.
  assert (Forall (fun e => (e.2 < heap_next s'.1)%nat) (running_timers s.1))
    as Hidx' by (eapply Forall_impl; [exact Hidx|]; simpl; intros; lia).
  split.
  - destruct Hindex as [Hsubi|(n & p & _ & ->)].
    + by eapply index_sorted_sublist.
    + by apply multimap_insert_sorted.
  - eapply Forall_impl; [by eapply Forall_sublist|]. simpl. intros; lia.
  - destruct Hindex as [Hsubi|(n & p & Hp & ->)].
    + by eapply Forall_sublist.
    + by apply multimap_insert_Forall.
  - eapply sublist_NoDup; [exact Hnodup|]. by apply fmap_sublist.
Qed.

(** Discharge the side conditions of [store_inv_step] on an explicit
    state. *)
Ltac store_step Hinv :=
  apply (store_inv_step _ _ Hinv); simpl;
  [ lia
  | first [ done | apply sublist_delete ]
  | first [ by left
          | left; apply sublist_delete
          | left; apply sublist_tail
          | right; do 2 eexists; split; [|reflexivity]; simpl; lia ] ].

Lemma add_timer_to_running_map_store p d (s s' : QState W) :
  Queue.add_timer_to_running_map p d s = Ok (tt, s') ->
  (p < heap_next s.1)%nat ->
  store_inv s ->
  store_inv s' /\ heap_next s'.1 = heap_next s.1 /\
  all_timers s'.1 `sublist_of` all_timers s.1.
Proof.
  unfold Queue.add_timer_to_running_map, Queue.forget_timer_data. mprim.
  intros Hrun Hp Hinv.
  mcases; (split; [|split; [done|first [done|apply sublist_delete]]]);
    try (by destruct s as [[] []]); store_step Hinv.
Qed.

Lemma add_timer_store t cb (s s' : QState W) :
  Queue.add_timer t cb s = Ok (tt, s') -> store_inv s -> store_inv s'.
Proof.
  intros Hrun Hinv.
  apply add_timer_Ok in Hrun
    as (c & Hclock & [[Hne ->]|(-> & s1 & s2 & s3 & -> & Hreplay & Hmap & ->)]);
    [done|].
  pose proof (inv_fresh_all _ Hinv) as Hold.
  assert (store_inv s2 /\ heap_next s2.1 = S (heap_next s.1) /\
          all_timers s2.1 `sublist_of` all_timers s.1) as (Hinv2 & Hheap2 & Hsub2).
  { destruct Hreplay as [[_ ->]|(_ & sr & Hreplay & ->)].
    - split; [store_step Hinv|done].
    - apply add_timer_to_running_map_store in Hreplay
        as (Hinvr & Hheapr & Hsubr); simpl in *; [|lia|store_step Hinv].
      split; [|done]. by destruct Hinvr. }
  apply add_timer_to_running_map_store in Hmap
    as ([Hsorted Hall Hidx Hnodup] & Hheap & Hsub);
    simpl in *; [|lia|by destruct Hinv2].
  rewrite Hheap2 in Hheap.
  split; simpl; [done| |done|].
  - apply Forall_app. split; [done|]. constructor; [simpl; lia|constructor].
  - rewrite fmap_app. apply NoDup_app. split; [done|].
    split; [|apply NoDup_singleton].
    intros x Hx Hx'. apply list_elem_of_singleton in Hx'. simpl in Hx'. subst x.
    apply list_elem_of_fmap in Hx as ([p d] & Hp & Hin). simpl in Hp. subst p.
    eapply elem_of_sublist in Hin; [|by etrans].
    rewrite Forall_forall in Hold. specialize (Hold _ Hin). simpl in Hold. lia.
Qed.

Lemma remove_timer_store t (s s' : QState W) :
  Queue.remove_timer t s = Ok (tt, s') -> store_inv s -> store_inv s'.
Proof.
  unfold Queue.remove_timer. mprim. intros Hrun Hinv.
  mcases; try (by destruct s as [[] []]); store_step Hinv.
Qed.

Lemma timer_reset_lambda_store p (s s' : QState W) :
  Queue.timer_reset_lambda p s = Ok (tt, s') -> store_inv s -> store_inv s'.
Proof.
  unfold Queue.timer_reset_lambda. intros Hrun Hinv.
  apply bind_Ok in Hrun as (d & s1 & [-> Hd]%deref_Ok & Hrun).
  eapply add_timer_to_running_map_store; [exact Hrun| |done].
  pose proof (inv_fresh_all _ Hinv) as Hall. rewrite Forall_forall in Hall.
  apply (Hall _ Hd).
Qed.

Lemma drain_step_frame b (s s' : QState W) :
  Queue.drain_step s = Ok (b, s') -> heap_next s'.1 = heap_next s.1.
Proof.
  unfold Queue.drain_step. intros Hrun.
  apply bind_Ok in Hrun as (q & s0 & Hq & Hrun).
  unfold Queue.get_queue, gets in Hq. simplify_eq/=.
  destruct (running_timers s0.1) as [|[key p] rest] eqn:Hidx.
  { unfold ret in Hrun. by simplify_eq/=. }
  apply bind_Ok in Hrun as (d & s1 & [-> Hd]%deref_Ok & Hrun).
  apply bind_Ok in Hrun as (w & s1 & Hw & Hrun).
  unfold Queue.get_world, gets in Hw. simplify_eq/=.
  destruct (rcl_timer_get_time_until_next_call _ _) as [r until].
  destruct (decide (r = RCL_RET_TIMER_CANCELED)); [mprim; by simplify_eq/=|].
  destruct (decide (r = RCL_RET_OK)); [|done].
  destruct (until <=? 0); [|unfold ret in Hrun; by simplify_eq/=].
  destruct (rcl_timer_call _ _) as [r' w'].
  destruct (decide (r' = RCL_RET_TIMER_CANCELED)); [mprim; by simplify_eq/=|].
  do 3 (apply bind_Ok in Hrun as ([] & ? & Hstep & Hrun);
        unfold Queue.put_world, Queue.emit, modify in Hstep; simplify_eq/=).
  apply bind_Ok in Hrun as ([] & ? & ->%erase_begin_Ok & Hrun).
  apply bind_Ok in Hrun as ([] & s2 & Hreadd & Hrun).
  unfold ret in Hrun. simplify_eq/=.
  unfold Queue.readd_timer_to_running_map in Hreadd.
  apply bind_Ok in Hreadd as (d' & s3 & [-> _]%deref_Ok & Hreadd).
  unfold Queue.forget_timer_data in Hreadd. mprim. by mcases.
Qed.

Lemma drain_step_store b (s s' : QState W) :
  Queue.drain_step s = Ok (b, s') -> store_inv s -> store_inv s'.
Proof.
  intros Hstep Hinv. pose proof (drain_step_frame _ _ _ Hstep) as Hheap.
  apply drain_step_cases in Hstep
    as [(_ & -> & _)|(_ & k & p & rest & d & Hidx & Hd & Hcase)]; [done|].
  assert (rest `sublist_of` running_timers s.1) as Hrest
    by (rewrite Hidx; by apply sublist_cons).
  assert (p < heap_next s'.1)%nat as Hp.
  { pose proof (inv_fresh_all _ Hinv) as Hall. rewrite Forall_forall in Hall.
    rewrite Hheap. apply (Hall _ Hd). }
  assert (store_inv
            ({| timer_type := timer_type s.1; running := running s.1;
                thread_terminated := thread_terminated s.1;
                all_timers := all_timers s.1; running_timers := rest;
                heap_next := heap_next s.1 |}, s.2)) as Hinv_rest
    by (apply (store_inv_step _ _ Hinv); simpl; [lia|done|by left]).
  destruct Hcase as [(z & _ & Hview)
                    |(t & r & w' & _ & _ & _ &
                      [(-> & Hview)|(_ & all' & index' & Hview & Hcase)])];
    apply view_eq in Hview as (Hall' & Hidx' & _).
  - apply (store_inv_step _ _ Hinv); [lia|by rewrite Hall'|left; by rewrite Hidx'].
  - apply (store_inv_step _ _ Hinv); [lia|by rewrite Hall'|left; by rewrite Hidx'].
  - destruct Hcase as [(n & _ & -> & ->)|[-> Hsub]].
    + apply (store_inv_step _ _ Hinv_rest); simpl;
        [lia|by rewrite Hall'|right; by exists n, p].
    + apply (store_inv_step _ _ Hinv); [lia| |left; by rewrite Hidx'].
      rewrite Hall'. destruct Hsub as [->|(i & x & _ & ->)];
        [done|apply sublist_delete].
Qed.

Lemma call_ready_timer_callbacks_store fuel (s s' : QState W) :
  Queue.call_ready_timer_callbacks fuel s = Ok (tt, s') ->
  store_inv s -> store_inv s'.
Proof.
  revert s. induction fuel as [|fuel IH]; intros s Hrun Hinv; [done|].
  simpl in Hrun. apply bind_Ok in Hrun as (b & s1 & Hstep & Hrun).
  apply drain_step_store in Hstep; [|done].
  destruct b; [by eapply IH|]. unfold ret in Hrun. by simplify_eq/=.
Qed.

Lemma timer_thread_store fuel script st (s s' : QState W) :
  Queue.timer_thread fuel script s = Ok (st, s') ->
  store_inv s -> store_inv s'.
Proof.
  revert s. induction script as [|e script IH]; intros s Hrun Hinv.
  - simpl in Hrun. mprim. mcases; store_step Hinv.
  - simpl in Hrun. apply bind_Ok in Hrun as (q & s0 & Hq & Hrun).
    unfold Queue.get_queue, gets in Hq. simplify_eq/=.
    destruct (running s0.1); [|mprim; simplify_eq/=; store_step Hinv].
    destruct (Queue.env_ok e); [|mprim; simplify_eq/=; store_step Hinv].
    apply bind_Ok in Hrun as ([] & s1 & Hlock & Hrun).
    apply bind_Ok in Hrun as ([] & s2 & Hdrain & Hrun).
    apply call_ready_timer_callbacks_store in Hdrain.
    2:{ mprim. simplify_eq/=. store_step Hinv. }
    apply bind_Ok in Hrun as (q' & s3 & Hq' & Hrun).
    unfold Queue.get_queue, gets in Hq'. simplify_eq/=.
    apply bind_Ok in Hrun as ([] & s4 & Hunlock & Hrun).
    apply bind_Ok in Hrun as ([] & s5 & Hsleep & Hrun).
    apply bind_Ok in Hrun as ([] & s6 & Hcatch & Hrun).
    eapply IH; [exact Hrun|].
    destruct (Queue.env_sleep_throws e); mprim; simplify_eq/=; store_step Hdrain.
Qed.

Lemma stop_wait_store sched (s s' : QState W) :
  Queue.stop_wait sched s = Ok (tt, s') -> store_inv s -> store_inv s'.
Proof.
  revert s. induction sched as [|b sched IH]; intros s Hrun Hinv.
  - simpl in Hrun. mprim. by mcases.
  - simpl in Hrun. apply bind_Ok in Hrun as (q & s0 & Hq & Hrun).
    unfold Queue.get_queue, gets in Hq. simplify_eq/=.
    destruct (thread_terminated s0.1); [unfold ret in Hrun; by simplify_eq/=|].
    apply bind_Ok in Hrun as ([] & s1 & Hnote & Hrun).
    apply bind_Ok in Hrun as ([] & s2 & Hworker & Hrun).
    eapply IH; [exact Hrun|].
    destruct b.
    + apply bind_Ok in Hworker as (st & s3 & Hthread & Hret).
      unfold ret in Hret. simplify_eq/=.
      eapply (timer_thread_store 0 [] st); [exact Hthread|].
      mprim. simplify_eq/=. store_step Hinv.
    + mprim. simplify_eq/=. store_step Hinv.
Qed.

(** In every state a queue can reach, [running_timers] is in key order, as
    a [std::multimap] is, and the addresses are distinct and were handed
    out by [make_unique]. *)
Lemma reachable_store_inv ty (s : QState W) : reachable ty s -> store_inv s.
Proof.
  induction 1 as [w|s c s' _ IH _ Hrun].
  - split; simpl; constructor.
  - destruct c; simpl in Hrun.
    + by eapply add_timer_store.
    + by eapply remove_timer_store.
    + by eapply timer_reset_lambda_store.
    + by eapply call_ready_timer_callbacks_store.
    + apply bind_Ok in Hrun as (st & s1 & Hthread & Hret).
      unfold ret in Hret. simplify_eq/=. by eapply timer_thread_store.
    + unfold Queue.stop in Hrun.
      apply bind_Ok in Hrun as ([] & s1 & Hset & Hrun).
      eapply stop_wait_store; [exact Hrun|].
      mprim. simplify_eq/=. store_step IH.
    + mprim. simplify_eq/=. store_step IH.
Qed.

End Store.

(** ** Keys and next call times in reachable states *)

Section Ahead.
Context {W : Type} `{RclTimerApi W} `{!RearmLaws}.

















End Ahead.

(** ** The drain pass, all in all *)

Section DrainPassSpec.
Context {W : Type} `{RclTimerApi W}.
Context `{!ClockLaws} `{!RearmLaws} `{!ProgressLaws}.


End DrainPassSpec.






(** * Further properties of the queue *)

(** ** The mutex protocol *)

Lemma mutex_protocol_app held tr1 tr2 :
  mutex_protocol held (tr1 ++ tr2)
  = match mutex_protocol held tr1 with
    | Some h => mutex_protocol h tr2
    | None => None
    end.
Proof.
  revert held. induction tr1 as [|e tr1 IH]; intros held; simpl; [done|].
  destruct (mutex_step held e); [apply IH|done].
Qed.

Lemma mutex_protocol_under_lock tr :
  Forall (fun e => under_lock_event e = true) tr ->
  mutex_protocol true tr = Some true.
Proof. induction 1 as [|e tr He _ IH]; simpl; [done|]. by destruct e. Qed.

Lemma fired_under_lock_no_sleep tr :
  Forall (fun e => under_lock_event e = true) tr ->
  filter (fun e => is_sleep e = true) tr = [].
Proof.
  induction 1 as [|e tr He _ IH]; [done|].
  rewrite filter_cons. by destruct e.
Qed.

Section Effects.
Context {W : Type} `{RclTimerApi W}.

Lemma flags_kept_refl (s : QState W) : flags_kept s s.
Proof. by split. Qed.

Lemma flags_kept_trans (s1 s2 s3 : QState W) :
  flags_kept s1 s2 -> flags_kept s2 s3 -> flags_kept s1 s3.
Proof. intros [] []. split; congruence. Qed.

(** One turn of the drain loop keeps the flags and emits writes and
    ready-callbacks only. *)
Lemma drain_step_effects b (s s' : QState W) :
  Queue.drain_step s = Ok (b, s') ->
  flags_kept s s' /\
  exists tr, trace s'.2 = trace s.2 ++ tr /\
             Forall (fun e => under_lock_event e = true) tr.
Proof.
  assert (forall s0 : QState W,
            flags_kept s0 s0 /\
            exists tr, trace s0.2 = trace s0.2 ++ tr /\
                       Forall (fun e => under_lock_event e = true) tr) as Hsame.
  { intros s0. split; [by split|]. exists []. by rewrite app_nil_r. }
  unfold Queue.drain_step. intros Hrun.
  apply bind_Ok in Hrun as (q & s0 & Hq & Hrun).
  unfold Queue.get_queue, gets in Hq. simplify_eq/=.
  destruct (running_timers s0.1) as [|[key p] rest] eqn:Hidx.
  { unfold ret in Hrun. simplify_eq/=. apply Hsame. }
  apply bind_Ok in Hrun as (d & s1 & [-> Hd]%deref_Ok & Hrun).
  apply bind_Ok in Hrun as (w & s1 & Hw & Hrun).
  unfold Queue.get_world, gets in Hw. simplify_eq/=.
  destruct (rcl_timer_get_time_until_next_call _ _) as [r until].
  destruct (decide (r = RCL_RET_TIMER_CANCELED)).
  { mprim. simplify_eq/=. split; [by split|].
    eexists. split; [done|]. by repeat constructor. }
  destruct (decide (r = RCL_RET_OK)); [|done].
  destruct (until <=? 0); [|unfold ret in Hrun; simplify_eq/=; apply Hsame].
  destruct (rcl_timer_call _ _) as [r' w'].
  destruct (decide (r' = RCL_RET_TIMER_CANCELED)).
  { mprim. simplify_eq/=. split; [by split|].
    eexists. split; [done|]. by repeat constructor. }
  do 3 (apply bind_Ok in Hrun as ([] & ? & Hstep & Hrun);
        unfold Queue.put_world, Queue.emit, modify in Hstep; simplify_eq/=).
  apply bind_Ok in Hrun as ([] & ? & ->%erase_begin_Ok & Hrun).
  apply bind_Ok in Hrun as ([] & s2 & Hreadd & Hrun).
  unfold ret in Hrun. simplify_eq/=.
  unfold Queue.readd_timer_to_running_map in Hreadd.
  apply bind_Ok in Hreadd as (d' & s3 & [-> _]%deref_Ok & Hreadd).
  unfold Queue.forget_timer_data in Hreadd. mprim.
  mcases; (split; [by split|]); eexists;
    (split; [by rewrite <- ?app_assoc|]); by repeat constructor.
Qed.

(** So does a whole pass. *)
Lemma call_ready_timer_callbacks_effects fuel (s s' : QState W) :
  Queue.call_ready_timer_callbacks fuel s = Ok (tt, s') ->
  flags_kept s s' /\
  exists tr, trace s'.2 = trace s.2 ++ tr /\
             Forall (fun e => under_lock_event e = true) tr.
Proof.
  revert s. induction fuel as [|fuel IH]; intros s Hrun; [done|].
  simpl in Hrun. apply bind_Ok in Hrun as (b & s1 & Hstep & Hrun).
  apply drain_step_effects in Hstep as (Hkept & tr & Htr & Hev).
  destruct b.
  - apply IH in Hrun as (Hkept' & tr' & Htr' & Hev').
    split; [by eapply flags_kept_trans|].
    exists (tr ++ tr'). split; [by rewrite Htr', Htr, app_assoc|].
    by apply Forall_app.
  - unfold ret in Hrun. simplify_eq/=. split; [done|]. by exists tr.
Qed.

End Effects.

Section QueueCalls.
Context {W : Type} `{RclTimerApi W}.

Lemma timer_thread_mutex fuel script st (s s' : QState W) :
  Queue.timer_thread fuel script s = Ok (st, s') ->
  exists tr, trace s'.2 = trace s.2 ++ tr /\ mutex_protocol false tr = Some false.
Proof.
  revert s. induction script as [|e script IH]; intros s Hrun.
  - simpl in Hrun. mprim. mcases; exists []; by rewrite app_nil_r.
  - simpl in Hrun. apply bind_Ok in Hrun as (q & s0 & Hq & Hrun).
    unfold Queue.get_queue, gets in Hq. simplify_eq/=.
    destruct (running s0.1);
      [|mprim; simplify_eq/=; exists []; by rewrite app_nil_r].
    destruct (Queue.env_ok e);
      [|mprim; simplify_eq/=; exists []; by rewrite app_nil_r].
    apply bind_Ok in Hrun as ([] & s1 & Hlock & Hrun).
    apply bind_Ok in Hrun as ([] & s2 & Hdrain & Hrun).
    apply call_ready_timer_callbacks_effects in Hdrain as (_ & dr & Hdr & Hev).
    apply bind_Ok in Hrun as (q' & s3 & Hq' & Hrun).
    unfold Queue.get_queue, gets in Hq'. simplify_eq/=.
    apply bind_Ok in Hrun as ([] & s4 & Hunlock & Hrun).
    apply bind_Ok in Hrun as ([] & s5 & Hsleep & Hrun).
    apply bind_Ok in Hrun as ([] & s6 & Hcatch & Hrun).
    apply IH in Hrun as (tr & Htr & Hproto).
    exists (EvLock :: dr ++ [EvUnlock; EvSleepUntil (Queue.get_next_timer_ready_time s3.1)] ++ tr).
    split.
    + rewrite Htr.
      destruct (Queue.env_sleep_throws e); mprim; simplify_eq/=;
        rewrite Hdr; by rewrite <- ?app_assoc.
    + simpl. rewrite mutex_protocol_app, (mutex_protocol_under_lock _ Hev).
      done.
Qed.


Lemma add_timer_mutex t cb (s s' : QState W) :
  rcl_reset_counter (world s.2) t = 0%nat ->
  Queue.add_timer t cb s = Ok (tt, s') ->
  exists tr, trace s'.2 = trace s.2 ++ tr /\ mutex_protocol false tr = Some false.
Proof.
  intros Hzero Hrun.
  apply add_timer_Ok in Hrun as (c & Hclock & [[Hne ->]|(-> & s1 & s2 & s3 & -> &
    Hreplay & Hmap & ->)]).
  { exists []. by rewrite app_nil_r. }
  destruct Hreplay as [[_ ->]|[Hpending _]]; [|done].
  apply add_timer_to_running_map_trace in Hmap as (tr & Htr & Hcase).
  simpl in *. rewrite Htr.
  eexists (_ :: _ :: tr ++ [_; _; _]).
  split; [by rewrite <- !app_assoc|].
  destruct Hcase as [->|[->| ->]]; done.
Qed.

(** When a reset was counted and the lambda, run from
    [set_on_reset_callback], writes a container, it does so before
    [add_timer] has taken the mutex. *)
Lemma add_timer_replay_mutex t cb (s s' : QState W) :
  Queue.add_timer t cb s = Ok (tt, s') ->
  exists tr, trace s'.2 = trace s.2 ++ tr /\
    (mutex_protocol false tr = Some false \/
     (rcl_reset_counter (world s.2) t <> 0%nat /\
      mutex_protocol false tr = None /\
      exists e tr', (e = EvWriteAllTimers \/ e = EvWriteRunningTimers) /\
                    tr = EvSetOnReset t {| hook_queue := timer_type s.1;
                                           hook_data := heap_next s.1 |}
                         :: e :: tr')).
Proof.
  intros Hrun.
  apply add_timer_Ok in Hrun as (c & Hclock & [[Hne ->]|(-> & s1 & s2 & s3 & -> &
    Hreplay & Hmap & ->)]).
  { exists []. rewrite app_nil_r. auto. }
  apply add_timer_to_running_map_trace in Hmap as (tr & Htr & Hcase).
  destruct Hreplay as [[_ ->]|(Hpending & sr & Hreplay & ->)].
  - simpl in *. rewrite Htr.
    eexists (_ :: _ :: tr ++ [_; _; _]).
    split; [by rewrite <- !app_assoc|]. left.
    destruct Hcase as [->|[->| ->]]; done.
  - apply add_timer_to_running_map_trace in Hreplay as (rp & Hrp & Hrcase).
    simpl in *. rewrite Htr, Hrp.
    eexists (_ :: rp ++ _ :: tr ++ [_; _; _]).
    split; [by rewrite <- !app_assoc|].
    destruct Hrcase as [->|[->| ->]].
    + left. destruct Hcase as [->|[->| ->]]; done.
    + right. split; [done|]. split; [done|]. eexists _, _. split; [by left|done].
    + right. split; [done|]. split; [done|]. eexists _, _. split; [by right|done].
Qed.

Lemma remove_timer_mutex t (s s' : QState W) :
  Queue.remove_timer t s = Ok (tt, s') ->
  exists tr, trace s'.2 = trace s.2 ++ tr /\ mutex_protocol false tr = Some false.
Proof.
  unfold Queue.remove_timer. mprim. intros Hrun.
  mcases; eexists; (split; [by rewrite <- !app_assoc|]); done.
Qed.

(** The wait loop of [stop] on a queue whose [running] is false: the
    queue is left as it was but for [thread_terminated], and the trace
    grows by one [notify_one] per turn of the loop. *)
Lemma stop_wait_effects sched (s s' : QState W) :
  running s.1 = false ->
  Queue.stop_wait sched s = Ok (tt, s') ->
  store_kept s s' /\ running s'.1 = false /\ thread_terminated s'.1 = true /\
  exists k, trace s'.2 = trace s.2 ++ replicate k EvNotifyOne /\
            (k <= length sched)%nat /\
            (thread_terminated s.1 = true -> k = 0%nat).
Proof.
  revert s. induction sched as [|b sched IH]; intros s Hstopped Hrun.
  - simpl in Hrun. mprim. destruct (thread_terminated s.1) eqn:Hterm; [|done].
    simplify_eq/=. repeat split; try done.
    exists 0%nat. rewrite app_nil_r. split; [done|split; [simpl; lia|done]].
  - simpl in Hrun. apply bind_Ok in Hrun as (q & s0 & Hq & Hrun).
    unfold Queue.get_queue, gets in Hq. simplify_eq/=.
    destruct (thread_terminated s0.1) eqn:Hterm.
    { unfold ret in Hrun. simplify_eq/=. repeat split; try done.
      exists 0%nat. rewrite app_nil_r. split; [done|split; [simpl; lia|done]]. }
    apply bind_Ok in Hrun as ([] & s1 & Hnote & Hrun).
    apply bind_Ok in Hrun as ([] & s2 & Hworker & Hrun).
    assert (store_kept s0 s2 /\ running s2.1 = false /\
            trace s2.2 = trace s0.2 ++ [EvNotifyOne]) as (Hkept & Hstop2 & Htr2).
    { destruct b.
      - apply bind_Ok in Hworker as (st & s3 & Hthread & Hret).
        unfold ret in Hret. simplify_eq/=. simpl in Hthread.
        mprim. simplify_eq/=. rewrite Hstopped in Hthread. by simplify_eq/=.
      - mprim. by simplify_eq/=. }
    apply IH in Hrun as (Hkept' & Hstop' & Hterm' & k & Htr & Hk & _); [|done].
    destruct Hkept, Hkept'. repeat split; try congruence.
    exists (S k). rewrite Htr, Htr2, <- app_assoc.
    split; [done|split; [simpl; lia|intros ?; congruence]].
Qed.

Lemma stop_effects sched (s s' : QState W) :
  Queue.stop sched s = Ok (tt, s') ->
  store_kept s s' /\ running s'.1 = false /\ thread_terminated s'.1 = true /\
  exists k, trace s'.2 = trace s.2 ++ replicate k EvNotifyOne /\
            (k <= length sched)%nat /\
            (thread_terminated s.1 = true -> k = 0%nat).
Proof.
  unfold Queue.stop. intros Hrun.
  apply bind_Ok in Hrun as ([] & s1 & Hset & Hrun).
  unfold Queue.set_running, modify in Hset. simplify_eq/=.
  apply stop_wait_effects in Hrun as ([] & ? & ? & k & ? & ? & ?); [|done].
  repeat split; try done. by exists k.
Qed.

Lemma fired_replicate_notify k : fired (replicate k EvNotifyOne) = [].
Proof. by induction k. Qed.

(** X1. Every member function of the queue's interface, and the worker,
    keeps to the mutex protocol, [add_timer] as long as no reset of the
    timer was counted before the call: entered with the mutex free, they
    take and release it in turn, write the containers and run the
    ready-callbacks only while holding it, go to sleep only after
    releasing it, and leave it free. The drain pass, entered with the
    mutex held, writes and runs callbacks and leaves it held. An
    [add_timer] for a timer with a counted reset keeps to the protocol
    too, unless the lambda that [set_on_reset_callback] runs at once
    writes a container: that write is the first event after the callback
    is set, ahead of the lock. *)
Theorem calls_keep_mutex_protocol (c : QueueCall W) held (s s' : QState W) :
  mutex_at_entry c = Some held ->
  run_call c s = Ok (tt, s') ->
  exists tr, trace s'.2 = trace s.2 ++ tr /\
    (no_reset_pending c s -> mutex_protocol held tr = Some held) /\
    (mutex_protocol held tr = Some held \/
     exists t cb e tr',
       c = CallAddTimer t cb /\ rcl_reset_counter (world s.2) t <> 0%nat /\
       mutex_protocol held tr = None /\
       (e = EvWriteAllTimers \/ e = EvWriteRunningTimers) /\
       tr = EvSetOnReset t {| hook_queue := timer_type s.1;
                              hook_data := heap_next s.1 |} :: e :: tr').
Proof.
  assert (forall tr : list Event,
            mutex_protocol held tr = Some held ->
            trace s'.2 = trace s.2 ++ tr ->
            exists tr, trace s'.2 = trace s.2 ++ tr /\
              (no_reset_pending c s -> mutex_protocol held tr = Some held) /\
              (mutex_protocol held tr = Some held \/
               exists t cb e tr',
                 c = CallAddTimer t cb /\
                 rcl_reset_counter (world s.2) t <> 0%nat /\
                 mutex_protocol held tr = None /\
                 (e = EvWriteAllTimers \/ e = EvWriteRunningTimers) /\
                 tr = EvSetOnReset t {| hook_queue := timer_type s.1;
                                        hook_data := heap_next s.1 |}
                      :: e :: tr')) as Hkeeps.
  { intros tr Hproto Htr. exists tr. auto. }
  intros Hentry Hrun. destruct c; simpl in Hentry, Hrun; simplify_eq.
  - destruct (add_timer_replay_mutex _ _ _ _ Hrun)
      as (tr & Htr & [Hproto|(Hpending & Hnone & e & tr' & He & ->)]);
      [by eapply Hkeeps|].
    eexists. split; [exact Htr|]. split; [done|]. right.
    by exists t, cb, e, tr'.
  - apply remove_timer_mutex in Hrun as (tr & Htr & Hproto). by eapply Hkeeps.
  - apply call_ready_timer_callbacks_effects in Hrun as (_ & tr & Htr & Hev).
    eapply Hkeeps; [|done]. by apply mutex_protocol_under_lock.
  - apply bind_Ok in Hrun as (st & s1 & Hthread & Hret).
    unfold ret in Hret. simplify_eq/=.
    apply timer_thread_mutex in Hthread as (tr & Htr & Hproto). by eapply Hkeeps.
  - apply stop_effects in Hrun as (_ & _ & _ & k & Htr & _).
    eapply (Hkeeps (replicate k EvNotifyOne)); [|done].
    clear. by induction k.
  - mprim. simplify_eq/=. apply (Hkeeps []); [done|]. by rewrite app_nil_r.
Qed.

(** X2. [stop] touches nothing but the two flags: the containers, the
    allocator, the on-reset callbacks and the timers are as before;
    [running] is false and [thread_terminated] true; the trace grows by
    [notify_one] signals only, at most one per millisecond waited and none
    if the worker had already terminated. A second [stop] returns at once
    and changes nothing. *)
Theorem stop_only_signals sched (s s' : QState W) :
  Queue.stop sched s = Ok (tt, s') ->
  store_kept s s' /\ running s'.1 = false /\ thread_terminated s'.1 = true /\
  (exists k, trace s'.2 = trace s.2 ++ replicate k EvNotifyOne /\
             (k <= length sched)%nat /\
             (thread_terminated s.1 = true -> k = 0%nat)) /\
  forall sched', Queue.stop sched' s' = Ok (tt, s').
Proof.
  intros Hrun. apply stop_effects in Hrun as (Hkept & Hstop & Hterm & Hk).
  do 4 (split; [done|]).
  intros sched'. destruct s' as [[ty r tm all idx hp] sys]. simpl in *. subst.
  unfold Queue.stop, Queue.set_running, modify, bind. simpl.
  destruct sched'; reflexivity.
Qed.


(** X3. As long as the worker is in its loop, [running] holds,
    [rclcpp::ok()] held in every turn and no [sleep_until] raised; the
    worker has not touched [thread_terminated], and it has gone to sleep
    exactly once per turn. *)
Theorem worker_in_loop fuel script (s s' : QState W) :
  Queue.timer_thread fuel script s = Ok (Queue.ThreadRunning, s') ->
  running s.1 = true /\ running s'.1 = true /\
  thread_terminated s'.1 = thread_terminated s.1 /\
  Forall (fun e => Queue.env_ok e = true /\ Queue.env_sleep_throws e = false)
         script /\
  exists tr, trace s'.2 = trace s.2 ++ tr /\
             length (filter (fun e => is_sleep e = true) tr) = length script.
Proof.
  revert s. induction script as [|e script IH]; intros s Hrun.
  - apply timer_thread_nil in Hrun as [(_ & -> & ?)|(? & _)]; [|done].
    repeat split; try done. exists []. by rewrite app_nil_r.
  - simpl in Hrun. apply bind_Ok in Hrun as (q & s0 & Hq & Hrun).
    unfold Queue.get_queue, gets in Hq. simplify_eq/=.
    destruct (running s0.1) eqn:Hrunning; [|by mprim].
    destruct (Queue.env_ok e) eqn:Hok; [|by mprim].
    apply bind_Ok in Hrun as ([] & s1 & Hlock & Hrun).
    apply bind_Ok in Hrun as ([] & s2 & Hdrain & Hrun).
    apply call_ready_timer_callbacks_effects in Hdrain as (Hkept & dr & Hdr & Hev).
    apply bind_Ok in Hrun as (q' & s3 & Hq' & Hrun).
    unfold Queue.get_queue, gets in Hq'. simplify_eq/=.
    apply bind_Ok in Hrun as ([] & s4 & Hunlock & Hrun).
    apply bind_Ok in Hrun as ([] & s5 & Hsleep & Hrun).
    apply bind_Ok in Hrun as ([] & s6 & Hcatch & Hrun).
    apply IH in Hrun as (Hrun6 & Hrun' & Hterm & Hall & tr & Htr & Hlen).
    destruct Hkept as [_ _ Hterm3 _ _].
    destruct (Queue.env_sleep_throws e) eqn:Hthrows; mprim; simplify_eq/=.
    repeat split; try done; [congruence|by constructor|].
    exists (EvLock :: dr ++ [EvUnlock;
              EvSleepUntil (Queue.get_next_timer_ready_time s3.1)] ++ tr).
    split; [rewrite Htr, Hdr; by rewrite <- ?app_assoc|].
    rewrite filter_cons_False by done. rewrite !filter_app.
    rewrite (fired_under_lock_no_sleep _ Hev). simpl. by rewrite Hlen.
Qed.

Lemma add_timer_to_running_map_quiet p d (s s' : QState W) :
  Queue.add_timer_to_running_map p d s = Ok (tt, s') ->
  running s'.1 = running s.1 /\ fired (trace s'.2) = fired (trace s.2).
Proof.
  unfold Queue.add_timer_to_running_map, Queue.forget_timer_data. mprim.
  intros Hrun. mcases; by rewrite ?fired_app, ?app_nil_r.
Qed.

(** X4. A queue whose [running] flag is false stays that way and runs no
    ready-callback any more, whatever is called on it: [add_timer] still
    takes the timer in, but the worker leaves its loop before it looks at
    the index. *)
Theorem stopped_queue_runs_no_callback (c : QueueCall W) (s s' : QState W) :
  running s.1 = false ->
  through_worker c ->
  run_call c s = Ok (tt, s') ->
  running s'.1 = false /\ fired (trace s'.2) = fired (trace s.2).
Proof.
  intros Hstopped Hc Hrun. destruct c; simpl in Hc, Hrun; [| | |done| | |].
  - apply add_timer_Ok in Hrun
      as (c & Hclock & [[Hne ->]|(-> & s1 & s2 & s3 & -> & Hreplay & Hmap & ->)]);
      [done|].
    apply add_timer_to_running_map_quiet in Hmap as [Hr Hf].
    simpl in *. rewrite !fired_app, Hf, !fired_app, Hr. simpl.
    rewrite !app_nil_r.
    destruct Hreplay as [[_ ->]|(_ & sr & Hreplay & ->)]; simpl.
    + by rewrite fired_app, app_nil_r.
    + apply add_timer_to_running_map_quiet in Hreplay as [Hr' Hf'].
      simpl in *. by rewrite Hr', Hf', fired_app, app_nil_r.
  - unfold Queue.remove_timer in Hrun. mprim.
    mcases; by rewrite !fired_app, ?app_nil_r.
  - unfold Queue.timer_reset_lambda in Hrun.
    apply bind_Ok in Hrun as (d & s1 & [-> Hd]%deref_Ok & Hrun).
    apply add_timer_to_running_map_quiet in Hrun as [Hr Hf]. by rewrite Hr.
  - apply bind_Ok in Hrun as (st & s1 & Hthread & Hret).
    unfold ret in Hret. simplify_eq/=.
    destruct script; simpl in Hthread; mprim; rewrite Hstopped in Hthread;
      by simplify_eq/=.
  - apply stop_effects in Hrun as (_ & ? & _ & k & Htr & _).
    split; [done|]. by rewrite Htr, fired_app, fired_replicate_notify, app_nil_r.
  - mprim. by simplify_eq/=.
Qed.

(** One turn of the drain loop adds no object and no index entry: an
    object is dropped or kept, an entry is dropped or filed again under
    another key. *)
Lemma drain_step_containers b (s s' : QState W) :
  Queue.drain_step s = Ok (b, s') ->
  all_timers s'.1 `sublist_of` all_timers s.1 /\
  (running_timers s'.1).*2 ⊆+ (running_timers s.1).*2.
Proof.
  intros Hstep.
  apply drain_step_cases in Hstep
    as [(_ & -> & _)|(_ & k & p & rest & d & Hidx & Hd & Hcase)]; [done|].
  rewrite Hidx.
  destruct Hcase as [(z & _ & Hview)
                    |(t & r & w' & _ & _ & _ &
                      [(-> & Hview)|(_ & all' & index' & Hview & Hcase)])];
    apply view_eq in Hview as (Hall' & Hidx' & _); rewrite Hall', Hidx'.
  - split; [done|]. simpl. by apply submseteq_cons.
  - split; [done|]. simpl. by apply submseteq_cons.
  - destruct Hcase as [(n & _ & -> & ->)|[-> Hsub]].
    + split; [done|]. by rewrite multimap_insert_Permutation.
    + split; [|simpl; by apply submseteq_cons].
      destruct Hsub as [->|(i & x & _ & ->)]; [done|apply sublist_delete].
Qed.

(** X5. A drain pass registers nothing and forgets no bookkeeping: the
    live set only loses objects, the index only loses entries or files them
    again under another key; the type of the queue, its [running] and
    [thread_terminated] flags, the allocator and the on-reset callbacks are
    untouched; the pass takes no lock, signals nobody and does not sleep,
    it only writes the containers and runs ready-callbacks. *)
Theorem drain_pass_frame fuel (s s' : QState W) :
  Queue.call_ready_timer_callbacks fuel s = Ok (tt, s') ->
  all_timers s'.1 `sublist_of` all_timers s.1 /\
  (running_timers s'.1).*2 ⊆+ (running_timers s.1).*2 /\
  flags_kept s s' /\
  exists tr, trace s'.2 = trace s.2 ++ tr /\
             Forall (fun e => under_lock_event e = true) tr.
Proof.
  intros Hrun. split; [|split; [|by eapply call_ready_timer_callbacks_effects]].
  - revert s Hrun. induction fuel as [|fuel IH]; intros s Hrun; [done|].
    simpl in Hrun. apply bind_Ok in Hrun as (b & s1 & Hstep & Hrun).
    apply drain_step_containers in Hstep as [Hsub _].
    destruct b; [|unfold ret in Hrun; by simplify_eq/=].
    etrans; [by apply IH|done].
  - revert s Hrun. induction fuel as [|fuel IH]; intros s Hrun; [done|].
    simpl in Hrun. apply bind_Ok in Hrun as (b & s1 & Hstep & Hrun).
    apply drain_step_containers in Hstep as [_ Hsub].
    destruct b; [|unfold ret in Hrun; by simplify_eq/=].
    etrans; [by apply IH|done].
Qed.



End QueueCalls.

Lemma filter_delete_False {A} (P : A -> Prop) `{forall x, Decision (P x)}
      (l : list A) i x :
  l !! i = Some x -> ~ P x -> filter P (delete i l) = filter P l.
Proof.
  revert i. induction l as [|y l IH]; intros i Hi Hx; [done|].
  destruct i as [|i]; simpl in *.
  - simplify_eq. by rewrite filter_cons_False.
  - rewrite !filter_cons. by rewrite (IH i).
Qed.

Lemma filter_delete_True {A} (P : A -> Prop) `{forall x, Decision (P x)}
      (l : list A) i x :
  l !! i = Some x -> P x ->
  length (filter P (delete i l)) = Nat.pred (length (filter P l)).
Proof.
  revert i. induction l as [|y l IH]; intros i Hi Hx; [done|].
  destruct i as [|i]; simpl in *.
  - simplify_eq. by rewrite filter_cons_True.
  - rewrite !filter_cons. destruct (decide (P y)); simpl; [|by eapply IH].
    rewrite (IH i) by done.
    assert (x ∈ filter P l) as Hin
      by (apply list_elem_of_filter; split; [done|by eapply list_elem_of_lookup_2]).
    destruct (filter P l); [by apply elem_of_nil in Hin|done].
Qed.

Lemma filter_none {A} (P : A -> Prop) `{forall x, Decision (P x)} (l : list A) :
  Forall (fun x => ~ P x) l -> filter P l = [].
Proof.
  induction 1 as [|x l Hx _ IH]; [done|]. by rewrite filter_cons_False.
Qed.

Lemma get_next_after_insert (q q' : TimerQueue) n p :
  running_timers q' = multimap_insert n p (running_timers q) ->
  Queue.get_next_timer_ready_time q'
  = match running_timers q with
    | [] => n
    | _ => Z.min (Queue.get_next_timer_ready_time q) n
    end.
Proof.
  unfold Queue.get_next_timer_ready_time. intros ->.
  destruct (running_timers q) as [|[k' v'] rest]; simpl; [done|].
  destruct (n <? k') eqn:E; simpl;
    [apply Z.ltb_lt in E|apply Z.ltb_ge in E]; lia.
Qed.

Section Registration.
Context {W : Type} `{RclTimerApi W}.


(** X7. A [remove_timer] that returns looks for the first object of
    [all_timers] that holds the timer, which is its oldest registration,
    objects being added at the end. If there is one, at address [p], the
    index has an entry for [p], and what is erased is that object and the
    first entry for [p] in the order of the index, nothing else: every
    other object and every other entry, also a later registration of the
    same timer and a further entry for [p], stays where it is. If there
    is none, both containers are as before. So the registrations of all
    other timers stay as they are and in their order, the timer has one
    registration less, and the index loses as many entries as the live
    set loses objects. The on-reset callback of the timer is cleared, and
    neither the timers nor the allocator are touched. *)
Theorem remove_timer_removes_one_registration t (s s' : QState W) :
  Queue.remove_timer t s = Ok (tt, s') ->
  match list_find (fun x => rcl_ref x.2 = t) (all_timers s.1) with
  | Some (i, (p, d)) =>
      exists j e,
        list_find (fun e => e.2 = p) (running_timers s.1) = Some (j, e) /\
        all_timers s'.1 = delete i (all_timers s.1) /\
        running_timers s'.1 = delete j (running_timers s.1)
  | None =>
      all_timers s'.1 = all_timers s.1 /\
      running_timers s'.1 = running_timers s.1
  end /\
  filter (fun x => rcl_ref x.2 <> t) (all_timers s'.1)
    = filter (fun x => rcl_ref x.2 <> t) (all_timers s.1) /\
  length (filter (fun x => rcl_ref x.2 = t) (all_timers s'.1))
    = Nat.pred (length (filter (fun x => rcl_ref x.2 = t) (all_timers s.1))) /\
  running_timers s'.1 `sublist_of` running_timers s.1 /\
  (length (running_timers s.1) - length (running_timers s'.1)
   = length (all_timers s.1) - length (all_timers s'.1))%nat /\
  on_reset s'.2 = delete t (on_reset s.2) /\
  world s'.2 = world s.2 /\
  heap_next s'.1 = heap_next s.1.
Proof.
  unfold Queue.remove_timer. mprim. intros Hrun.
  destruct (list_find _ (all_timers s.1)) as [[i [p d]]|] eqn:Hall; simpl in *.
  - destruct (list_find _ (running_timers s.1)) as [[j e]|] eqn:Hidx;
      simplify_eq/=.
    split; [by exists j, e|].
    apply list_find_Some in Hall as (Hi & Ht & _).
    apply list_find_Some in Hidx as (Hj & _ & _). simpl in Ht.
    split; [apply (filter_delete_False _ _ _ _ Hi); simpl; by intros []|].
    split; [by apply (filter_delete_True _ _ _ _ Hi)|].
    split; [apply sublist_delete|].
    rewrite !length_delete by done.
    apply lookup_lt_Some in Hi, Hj. split; [lia|done].
  - simplify_eq/=. split; [done|]. apply list_find_None in Hall.
    rewrite (filter_none _ _ Hall). repeat split; try done. lia.
Qed.

(** [add_timer_to_running_map] for an address that is not in
    [all_timers] leaves [all_timers] alone. *)
Lemma add_timer_to_running_map_fresh p d (s s' : QState W) :
  list_find (fun e : nat * TimerData => e.1 = p) (all_timers s.1) = None ->
  Queue.add_timer_to_running_map p d s = Ok (tt, s') ->
  all_timers s'.1 = all_timers s.1.
Proof.
  unfold Queue.add_timer_to_running_map, Queue.forget_timer_data. mprim.
  intros Hfind Hrun. by mcases.
Qed.

(** What [add_timer] does on the queue of the timer's clock, the
    addresses in use being older than the allocator's next one. *)
Lemma add_timer_exact t cb (s s' : QState W) :
  Forall (fun x => (x.1 < heap_next s.1)%nat) (all_timers s.1) ->
  rcl_timer_clock (world s.2) t = Some (timer_type s.1) ->
  Queue.add_timer t cb s = Ok (tt, s') ->
  all_timers s'.1 = all_timers s.1 ++ [(heap_next s.1, mkTimerData t cb)] /\
  heap_next s'.1 = S (heap_next s.1) /\
  on_reset s'.2
    = <[t := {| hook_queue := timer_type s.1; hook_data := heap_next s.1 |}]>
        (on_reset s.2) /\
  timer_type s'.1 = timer_type s.1 /\
  running s'.1 = running s.1 /\
  thread_terminated s'.1 = thread_terminated s.1.
Proof.
  intros Hfresh Hclock Hrun.
  assert (list_find (fun e : nat * TimerData => e.1 = heap_next s.1)
                    (all_timers s.1) = None) as Hfind.
  { apply list_find_None. eapply Forall_impl; [exact Hfresh|].
    simpl. intros x Hx. lia. }
  apply add_timer_Ok in Hrun
    as (c & Hclock' & [[Hne _]|(_ & s1 & s2 & s3 & Hs1 & Hreplay & Hmap & ->)]).
  { rewrite Hclock in Hclock'. by simplify_eq. }
  assert (all_timers s1.1 = all_timers s.1) as Hall1 by (by subst s1).
  assert (all_timers s2.1 = all_timers s1.1 /\ flags_kept s1 s2)
    as [Hall2 Hkept2].
  { destruct Hreplay as [[_ ->]|(_ & sr & Hreplay & ->)]; [by split|].
    pose proof Hreplay as Hall%add_timer_to_running_map_fresh;
      [|by rewrite Hall1].
    apply add_timer_to_running_map_frame in Hreplay as []. by split. }
  pose proof Hmap as Hall3%add_timer_to_running_map_fresh;
    [|simpl; by rewrite Hall2, Hall1].
  apply add_timer_to_running_map_frame in Hmap as [].
  destruct Hkept2. subst s1. simpl in *.
  rewrite Hall3, Hall2. repeat split; congruence.
Qed.

(** What [add_timer_to_running_map] does to the index: nothing, or the
    timer is called and filed under the next call time it then reports. *)
Lemma add_timer_to_running_map_index p d (s s' : QState W) :
  Queue.add_timer_to_running_map p d s = Ok (tt, s') ->
  running_timers s'.1 = running_timers s.1 \/
  exists r n,
    rcl_timer_call (rcl_ref d) (world s.2) = (r, world s'.2) /\
    rcl_timer_get_next_call_time (world s'.2) (rcl_ref d) = (RCL_RET_OK, n) /\
    running_timers s'.1 = multimap_insert n p (running_timers s.1).
Proof.
  unfold Queue.add_timer_to_running_map, Queue.forget_timer_data. mprim.
  intros Hrun. mcases; try (by left). right. by eexists _, _.
Qed.

(** What [add_timer] does to the index when no reset of the timer was
    counted. *)
Lemma add_timer_index t cb (s s' : QState W) :
  rcl_reset_counter (world s.2) t = 0%nat ->
  Queue.add_timer t cb s = Ok (tt, s') ->
  running_timers s'.1 = running_timers s.1 \/
  exists n,
    rcl_timer_get_next_call_time (world s'.2) t = (RCL_RET_OK, n) /\
    running_timers s'.1
    = multimap_insert n (heap_next s.1) (running_timers s.1).
Proof.
  intros Hzero Hrun.
  apply add_timer_Ok in Hrun
    as (c & Hclock & [[Hne ->]|(_ & s1 & s2 & s3 & -> & Hreplay & Hmap & ->)]);
    [by left|].
  destruct Hreplay as [[_ ->]|[Hpending _]]; [|done].
  apply add_timer_to_running_map_index in Hmap as [Hsame|(r & n & _ & Hn & Hidx)];
    simpl in *; [by left|].
  right. by exists n.
Qed.

(** X8. The key under which [add_timer] files a timer is the next call
    time the timer reports once it has been called, at the address just
    handed out; the next wake-up time of the worker then is the earlier of
    the old one and that key, or that key alone if the index was empty.
    So it is when no reset of the timer was counted before the call, and
    in every other case the index is then as before. When a reset was
    counted, the lambda that [set_on_reset_callback] runs at once may
    have filed the timer a first time, under the next call time reported
    after a call of the timer in the world [add_timer] was entered in;
    what is said above then holds of the second filing, on top of the
    first: the address can end up with two entries. *)
Theorem add_timer_wake_time t cb (s s' : QState W) :
  Queue.add_timer t cb s = Ok (tt, s') ->
  (rcl_reset_counter (world s.2) t = 0%nat ->
   running_timers s'.1 = running_timers s.1 \/
   exists n,
     rcl_timer_get_next_call_time (world s'.2) t = (RCL_RET_OK, n) /\
     running_timers s'.1 = multimap_insert n (heap_next s.1) (running_timers s.1) /\
     Queue.get_next_timer_ready_time s'.1
     = match running_timers s.1 with
       | [] => n
       | _ => Z.min (Queue.get_next_timer_ready_time s.1) n
       end) /\
  exists index1,
    (index1 = running_timers s.1 \/
     rcl_reset_counter (world s.2) t <> 0%nat /\
     exists r w1 n1,
       rcl_timer_call t (world s.2) = (r, w1) /\
       rcl_timer_get_next_call_time w1 t = (RCL_RET_OK, n1) /\
       index1 = multimap_insert n1 (heap_next s.1) (running_timers s.1)) /\
    (running_timers s'.1 = index1 \/
     exists n,
       rcl_timer_get_next_call_time (world s'.2) t = (RCL_RET_OK, n) /\
       running_timers s'.1 = multimap_insert n (heap_next s.1) index1 /\
       Queue.get_next_timer_ready_time s'.1
       = match index1 with
         | [] => n
         | (k, _) :: _ => Z.min k n
         end).
Proof.
  intros Hrun. split.
  - intros Hzero.
    destruct (add_timer_index t cb s s' Hzero Hrun) as [Hsame|(n & Hn & Hidx)].
    + by left.
    + right. exists n. split; [done|]. split; [done|].
      by apply get_next_after_insert with (p := heap_next s.1).
  - apply add_timer_Ok in Hrun
      as (c & Hclock & [[Hne ->]|(_ & s1 & s2 & s3 & -> & Hreplay & Hmap & ->)]).
    { exists (running_timers s.1). split; by left. }
    exists (running_timers s2.1). split.
    + destruct Hreplay as [[_ ->]|(Hpending & sr & Hreplay & ->)]; [by left|].
      apply add_timer_to_running_map_index in Hreplay
        as [Hsame|(r & n1 & Hcall & Hn1 & Hidx)]; simpl in *; [by left|].
      right. split; [done|]. by exists r, (world sr.2), n1.
    + apply add_timer_to_running_map_index in Hmap
        as [Hsame|(r & n & _ & Hn & Hidx)]; simpl in *; [by left|].
      right. exists n. split; [done|]. split; [done|].
      unfold Queue.get_next_timer_ready_time. simpl. rewrite Hidx.
      destruct (running_timers s2.1) as [|[k' v'] rest]; simpl; [done|].
      destruct (n <? k') eqn:E; simpl;
        [apply Z.ltb_lt in E|apply Z.ltb_ge in E]; lia.
Qed.




(** X10. On the queue of its clock, [add_timer] registers the timer whatever
    state the timer is in, cancelled or already dropped by its owner: the
    live set grows by exactly one object, for this timer and callback, at
    the address the allocator hands out, behind all others; the timer then
    has one registration more, none being merged with an earlier one; the
    on-reset callback of the timer now is the lambda for that address,
    replacing any earlier one; the flags of the queue are untouched and
    the containers are well formed again. *)
Theorem add_timer_registers_at_fresh_address t cb (s s' : QState W) :
  store_inv s ->
  rcl_timer_clock (world s.2) t = Some (timer_type s.1) ->
  Queue.add_timer t cb s = Ok (tt, s') ->
  all_timers s'.1 = all_timers s.1 ++ [(heap_next s.1, mkTimerData t cb)] /\
  length (filter (fun x => rcl_ref x.2 = t) (all_timers s'.1))
    = S (length (filter (fun x => rcl_ref x.2 = t) (all_timers s.1))) /\
  heap_next s'.1 = S (heap_next s.1) /\
  on_reset s'.2
    = <[t := {| hook_queue := timer_type s.1; hook_data := heap_next s.1 |}]>
        (on_reset s.2) /\
  running s'.1 = running s.1 /\
  thread_terminated s'.1 = thread_terminated s.1 /\
  store_inv s'.
Proof.
  intros Hinv Hclock Hrun.
  destruct (add_timer_exact t cb s s' (inv_fresh_all _ Hinv) Hclock Hrun)
    as (Hall & Hheap & Hhook & _ & Hrunning & Hterm).
  split; [done|]. split.
  { rewrite Hall, filter_app, length_app. rewrite filter_cons_True by done.
    simpl. lia. }
  do 4 (split; [done|]). by eapply add_timer_store.
Qed.

(** X11. In every state a queue can reach through its member functions, its
    worker, the on-reset lambda and code outside that leaves the clocks of
    the timers alone, the containers are well formed: [running_timers] is
    in key order, no address is held twice by [all_timers], and every
    address in either container was handed out by the allocator before.
    The time the worker would sleep until is then no later than the key of
    any entry of the index. *)
Theorem reachable_containers_well_formed ty (s : QState W) :
  reachable ty s ->
  index_sorted (running_timers s.1) /\
  NoDup (all_timers s.1).*1 /\
  Forall (fun x => (x.1 < heap_next s.1)%nat) (all_timers s.1) /\
  Forall (fun e => (e.2 < heap_next s.1)%nat) (running_timers s.1) /\
  (forall k p, (k, p) ∈ running_timers s.1 ->
               Queue.get_next_timer_ready_time s.1 <= k).
Proof.
  intros Hreach.
  destruct (reachable_store_inv _ _ Hreach) as [Hsorted Hall Hidx Hnodup].
  do 4 (split; [done|]). intros k p Hin.
  unfold Queue.get_next_timer_ready_time.
  destruct (running_timers s.1) as [|[k0 p0] rest]; [by apply elem_of_nil in Hin|].
  apply index_sorted_head_least in Hsorted.
  unfold keys_from in Hsorted. rewrite Forall_forall in Hsorted.
  apply (Hsorted _ Hin).
Qed.

End Registration.

Section ManagerAdd.
Context {W : Type} `{RclTimerApi W} `{!ClockLaws}.

Lemma add_timer_keeps_clock t cb c (s s' : QState W) :
  rcl_timer_clock (world s.2) t = Some c ->
  Queue.add_timer t cb s = Ok (tt, s') ->
  rcl_timer_clock (world s'.2) t = Some c.
Proof.
  intros Hclock Hrun. destruct s as [q s], s' as [q' s'].
  assert (broadcast (fun _ : nat => Queue.add_timer t cb) 0 [q] s [q'] s') as Hb
    by (econstructor; [exact Hrun|constructor]).
  by destruct (broadcast_add_timer _ _ _ _ _ _ _ _ Hb Hclock) as (_ & ? & _).
Qed.

(** X12. [TimerManager::add_timer] amounts to one [TimerQueue::add_timer],
    on the queue of the timer's clock: the manager and everything outside
    end up exactly as that one call leaves them, the other two queues being
    passed through unchanged. A timer whose clock is of none of the three
    types, [RCL_CLOCK_UNINITIALIZED], is dropped without a trace: no queue
    takes it and no on-reset callback is set. *)
Theorem manager_add_timer_is_one_queue_add t cb c m (s : Sys W) m' s' :
  timer_type <$> Manager.timer_queues m
    = [RCL_ROS_TIME; RCL_SYSTEM_TIME; RCL_STEADY_TIME] ->
  rcl_timer_clock (world s) t = Some c ->
  Manager.add_timer t cb (m, s) = Ok (tt, (m', s')) ->
  (c = RCL_CLOCK_UNINITIALIZED -> m' = m /\ s' = s) /\
  (forall i q,
     Manager.timer_queues m !! i = Some q -> timer_type q = c ->
     exists q', Queue.add_timer t cb (q, s) = Ok (tt, (q', s')) /\
                Manager.timer_queues m' = <[i := q']> (Manager.timer_queues m)).
Proof.
  intros Htypes Hclock Hrun. destruct m as [qs], m' as [qs']. simpl in *.
  unfold Manager.add_timer in Hrun.
  apply for_each_queue_broadcast in Hrun. simpl in Hrun.
  destruct qs as [|qa [|qb [|qc [|]]]]; simplify_eq/=.
  inversion Hrun as [|? ? ? ? qa' s1 ? ? Ha Hrun1]; subst.
  inversion Hrun1 as [|? ? ? ? qb' s2 ? ? Hb Hrun2]; subst.
  inversion Hrun2 as [|? ? ? ? qc' s3 ? ? Hc Hrun3]; subst.
  inversion Hrun3; subst.
  pose proof (add_timer_keeps_clock t cb c (qa, s) (qa', s1) Hclock Ha) as Hclock1.
  pose proof (add_timer_keeps_clock t cb c (qb, s1) (qb', s2) Hclock1 Hb)
    as Hclock2.
  pose proof (add_timer_cases t cb c (qa, s) (qa', s1) Hclock Ha)
    as [[Hna Hsa]|[Hya _]];
    pose proof (add_timer_cases t cb c (qb, s1) (qb', s2) Hclock1 Hb)
      as [[Hnb Hsb]|[Hyb _]];
    pose proof (add_timer_cases t cb c (qc, s2) (qc', s') Hclock2 Hc)
      as [[Hnc Hsc]|[Hyc _]];
    simpl in *; simplify_eq/=; try congruence;
    (split; [intros ?; first [done|congruence]|]);
    intros i q Hi Hty; destruct i as [|[|[|i]]]; simplify_eq/=;
    try congruence; eexists; (split; [eassumption|done]).
Qed.

End ManagerAdd.

(** * TestWaitable: counting triggers and executions *)

Lemma uint_wrap_idemp_l a b :
  Waitable.uint_wrap (Waitable.uint_wrap a + b) = Waitable.uint_wrap (a + b).
Proof. unfold Waitable.uint_wrap. apply Zplus_mod_idemp_l. Qed.

Lemma uint_wrap_range z :
  0 <= Waitable.uint_wrap z < Waitable.uint_modulus.
Proof. unfold Waitable.uint_wrap. by apply Z.mod_pos_bound. Qed.

Lemma size_wrap_idemp_l a b :
  WaitableFull.size_wrap (WaitableFull.size_wrap a + b) = WaitableFull.size_wrap (a + b).
Proof. unfold WaitableFull.size_wrap. apply Zplus_mod_idemp_l. Qed.

Lemma count_calls_cons f c cs :
  count_calls f (c :: cs) = ((if f c then 1 else 0) + count_calls f cs)%nat.
Proof.
  unfold count_calls. rewrite filter_cons.
  destruct (f c); by rewrite ?decide_True, ?decide_False by done.
Qed.

(** What one call does to the counters. *)
Lemma run_waitable_call_step c (o o1 : WaitableRun) :
  run_waitable_call c o = Waitable.Returned o1 ->
  Waitable.num_unprocessed_triggers (WaitableFull.members o1)
  = (if counts_trigger c
     then Waitable.uint_wrap
            (Waitable.num_unprocessed_triggers (WaitableFull.members o) + 1)
     else if counts_take c
     then Waitable.uint_wrap
            (Waitable.num_unprocessed_triggers (WaitableFull.members o) - 1)
     else Waitable.num_unprocessed_triggers (WaitableFull.members o)) /\
  WaitableFull.count_ o1
  = (if counts_execute c
     then WaitableFull.size_wrap (WaitableFull.count_ o + 1)
     else WaitableFull.count_ o) /\
  Waitable.gc_ (WaitableFull.members o1) = Waitable.gc_ (WaitableFull.members o) /\
  (Waitable.gc_triggers (WaitableFull.members o)
   + (if counts_trigger c then 1 else 0)
   <= Waitable.gc_triggers (WaitableFull.members o1)
   <= Waitable.gc_triggers (WaitableFull.members o)
      + (if counts_trigger c then 1 else 0)
      + (if counts_add c then 1 else 0))%nat.
Proof.
  destruct c; simpl;
    unfold on_object, WaitableFull.add_to_wait_set,
      WaitableFull.take_data_by_entity_id, WaitableFull.take_data,
      Waitable.take_data;
    simpl; intros Hrun; repeat case_match; simplify_eq/=; repeat split; lia.
Qed.

Lemma uint_wrap_shift a b c :
  Waitable.uint_wrap (Waitable.uint_wrap a + b - c) = Waitable.uint_wrap (a + b - c).
Proof.
  replace (Waitable.uint_wrap a + b - c) with (Waitable.uint_wrap a + (b - c)) by lia.
  rewrite uint_wrap_idemp_l. f_equal. lia.
Qed.

(** X13. Whatever members are called on a [TestWaitable], in whatever
    order and from whatever threads, as long as no [take_data] throws: the count of unprocessed
    triggers is, modulo 2^32, what it was plus the triggers minus the
    takes; [get_count] is, modulo 2^64, what it was plus the executions;
    the guard condition is the same one, and it has been triggered once per
    trigger and at most once more per [add_to_wait_set]. *)
Theorem waitable_counters cs (o o' : WaitableRun) :
  0 <= Waitable.num_unprocessed_triggers (WaitableFull.members o)
    < Waitable.uint_modulus ->
  0 <= WaitableFull.count_ o < WaitableFull.size_modulus ->
  run_waitable_calls cs o = Waitable.Returned o' ->
  Waitable.num_unprocessed_triggers (WaitableFull.members o')
  = Waitable.uint_wrap
      (Waitable.num_unprocessed_triggers (WaitableFull.members o)
       + Z.of_nat (count_calls counts_trigger cs)
       - Z.of_nat (count_calls counts_take cs)) /\
  WaitableFull.get_count o'
  = WaitableFull.size_wrap
      (WaitableFull.count_ o + Z.of_nat (count_calls counts_execute cs)) /\
  Waitable.gc_ (WaitableFull.members o') = Waitable.gc_ (WaitableFull.members o) /\
  (Waitable.gc_triggers (WaitableFull.members o) + count_calls counts_trigger cs
   <= Waitable.gc_triggers (WaitableFull.members o')
   <= Waitable.gc_triggers (WaitableFull.members o)
      + count_calls counts_trigger cs + count_calls counts_add cs)%nat.
Proof.
  revert o. induction cs as [|c cs IH]; intros o Hnum Hcount Hrun.
  - simpl in Hrun. simplify_eq. unfold count_calls. simpl.
    unfold WaitableFull.get_count, Waitable.uint_wrap, WaitableFull.size_wrap.
    rewrite !Z.add_0_r, Z.sub_0_r, !Z.mod_small by done.
    repeat split; lia.
  - simpl in Hrun.
    destruct (run_waitable_call c o) as [o1|] eqn:Hstep; [|done].
    apply run_waitable_call_step in Hstep as (Hn1 & Hc1 & Hgc1 & Htr1).
    apply IH in Hrun as (Hn & Hc & Hgc & Htr).
    + rewrite !count_calls_cons, !Nat2Z.inj_add.
      rewrite Hn, Hc, Hgc, Hn1, Hc1, Hgc1.
      split; [|split; [|split; [done|lia]]].
      * destruct c; simpl; rewrite ?uint_wrap_shift; f_equal; lia.
      * destruct c; simpl; rewrite ?size_wrap_idemp_l; f_equal; lia.
    + rewrite Hn1. destruct (counts_trigger c); [apply uint_wrap_range|].
      destruct (counts_take c); [apply uint_wrap_range|done].
    + rewrite Hc1. destruct (counts_execute c); [|done].
      unfold WaitableFull.size_wrap. by apply Z.mod_pos_bound.
Qed.

Lemma run_waitable_calls_app cs1 cs2 (o : WaitableRun) :
  run_waitable_calls (cs1 ++ cs2) o
  = match run_waitable_calls cs1 o with
    | Waitable.Returned o1 => run_waitable_calls cs2 o1
    | Waitable.Thrown_runtime_error => Waitable.Thrown_runtime_error
    end.
Proof.
  revert o. induction cs1 as [|c cs1 IH]; intros o; simpl; [done|].
  destruct (run_waitable_call c o); [apply IH|done].
Qed.

(** One round on a waitable with a trigger pending. *)
Lemma dispatch_round ws (o : WaitableRun) :
  1 <= Waitable.num_unprocessed_triggers (WaitableFull.members o)
    < Waitable.uint_modulus ->
  exists o1 : WaitableRun,
    run_waitable_calls (dispatch ws) o = Waitable.Returned o1 /\
    Waitable.num_unprocessed_triggers (WaitableFull.members o1)
    = Waitable.num_unprocessed_triggers (WaitableFull.members o) - 1 /\
    WaitableFull.count_ o1 = WaitableFull.size_wrap (WaitableFull.count_ o + 1) /\
    Waitable.gc_triggers (WaitableFull.members o1)
    = (Waitable.gc_triggers (WaitableFull.members o)
       + (if Waitable.retrigger_guard_condition (WaitableFull.members o)
          then 1 else 0))%nat /\
    Waitable.retrigger_guard_condition (WaitableFull.members o1)
    = Waitable.retrigger_guard_condition (WaitableFull.members o) /\
    WaitableFull.execute_promise_ o1 = WaitableFull.promise_satisfied /\
    WaitableFull.hold_execute o1 = WaitableFull.hold_execute o /\
    run_waiting o1
    = (run_waiting o + (if WaitableFull.hold_execute o then 1 else 0))%nat.
Proof.
  intros Hnum.
  assert ((0 <? Waitable.num_unprocessed_triggers (WaitableFull.members o)) = true)
    as Hpos by (apply Z.ltb_lt; lia).
  unfold dispatch. simpl. unfold on_object, WaitableFull.add_to_wait_set. simpl.
  rewrite Hpos.
  destruct (Waitable.retrigger_guard_condition (WaitableFull.members o)) eqn:Hre;
    simpl; (eexists; split; [reflexivity|]); simpl;
    unfold Waitable.uint_wrap; rewrite Z.mod_small by lia;
    (split; [done|split; [done|split; [lia|split; [done|]]]]);
    (split; [by destruct (WaitableFull.execute_promise_ o)|]);
    (split; [done|]); destruct (WaitableFull.hold_execute o); lia.
Qed.

(** X14. A waitable with [n] unprocessed triggers takes [k <= n] rounds of
    an executor (into the wait set, [is_ready], [take_data], [execute])
    without [take_data] throwing, whatever the wait sets hold; after them
    [n - k] triggers are left, [get_count] has gone up by [k], and the
    promise of the last execution is fulfilled. With retriggering enabled
    the guard condition has been triggered again in each of these rounds,
    with retriggering disabled in none; and once no trigger is left,
    [add_to_wait_set] triggers it no more. The rounds leave [hold_execute]
    as it is: if it is clear, every [execute] returns and no call is left
    waiting on [cv], so that one thread gets through all the rounds; if
    it is set, the [execute] of every round is left waiting, and the
    rounds take as many threads as there are rounds. *)
Theorem dispatch_rounds_drain_triggers wss (o : WaitableRun) :
  Z.of_nat (length wss)
    <= Waitable.num_unprocessed_triggers (WaitableFull.members o)
    < Waitable.uint_modulus ->
  0 <= WaitableFull.count_ o < WaitableFull.size_modulus ->
  exists o' : WaitableRun,
    run_waitable_calls (dispatches wss) o = Waitable.Returned o' /\
    Waitable.num_unprocessed_triggers (WaitableFull.members o')
    = Waitable.num_unprocessed_triggers (WaitableFull.members o)
      - Z.of_nat (length wss) /\
    WaitableFull.get_count o'
    = WaitableFull.size_wrap (WaitableFull.count_ o + Z.of_nat (length wss)) /\
    Waitable.gc_triggers (WaitableFull.members o')
    = (Waitable.gc_triggers (WaitableFull.members o)
       + (if Waitable.retrigger_guard_condition (WaitableFull.members o)
          then length wss else 0))%nat /\
    (wss <> [] ->
     WaitableFull.execute_promise_ o' = WaitableFull.promise_satisfied) /\
    (Waitable.num_unprocessed_triggers (WaitableFull.members o') = 0 ->
     WaitableFull.add_to_wait_set o' = o') /\
    WaitableFull.hold_execute o' = WaitableFull.hold_execute o /\
    run_waiting o'
    = (run_waiting o + (if WaitableFull.hold_execute o then length wss else 0))%nat.
Proof.
  revert o. induction wss as [|ws wss IH]; intros o Hnum Hcount.
  - exists o. simpl. split; [done|].
    unfold WaitableFull.get_count, WaitableFull.size_wrap.
    rewrite Z.sub_0_r, Z.add_0_r, Z.mod_small by done.
    do 2 (split; [done|]).
    split; [by destruct (Waitable.retrigger_guard_condition _)|].
    split; [done|]. split.
    { intros Hzero. unfold WaitableFull.add_to_wait_set.
      rewrite Hzero. simpl. by rewrite andb_false_r. }
    split; [done|]. destruct (WaitableFull.hold_execute o); lia.
  - simpl in Hnum.
    destruct (dispatch_round ws o)
      as (o1 & Hround & Hn1 & Hc1 & Hg1 & Hre1 & Hp1 & Hh1 & Hw1); [lia|].
    destruct (IH o1) as (o' & Hrun & Hn & Hc & Hg & Hp & Hlast & Hh & Hw).
    { rewrite Hn1. lia. }
    { rewrite Hc1. unfold WaitableFull.size_wrap. by apply Z.mod_pos_bound. }
    exists o'. split.
    { unfold dispatches in *.
      by rewrite bind_cons, run_waitable_calls_app, Hround. }
    split; [rewrite Hn, Hn1; simpl length; lia|].
    split; [rewrite Hc, Hc1, size_wrap_idemp_l; f_equal; simpl length; lia|].
    split; [rewrite Hg, Hg1, Hre1;
            destruct (Waitable.retrigger_guard_condition _); simpl; lia|].
    split.
    { intros _. destruct wss as [|ws' wss]; [|by apply Hp].
      simpl in Hrun. by simplify_eq. }
    split; [done|]. split; [congruence|].
    rewrite Hw, Hw1, Hh1. destruct (WaitableFull.hold_execute o); simpl; lia.
Qed.

(** * TimerManager: registering and removing a timer *)

Section ManagerRoundTrip.
Context {W : Type} `{RclTimerApi W} `{!ClockLaws}.







End ManagerRoundTrip.

(** * Index entries and live objects *)

Lemma elem_of_delete_other {A} (l : list A) i x y :
  l !! i = Some y -> x ∈ l -> x <> y -> x ∈ delete i l.
Proof.
  revert i. induction l as [|a l IH]; intros i Hi Hx Hne; [done|].
  destruct i as [|i]; simpl in *.
  - simplify_eq. apply elem_of_cons in Hx as [?|?]; done.
  - apply elem_of_cons in Hx as [->|Hx]; [by left|].
    right. by apply IH.
Qed.

Lemma NoDup_fmap_delete {A B} (f : A -> B) (l : list A) i x y :
  NoDup (f <$> l) -> l !! i = Some x -> y ∈ delete i l -> f y <> f x.
Proof.
  revert i. induction l as [|a l IH]; intros i Hnodup Hi Hy; [done|].
  rewrite fmap_cons in Hnodup. apply NoDup_cons in Hnodup as [Ha Hnodup].
  destruct i as [|i]; simpl in *.
  - simplify_eq. intros Heq. apply Ha. rewrite <- Heq.
    by apply list_elem_of_fmap_2.
  - apply elem_of_cons in Hy as [->|Hy]; [|by eapply IH].
    intros Heq. apply Ha. rewrite Heq.
    apply list_elem_of_fmap_2. by eapply list_elem_of_lookup_2.
Qed.

Section HookFreeFacts.
Context {W : Type} `{RclTimerApi W} `{!ClockLaws} `{!ProgressLaws}.

Lemma drain_ready_same (s s' : QState W) :
  drain_ready (view s) ->
  all_timers s'.1 = all_timers s.1 ->
  running_timers s'.1 = running_timers s.1 ->
  clock_kept (world s.2) (world s'.2) ->
  drain_ready (view s').
Proof.
  intros [Hlive Hnodup Hknown] Hall Hidx Hclock. simpl in *.
  split; simpl; rewrite ?Hall, ?Hidx; [done|done|].
  intros p d Hin. destruct (Hknown p d Hin) as [c Hc]. exists c. by apply Hclock.
Qed.

Lemma add_timer_ready t cb (s s' : QState W) :
  store_inv s -> drain_ready (view s) ->
  rcl_reset_counter (world s.2) t = 0%nat ->
  Queue.add_timer t cb s = Ok (tt, s') ->
  drain_ready (view s').
Proof.
  intros Hinv [Hlive Hnodup Hknown] Hzero Hrun. simpl in *.
  destruct (rcl_timer_clock (world s.2) t) as [c|] eqn:Hclock.
  2:{ exfalso. revert Hrun. unfold Queue.add_timer. mprim. by rewrite Hclock. }
  destruct (add_timer_cases t cb c s s' Hclock Hrun)
    as [[Hne ->]|(Heq & _)]; [by split|].
  subst c.
  destruct (add_timer_exact t cb s s' (inv_fresh_all _ Hinv) Hclock Hrun)
    as (Hall & _).
  pose proof (add_timer_clock_kept t cb s s' Hrun) as Hkept.
  pose proof (add_timer_index t cb s s' Hzero Hrun) as Hidx.
  split; simpl; rewrite ?Hall.
  - intros k p Hin. destruct Hidx as [Hidx|(n & _ & Hidx)]; rewrite Hidx in Hin.
    + destruct (Hlive k p Hin) as [d Hd]. exists d. apply elem_of_app. by left.
    + apply elem_of_multimap_insert in Hin as [[= -> ->]|Hin].
      * eexists. apply elem_of_app. right. by left.
      * destruct (Hlive k p Hin) as [d Hd]. exists d. apply elem_of_app. by left.
  - destruct Hidx as [-> |(n & _ & ->)]; [done|].
    rewrite multimap_insert_Permutation. simpl. apply NoDup_cons. split; [|done].
    intros Hin. apply list_elem_of_fmap in Hin as (e & He & Hin).
    pose proof (inv_fresh_index _ Hinv) as Hfresh. rewrite Forall_forall in Hfresh.
    specialize (Hfresh _ Hin). simpl in *. lia.
  - intros p d Hin. apply elem_of_app in Hin as [Hin|Hin].
    + destruct (Hknown p d Hin) as [c Hc]. exists c. by apply Hkept.
    + apply list_elem_of_singleton in Hin. simplify_eq. simpl.
      eexists. by apply Hkept.
Qed.

Lemma remove_timer_ready t (s s' : QState W) :
  drain_ready (view s) ->
  Queue.remove_timer t s = Ok (tt, s') ->
  drain_ready (view s').
Proof.
  intros [Hlive Hnodup Hknown] Hrun. simpl in *.
  destruct (list_find (fun x => rcl_ref x.2 = t) (all_timers s.1))
    as [[i [p d]]|] eqn:Hall.
  - destruct (list_find (fun x => x.2 = p) (running_timers s.1))
      as [[j e]|] eqn:Hidx.
    2:{ by rewrite (remove_timer_without_entry t s i p d Hall Hidx) in Hrun. }
    destruct (remove_timer_registered t s i p d j e Hall Hidx)
      as (s'' & Hrun' & Hall' & Hidx' & _ & Hworld).
    assert (s'' = s') as -> by congruence.
    apply list_find_Some in Hall as (Hi & _ & _).
    apply list_find_Some in Hidx as (Hj & Hp & _). simpl in Hp.
    split; simpl; rewrite ?Hall', ?Hidx', ?Hworld.
    + intros k p' Hin.
      pose proof (NoDup_fmap_delete snd _ _ _ _ Hnodup Hj Hin) as Hne.
      simpl in Hne.
      apply list_elem_of_delete_inv in Hin. destruct (Hlive k p' Hin) as [d' Hd'].
      exists d'. apply (elem_of_delete_other _ _ _ _ Hi Hd'). congruence.
    + eapply sublist_NoDup; [exact Hnodup|apply fmap_sublist, sublist_delete].
    + intros p' d' Hin. apply list_elem_of_delete_inv in Hin. by apply (Hknown p').
  - destruct (remove_timer_unregistered t s Hall) as (s'' & Hrun' & Hq & Hworld).
    assert (s'' = s') as -> by congruence.
    split; simpl; rewrite Hq, ?Hworld; done.
Qed.

Lemma call_ready_timer_callbacks_ready fuel (s s' : QState W) :
  drain_ready (view s) ->
  Queue.call_ready_timer_callbacks fuel s = Ok (tt, s') ->
  drain_ready (view s').
Proof.
  revert s. induction fuel as [|fuel IH]; intros s Hready Hrun; [done|].
  simpl in Hrun. apply bind_Ok in Hrun as (b & s1 & Hstep & Hrun).
  apply drain_step_ready in Hstep; [|done].
  destruct b; [by eapply IH|]. unfold ret in Hrun. by simplify_eq/=.
Qed.

Lemma timer_thread_ready fuel script st (s s' : QState W) :
  drain_ready (view s) ->
  Queue.timer_thread fuel script s = Ok (st, s') ->
  drain_ready (view s').
Proof.
  revert s. induction script as [|e script IH]; intros s Hready Hrun.
  - simpl in Hrun. mprim.
    mcases; apply (drain_ready_same _ _ Hready); try done; apply clock_kept_refl.
  - simpl in Hrun. apply bind_Ok in Hrun as (q & s0 & Hq & Hrun).
    unfold Queue.get_queue, gets in Hq. simplify_eq/=.
    destruct (running s0.1);
      [|mprim; simplify_eq/=; apply (drain_ready_same _ _ Hready); try done;
        apply clock_kept_refl].
    destruct (Queue.env_ok e);
      [|mprim; simplify_eq/=; apply (drain_ready_same _ _ Hready); try done;
        apply clock_kept_refl].
    apply bind_Ok in Hrun as ([] & s1 & Hlock & Hrun).
    apply bind_Ok in Hrun as ([] & s2 & Hdrain & Hrun).
    apply call_ready_timer_callbacks_ready in Hdrain.
    2:{ mprim. simplify_eq/=. apply (drain_ready_same _ _ Hready); try done.
        apply clock_kept_refl. }
    apply bind_Ok in Hrun as (q' & s3 & Hq' & Hrun).
    unfold Queue.get_queue, gets in Hq'. simplify_eq/=.
    apply bind_Ok in Hrun as ([] & s4 & Hunlock & Hrun).
    apply bind_Ok in Hrun as ([] & s5 & Hsleep & Hrun).
    apply bind_Ok in Hrun as ([] & s6 & Hcatch & Hrun).
    eapply IH; [|exact Hrun].
    destruct (Queue.env_sleep_throws e); mprim; simplify_eq/=;
      apply (drain_ready_same _ _ Hdrain); try done; apply clock_kept_refl.
Qed.

Lemma reachable_unhooked_reachable ty (s : QState W) :
  reachable_unhooked ty s -> reachable ty s.
Proof.
  induction 1 as [w|s c s' _ IH Hc _ Hrun]; [apply reach_new|].
  by eapply reach_call.
Qed.

Lemma reachable_unhooked_ready ty (s : QState W) :
  reachable_unhooked ty s -> drain_ready (view s).
Proof.
  induction 1 as [w|s c s' Hreach IH Hallowed Hc Hrun].
  - split; simpl; [by intros k p ?%elem_of_nil|constructor|by intros p d ?%elem_of_nil].
  - pose proof (reachable_store_inv _ _ (reachable_unhooked_reachable _ _ Hreach))
      as Hinv.
    destruct c; simpl in Hrun, Hc, Hallowed; [| |done| | | |].
    + by eapply add_timer_ready.
    + by eapply remove_timer_ready.
    + by eapply call_ready_timer_callbacks_ready.
    + apply bind_Ok in Hrun as (st & s1 & Hthread & Hret).
      unfold ret in Hret. simplify_eq/=. by eapply timer_thread_ready.
    + apply stop_effects in Hrun as ([Hall Hidx _ _ _ Hworld] & _).
      apply (drain_ready_same _ _ IH); try done. rewrite Hworld.
      apply clock_kept_refl.
    + mprim. simplify_eq/=. by apply (drain_ready_same _ _ IH).
Qed.

(** X16. As long as the on-reset lambda is not run, no timer held by the
    queue being reset and none being added that was reset before, the
    index and the live set fit together in every state the queue
    reaches: each index entry points to a live object, no object has two
    entries, and every timer held has a clock. A drain pass started in
    such a state never reads through a dangling pointer or an
    out-parameter that was not written: if the world is progressing (for
    rcl: no timer has period zero), it returns, with any fuel beyond
    [drain_measure]; in any world, each turn of its loop returns and
    leaves a state of the same kind. *)
Theorem unhooked_queue_drains ty (s : QState W) :
  reachable_unhooked ty s ->
  drain_ready (view s) /\
  (exists b s1, Queue.drain_step s = Ok (b, s1) /\ drain_ready (view s1)) /\
  (progressing (world s.2) ->
   exists s', forall fuel,
     (drain_measure (view s) < fuel)%nat ->
     Queue.call_ready_timer_callbacks fuel s = Ok (tt, s')).
Proof.
  intros Hreach. pose proof (reachable_unhooked_ready _ _ Hreach) as Hready.
  split; [done|]. split.
  { destruct (drain_step_total s Hready) as (b & s1 & Hstep).
    exists b, s1. split; [done|]. by eapply drain_step_ready. }
  intros Hprog.
  destruct (call_ready_timer_callbacks_terminates
              (S (drain_measure (view s))) s Hready Hprog) as [s' Hrun]; [lia|].
  exists s'. intros fuel Hfuel.
  eapply call_ready_timer_callbacks_fuel; [exact Hrun|lia].
Qed.

End HookFreeFacts.

Lemma filter_multimap_insert_length (P : Z * nat -> Prop)
      `{forall x, Decision (P x)} k v m :
  P (k, v) ->
  length (filter P (multimap_insert k v m)) = S (length (filter P m)).
Proof.
  intros HP. induction m as [|[k' v'] m IH]; simpl.
  - by rewrite filter_cons_True.
  - destruct (k <? k').
    + by rewrite filter_cons_True.
    + rewrite !filter_cons. destruct (decide (P (k', v'))); simpl; by rewrite IH.
Qed.

Section Dangling.
Context {W : Type} `{RclTimerApi W}.

Lemma drain_pass_dangling_head k p rest fuel f (s : QState W) :
  running_timers s.1 = (k, p) :: rest ->
  Queue.deref p s = Err f ->
  Queue.call_ready_timer_callbacks (S fuel) s = Err f.
Proof.
  intros Hidx Hderef. simpl.
  unfold bind at 1, Queue.drain_step, bind at 1, Queue.get_queue, gets. simpl.
  rewrite Hidx. unfold bind at 1. by rewrite Hderef.
Qed.

(** X17. The on-reset lambda files a registered live timer a second time
    without taking out the entry the index already has for it. If
    [remove_timer] follows, it erases the object and one of the two
    entries: the other one stays in the index and points to a destroyed
    [TimerData], so that reading through it, as the next drain pass does
    once the entry is the earliest, is undefined. *)
Theorem reset_then_remove_leaves_dangling_entry
        t i p d k (s : QState W) w' r n :
  NoDup (all_timers s.1).*1 ->
  list_find (fun x => rcl_ref x.2 = t) (all_timers s.1) = Some (i, (p, d)) ->
  (k, p) ∈ running_timers s.1 ->
  rcl_ref_unique (world s.2) t = false ->
  rcl_timer_call t (world s.2) = (r, w') ->
  r <> RCL_RET_TIMER_CANCELED ->
  rcl_timer_get_next_call_time w' t = (RCL_RET_OK, n) ->
  exists s',
    (Queue.timer_reset_lambda p ;; Queue.remove_timer t) s = Ok (tt, s') /\
    (forall d', (p, d') ∉ all_timers s'.1) /\
    (exists k', (k', p) ∈ running_timers s'.1) /\
    Queue.deref p s' = Err DanglingDeref /\
    (forall k' rest fuel,
       running_timers s'.1 = (k', p) :: rest ->
       Queue.call_ready_timer_callbacks (S fuel) s' = Err DanglingDeref).
Proof.
  intros Hnodup Hfind Hentry Huniq Hcall Hr Hnext.
  pose proof Hfind as (Hi & Ht & _)%list_find_Some. simpl in Ht. subst t.
  assert ((p, d) ∈ all_timers s.1) as Hd by (by eapply list_elem_of_lookup_2).
  destruct (deref_live p d s Hd) as (d' & Hderef).
  pose proof Hderef as [_ Hd']%deref_Ok.
  assert (d' = d) as -> by (by eapply NoDup_fst_functional).
  set (index1 := multimap_insert n p (running_timers s.1)).
  destruct (list_find (fun e : Z * nat => e.2 = p) index1) as [[j e]|] eqn:Hfind2.
  2:{ apply list_find_None in Hfind2. rewrite Forall_forall in Hfind2.
      exfalso. apply (Hfind2 (n, p)); [|done].
      apply elem_of_multimap_insert. by left. }
  pose proof Hfind2 as (Hj & He & _)%list_find_Some. simpl in He.
  assert (forall y, y ∈ delete i (all_timers s.1) -> y.1 <> p) as Hgone.
  { intros y Hy. apply (NoDup_fmap_delete fst _ _ _ _ Hnodup Hi Hy). }
  eexists. split.
  { unfold bind at 1. unfold Queue.timer_reset_lambda. unfold bind at 1.
    rewrite Hderef.
    unfold Queue.add_timer_to_running_map, Queue.remove_timer, unique_in.
    mprim. rewrite Huniq, Hcall. simpl. rewrite decide_False by done.
    rewrite Hnext. simpl. rewrite Hfind. fold index1. rewrite Hfind2.
    reflexivity. }
  simpl. split; [|split; [|split]].
  - intros d' Hin. by apply (Hgone _ Hin).
  - assert (0 < length (filter (fun e : Z * nat => e.2 = p) (delete j index1)))%nat
      as Hlen.
    { rewrite (filter_delete_True _ _ _ _ Hj He).
      unfold index1. rewrite filter_multimap_insert_length by done. simpl.
      assert ((k, p) ∈ filter (fun e : Z * nat => e.2 = p) (running_timers s.1))
        as Hin by (by apply list_elem_of_filter).
      destruct (filter _ (running_timers s.1)); [by apply elem_of_nil in Hin|].
      simpl. lia. }
    destruct (filter _ (delete j index1)) as [|[k' p'] l] eqn:Hfilter;
      [simpl in Hlen; lia|].
    assert ((k', p') ∈ filter (fun e : Z * nat => e.2 = p) (delete j index1))
      as Hin by (rewrite Hfilter; by left).
    apply list_elem_of_filter in Hin as [Hp' Hin]. simpl in Hp'. subst p'.
    by exists k'.
  - unfold Queue.deref, bind, Queue.get_queue, gets. simpl.
    assert (list_find (fun e : nat * TimerData => e.1 = p)
                      (delete i (all_timers s.1)) = None) as ->; [|done].
    apply list_find_None, Forall_forall. intros y Hy. by apply Hgone.
  - intros k' rest fuel Hidx.
    apply (drain_pass_dangling_head k' p rest); [exact Hidx|].
    unfold Queue.deref, bind, Queue.get_queue, gets. simpl.
    assert (list_find (fun e : nat * TimerData => e.1 = p)
                      (delete i (all_timers s.1)) = None) as ->; [|done].
    apply list_find_None, Forall_forall. intros y Hy. by apply Hgone.
Qed.

End Dangling.

(** * When the assumptions fail *)

(** X18. A timer that was reset before it is handed to the queue, while
    it had no on-reset callback, has the reset counted by rcl, and
    [set_on_reset_callback] runs the new callback at once: [add_timer]
    then files the timer twice, first from the lambda, before the mutex
    is taken, and again under the mutex. The trace breaks the mutex
    protocol, the one object has two index entries, and [remove_timer]
    takes out the object and one entry only: the other entry is left
    pointing to a destroyed [TimerData]. *)
Theorem add_timer_after_counted_reset_files_twice :
  rcl_reset_counter (world q0_reset_counted.2) 0%nat = 1%nat /\
  Queue.add_timer 0%nat 7%nat q0_reset_counted = Ok (tt, q0_reset_added) /\
  rcl_reset_counter (world q0_reset_added.2) 0%nat = 0%nat /\
  all_timers q0_reset_added.1 = [(0%nat, mkTimerData 0 7)] /\
  running_timers q0_reset_added.1 = [(140, 0%nat); (160, 0%nat)] /\
  trace q0_reset_added.2
  = [EvSetOnReset 0%nat {| hook_queue := RCL_STEADY_TIME; hook_data := 0%nat |};
     EvWriteRunningTimers; EvLock; EvWriteRunningTimers; EvWriteAllTimers;
     EvUnlock; EvNotifyAll] /\
  mutex_protocol false (trace q0_reset_added.2) = None /\
  ~ drain_ready (view q0_reset_added) /\
  Queue.remove_timer 0%nat q0_reset_added = Ok (tt, q0_reset_added_removed) /\
  all_timers q0_reset_added_removed.1 = [] /\
  running_timers q0_reset_added_removed.1 = [(160, 0%nat)] /\
  Queue.deref 0%nat q0_reset_added_removed = Err DanglingDeref.
Proof.
  split; [vm_compute; reflexivity|]. split; [vm_compute; reflexivity|].
  split; [vm_compute; reflexivity|]. split; [vm_compute; reflexivity|].
  split; [vm_compute; reflexivity|]. split; [vm_compute; reflexivity|].
  split; [vm_compute; reflexivity|]. split.
  { intros [_ Hnodup _]. revert Hnodup.
    assert (running_timers q0_reset_added.1 = [(140, 0%nat); (160, 0%nat)]) as Hidx
      by (vm_compute; reflexivity).
    unfold view. cbn [dv_index]. rewrite Hidx. simpl.
    intros [Hin _]%NoDup_cons. apply Hin. by left. }
  split; [vm_compute; reflexivity|]. split; [vm_compute; reflexivity|].
  split; vm_compute; reflexivity.
Qed.

(** One turn of the loop on a due timer of period zero: the timer is
    called, its ready-callback is run, and it is filed again, as due as
    before. *)
Lemma drain_step_zero_period (s : QState Sim.SimWorld) :
  zero_period_due s ->
  exists s', Queue.drain_step s = Ok (true, s') /\ zero_period_due s'.
Proof.
  intros (k & d & t & Hidx & Hall & Hd & Ht & Hc & Hp & Ho & Hdue).
  destruct s as [[ty run term all idx hp] [[now timers fd] hooks tr]].
  simpl in *. subst all idx.
  destruct timers as [|t0 timers]; [done|]. simpl in Ht. simplify_eq.
  destruct d as [h cb]. simpl in *. subst h.
  unfold Queue.drain_step, Queue.readd_timer_to_running_map, unique_in.
  mprim. unfold Queue.deref. mprim.
  unfold Sim.sim_until, Sim.sim_call, Sim.sim_next, Sim.sim_unique. simpl.
  rewrite Hc. simpl.
  destruct (Z.leb_spec (Sim.sim_next_call_time t - now) 0) as [_|]; [|lia].
  simpl. rewrite Hc. simpl.
  rewrite bool_decide_eq_false_2 by done. simpl.
  eexists. split; [reflexivity|].
  eexists _, _, _. simpl.
  split; [reflexivity|]. split; [reflexivity|]. split; [reflexivity|].
  split; [reflexivity|]. simpl. split; [done|]. split; [done|]. split; [done|].
  rewrite Hp. simpl. rewrite Z.add_0_r.
  destruct (Z.ltb_spec (Sim.sim_next_call_time t) now); lia.
Qed.

(** X19. rcl takes a timer of period zero and treats it as always ready:
    calling it leaves its next call time at the clock. Once such a timer
    is due, a drain pass runs its ready-callback and files it again, turn
    after turn, and never comes to the end of its loop: whatever fuel the
    pass is given, it runs out of it. *)
Theorem zero_period_timer_is_never_drained fuel (s : QState Sim.SimWorld) :
  zero_period_due s ->
  Queue.call_ready_timer_callbacks fuel s = Err OutOfFuel.
Proof.
  revert s. induction fuel as [|fuel IH]; intros s Hs; [done|].
  destruct (drain_step_zero_period s Hs) as (s' & Hstep & Hs').
  simpl. unfold bind. rewrite Hstep. by apply IH.
Qed.

(** * The properties above, at the states of the simulation *)

Lemma q1_reachable : reachable RCL_STEADY_TIME Sim.q1.
Proof.
  apply reach_call with (s := Sim.q0) (c := CallAddTimer 0%nat 7%nat);
    [|done|vm_compute; reflexivity].
  apply reach_new.
Qed.

Lemma q2_reachable : reachable RCL_STEADY_TIME q2.
Proof.
  apply reach_call with
    (s := Sim.state_after (Queue.add_timer 3%nat 9%nat Sim.q1))
    (c := CallOutside (Sim.sim_tick 125));
    [|by intros h c|vm_compute; reflexivity].
  apply reach_call with (s := Sim.q1) (c := CallAddTimer 3%nat 9%nat);
    [|done|vm_compute; reflexivity].
  apply q1_reachable.
Qed.

Lemma reachable_containers_well_formed_witness :
  index_sorted (running_timers q2.1) /\
  NoDup (all_timers q2.1).*1 /\
  Forall (fun x => (x.1 < heap_next q2.1)%nat) (all_timers q2.1) /\
  Forall (fun e => (e.2 < heap_next q2.1)%nat) (running_timers q2.1) /\
  (forall k p, (k, p) ∈ running_timers q2.1 ->
               Queue.get_next_timer_ready_time q2.1 <= k).
Proof.
  exact (reachable_containers_well_formed (W := Sim.SimWorld)
           RCL_STEADY_TIME q2 q2_reachable).
Defined.

Lemma remove_timer_removes_one_registration_witness :
  all_timers q2.1 = [(0%nat, mkTimerData 0 7); (1%nat, mkTimerData 3 9)] /\
  all_timers q2_removed.1 = [(1%nat, mkTimerData 3 9)] /\
  filter (fun x => rcl_ref x.2 <> 0%nat) (all_timers q2_removed.1)
    = filter (fun x => rcl_ref x.2 <> 0%nat) (all_timers q2.1) /\
  running_timers q2_removed.1 `sublist_of` running_timers q2.1 /\
  on_reset q2_removed.2 = delete 0%nat (on_reset q2.2).
Proof.
  destruct (remove_timer_removes_one_registration (W := Sim.SimWorld)
              0%nat q2 q2_removed)
    as (_ & Hothers & _ & Hsub & _ & Hhook & _); [vm_compute; reflexivity|].
  split; [vm_compute; reflexivity|]. split; [vm_compute; reflexivity|].
  split; [exact Hothers|]. split; [exact Hsub|exact Hhook].
Defined.


Lemma calls_keep_mutex_protocol_witness :
  exists tr, trace q1_with_second.2 = trace Sim.q1.2 ++ tr /\
             mutex_protocol false tr = Some false.
Proof.
  destruct (calls_keep_mutex_protocol (W := Sim.SimWorld)
              (CallAddTimer 3%nat 9%nat) false Sim.q1 q1_with_second)
    as (tr & Htr & Hkeeps & _).
  - reflexivity.
  - vm_compute. reflexivity.
  - exists tr. split; [exact Htr|]. apply Hkeeps. vm_compute. reflexivity.
Defined.

Lemma add_timer_wake_time_witness :
  running_timers Sim.q1.1 = [(110, 0%nat)] /\
  running_timers q1_with_second.1 = [(110, 0%nat); (120, 1%nat)] /\
  (running_timers q1_with_second.1 = running_timers Sim.q1.1 \/
   exists n,
     rcl_timer_get_next_call_time (world q1_with_second.2) 3%nat = (RCL_RET_OK, n) /\
     running_timers q1_with_second.1
     = multimap_insert n (heap_next Sim.q1.1) (running_timers Sim.q1.1) /\
     Queue.get_next_timer_ready_time q1_with_second.1
     = match running_timers Sim.q1.1 with
       | [] => n
       | _ => Z.min (Queue.get_next_timer_ready_time Sim.q1.1) n
       end).
Proof.
  split; [vm_compute; reflexivity|]. split; [vm_compute; reflexivity|].
  destruct (add_timer_wake_time (W := Sim.SimWorld)
              3%nat 9%nat Sim.q1 q1_with_second) as [Hzero _].
  - vm_compute. reflexivity.
  - apply Hzero. vm_compute. reflexivity.
Defined.

Lemma drain_pass_frame_witness :
  all_timers q2_drained.1 `sublist_of` all_timers q2.1 /\
  (running_timers q2_drained.1).*2 ⊆+ (running_timers q2.1).*2 /\
  flags_kept q2 q2_drained /\
  exists tr, trace q2_drained.2 = trace q2.2 ++ tr /\
             Forall (fun e => under_lock_event e = true) tr.
Proof.
  apply (drain_pass_frame (W := Sim.SimWorld) 10 q2 q2_drained).
  vm_compute. reflexivity.
Defined.


Lemma add_timer_registers_at_fresh_address_witness :
  rcl_timer_call 1%nat (world Sim.q1.2) = (RCL_RET_TIMER_CANCELED, world Sim.q1.2) /\
  all_timers q1_with_cancelled.1
    = all_timers Sim.q1.1 ++ [(heap_next Sim.q1.1, mkTimerData 1 8)] /\
  heap_next q1_with_cancelled.1 = S (heap_next Sim.q1.1) /\
  store_inv q1_with_cancelled.
Proof.
  split; [vm_compute; reflexivity|].
  destruct (add_timer_registers_at_fresh_address (W := Sim.SimWorld)
              1%nat 8%nat Sim.q1 q1_with_cancelled)
    as (Hall & _ & Hheap & _ & _ & _ & Hinv).
  - exact (reachable_store_inv _ _ q1_reachable).
  - vm_compute. reflexivity.
  - vm_compute. reflexivity.
  - split; [exact Hall|]. split; [exact Hheap|exact Hinv].
Defined.

Lemma manager_add_timer_is_one_queue_add_witness :
  exists q',
    Queue.add_timer 0%nat 7%nat (new_TimerQueue RCL_STEADY_TIME, m0.2)
      = Ok (tt, (q', m1.2)) /\
    Manager.timer_queues m1.1 = <[2%nat := q']> (Manager.timer_queues m0.1).
Proof.
  destruct (manager_add_timer_is_one_queue_add (W := Sim.SimWorld)
              0%nat 7%nat RCL_STEADY_TIME m0.1 m0.2 m1.1 m1.2)
    as [_ Hone].
  - reflexivity.
  - vm_compute. reflexivity.
  - vm_compute. reflexivity.
  - apply (Hone 2%nat (new_TimerQueue RCL_STEADY_TIME)); reflexivity.
Defined.

Lemma stop_only_signals_witness :
  store_kept q2 q2_stopped /\
  running q2_stopped.1 = false /\ thread_terminated q2_stopped.1 = true /\
  trace q2_stopped.2 = trace q2.2 ++ [EvNotifyOne; EvNotifyOne] /\
  Queue.stop [] q2_stopped = Ok (tt, q2_stopped).
Proof.
  destruct (stop_only_signals (W := Sim.SimWorld) [false; true] q2 q2_stopped)
    as (Hkept & Hrun & Hterm & _ & Hagain); [vm_compute; reflexivity|].
  split; [exact Hkept|]. split; [exact Hrun|]. split; [exact Hterm|].
  split; [vm_compute; reflexivity|apply Hagain].
Defined.

Lemma worker_in_loop_witness :
  running q2_two_turns.1 = true /\
  thread_terminated q2_two_turns.1 = thread_terminated q2.1 /\
  exists tr, trace q2_two_turns.2 = trace q2.2 ++ tr /\
             length (filter (fun e => is_sleep e = true) tr) = 2%nat.
Proof.
  destruct (worker_in_loop (W := Sim.SimWorld) 10
              [Queue.mkLoopEnv true false; Queue.mkLoopEnv true false]
              q2 q2_two_turns)
    as (_ & Hrun & Hterm & _ & Htr); [vm_compute; reflexivity|].
  split; [exact Hrun|]. split; [exact Hterm|exact Htr].
Defined.

Lemma stopped_queue_runs_no_callback_witness :
  running_timers q2_stopped.1 = [(110, 0%nat); (120, 1%nat)] /\
  Sim.sim_now (world q2_stopped.2) = 125 /\
  running q2_stopped_worker.1 = false /\
  fired (trace q2_stopped_worker.2) = fired (trace q2_stopped.2).
Proof.
  split; [vm_compute; reflexivity|]. split; [vm_compute; reflexivity|].
  apply (stopped_queue_runs_no_callback (W := Sim.SimWorld)
           (CallWorker 10 [Queue.mkLoopEnv true false])
           q2_stopped q2_stopped_worker).
  - vm_compute. reflexivity.
  - exact I.
  - vm_compute. reflexivity.
Defined.

Lemma waitable_counters_witness :
  exists o' : WaitableRun,
    run_waitable_calls
      [DoTrigger; DoTrigger; DoAddToWaitSet; DoIsReady [];
       DoTakeDataByEntityId 0; DoExecute]
      (new_WaitableRun 5) = Waitable.Returned o' /\
    Waitable.num_unprocessed_triggers (WaitableFull.members o') = 1 /\
    WaitableFull.get_count o' = 1 /\
    (2 <= Waitable.gc_triggers (WaitableFull.members o') <= 3)%nat.
Proof.
  eexists. split; [reflexivity|].
  match goal with
  | |- Waitable.num_unprocessed_triggers (WaitableFull.members ?r) = _ /\ _ =>
      destruct (waitable_counters
                  [DoTrigger; DoTrigger; DoAddToWaitSet; DoIsReady [];
                   DoTakeDataByEntityId 0; DoExecute]
                  (new_WaitableRun 5) r)
        as (Hn & Hc & _ & Hg)
  end.
  - vm_compute. split; [discriminate|reflexivity].
  - vm_compute. split; [discriminate|reflexivity].
  - vm_compute. reflexivity.
  - split; [exact Hn|]. split; [exact Hc|exact Hg].
Defined.

Lemma dispatch_rounds_drain_triggers_witness :
  exists o' : WaitableRun,
    run_waitable_calls (dispatches [[]; [Some 5%nat]; []]) waitable3
      = Waitable.Returned o' /\
    Waitable.num_unprocessed_triggers (WaitableFull.members o') = 0 /\
    WaitableFull.get_count o' = 3 /\
    Waitable.gc_triggers (WaitableFull.members o') = 6%nat /\
    WaitableFull.add_to_wait_set o' = o' /\
    run_waiting o' = 0%nat.
Proof.
  destruct (dispatch_rounds_drain_triggers [[]; [Some 5%nat]; []] waitable3)
    as (o' & Hrun & Hn & Hc & Hg & _ & Hlast & _ & Hw).
  - vm_compute. split; [discriminate|reflexivity].
  - vm_compute. split; [discriminate|reflexivity].
  - exists o'. split; [exact Hrun|]. split; [exact Hn|]. split; [exact Hc|].
    split; [exact Hg|]. split; [apply Hlast; exact Hn|exact Hw].
Defined.


Lemma q2_unhooked : reachable_unhooked RCL_STEADY_TIME q2.
Proof.
  apply unhooked_call with
    (s := Sim.state_after (Queue.add_timer 3%nat 9%nat Sim.q1))
    (c := CallOutside (Sim.sim_tick 125));
    [|by intros h c|done|vm_compute; reflexivity].
  apply unhooked_call with (s := Sim.q1) (c := CallAddTimer 3%nat 9%nat);
    [|done|vm_compute; reflexivity|vm_compute; reflexivity].
  apply unhooked_call with (s := Sim.q0) (c := CallAddTimer 0%nat 7%nat);
    [|done|vm_compute; reflexivity|vm_compute; reflexivity].
  apply unhooked_new.
Qed.

Lemma unhooked_queue_drains_witness :
  drain_ready (view q2) /\
  exists s', forall fuel,
    (drain_measure (view q2) < fuel)%nat ->
    Queue.call_ready_timer_callbacks fuel q2 = Ok (tt, s').
Proof.
  destruct (unhooked_queue_drains (W := Sim.SimWorld)
              RCL_STEADY_TIME q2 q2_unhooked) as (Hready & _ & Hreturns).
  split; [exact Hready|]. apply Hreturns.
  change (sim_progressing (world q2.2)). unfold sim_progressing.
  apply (bool_decide_unpack _). vm_compute. reflexivity.
Defined.

Lemma reset_then_remove_leaves_dangling_entry_witness :
  running_timers q2_reset.1 = [(110, 0%nat); (120, 1%nat)] /\
  running_timers q2_reset_removed.1 = [(120, 1%nat); (165, 0%nat)] /\
  all_timers q2_reset_removed.1 = [(1%nat, mkTimerData 3 9)] /\
  exists s',
    (Queue.timer_reset_lambda 0%nat ;; Queue.remove_timer 0%nat) q2_reset
      = Ok (tt, s') /\
    (exists k', (k', 0%nat) ∈ running_timers s'.1) /\
    Queue.deref 0%nat s' = Err DanglingDeref.
Proof.
  split; [vm_compute; reflexivity|]. split; [vm_compute; reflexivity|].
  split; [vm_compute; reflexivity|].
  destruct (reset_then_remove_leaves_dangling_entry (W := Sim.SimWorld)
              0%nat 0%nat 0%nat (mkTimerData 0 7) 110 q2_reset
              (Sim.sim_call 0%nat (world q2_reset.2)).2 RCL_RET_OK 165)
    as (s' & Hrun & _ & Hentry & Hderef & _).
  - apply (bool_decide_unpack _). vm_compute. reflexivity.
  - vm_compute. reflexivity.
  - apply (bool_decide_unpack _). vm_compute. reflexivity.
  - vm_compute. reflexivity.
  - vm_compute. reflexivity.
  - discriminate.
  - vm_compute. reflexivity.
  - exists s'. split; [exact Hrun|]. split; [exact Hentry|exact Hderef].
Defined.

Lemma zero_period_timer_is_never_drained_witness :
  running_timers qz.1 = [(100, 0%nat)] /\
  zero_period_due qz /\
  ~ progressing (world qz.2) /\
  Queue.call_ready_timer_callbacks 1000 qz = Err OutOfFuel.
Proof.
  assert (zero_period_due qz) as Hdue.
  { eexists _, _, _. vm_compute.
    repeat (split; [reflexivity|]). split; [discriminate|discriminate]. }
  split; [vm_compute; reflexivity|]. split; [exact Hdue|]. split.
  - change (~ sim_progressing (world qz.2)). unfold sim_progressing.
    intros Hall. apply Forall_cons in Hall as [Hne _]. by apply Hne.
  - exact (zero_period_timer_is_never_drained 1000 qz Hdue).
Defined.
